(** * QuickDesk: ticket lifecycle and access control

    A shallow embedding of the Express/Mongoose back end of QuickDesk
    together with the properties of the ticket life cycle that are
    checked against it. The sources embedded are the ticket routes
    (the router that follows the seeding script in setup.js), the
    category routes (routes/categories.js), two of the user routes
    (routes/users.js), the authentication and authorization middleware
    ([protect], [authorize], [canAccessTicket]) and the ticket schema
    with its pre-save hook (models/Ticket.js).

    Conventions of the embedding:
    - a string is held as the bytes of its UTF-8 encoding;
    - a Mongo ObjectId is represented by its string form, the one the
      routes compare ([a.toString() === b.toString()]): twenty-four
      hexadecimal digits in lower case. The keys of a collection, the
      references a document holds and the [_id] of an account are such
      ObjectIds. Where a route takes an identifier of type [ObjectId]
      (the [:id] of a path), it is the ObjectId that [findById] casts
      the parameter to: when that cast fails the routes answer 500, as
      they do below for every other string that the schema has to cast
      ([ObjectId_cast]);
    - a [Date] is a number of milliseconds ([Z]); [new Date()] is the
      extra argument [now] of the operation that calls it;
    - the tickets collection is a finite map from [_id] to document;
    - a route returns the reply it sends and the collection it leaves;
    - [req.user] is the account attached by [protect], so every requester
      below is an authenticated, active account;
    - the documents of a collection went through the validation of
      their schema when they were stored;
    - failures of the driver (the [catch] branches that answer 500 after
      a lost connection, say) are not part of the model; the 500 of a
      value the schema cannot cast or refuses, and of an identifier in
      use, are. *)

From Stdlib Require Import ZArith Ascii String.
From stdpp Require Import base option list gmap strings sorting.

Local Open Scope Z_scope.

Abbreviation ObjectId := string (only parsing).
Abbreviation Date := Z (only parsing).

(** ** JavaScript values used by the routes *)

Module JS.

(** [if (s)] on a possibly missing string: [undefined] and [''] are falsy. *)
Definition truthy (o : option string) : bool :=
  match o with
  | Some s => negb (String.eqb s "")
  | None => false
  end.

(** [arr.findIndex(p)]: index of the first element satisfying [p], or -1. *)
Fixpoint findIndex {A} (p : A → bool) (l : list A) : Z :=
  match l with
  | [] => -1
  | x :: l' =>
      if p x then 0
      else let i := findIndex p l' in if i <? 0 then -1 else i + 1
  end.

(** [arr.splice(start, 1)], with the clamping of [start] that
    Array.prototype.splice performs. *)
Definition splice1 {A} (start : Z) (l : list A) : list A :=
  let len := Z.of_nat (length l) in
  let s := if start <? 0 then Z.max (len + start) 0 else Z.min start len in
  delete (Z.to_nat s) l.

(** [arr.push(x)] *)
Definition push {A} (l : list A) (x : A) : list A := l ++ [x].

(** [arr.includes(x)] on strings *)
Definition includes (l : list string) (x : string) : bool :=
  existsb (String.eqb x) l.

(** The bytes of a UTF-8 encoding: a continuation byte is [10xxxxxx];
    the first byte of a four-byte sequence, which encodes a character
    outside the basic plane, is [11110xxx]. *)
Definition is_continuation (c : ascii) : bool :=
  let n := nat_of_ascii c in (128 <=? n)%nat && (n <=? 191)%nat.

Definition is_astral_lead (c : ascii) : bool := (240 <=? nat_of_ascii c)%nat.

Fixpoint count (p : ascii → bool) (l : list ascii) : nat :=
  match l with
  | [] => 0
  | c :: l' => ((if p c then 1 else 0) + count p l')%nat
  end.

(** The number of characters (code points) of a string. *)
Definition code_points (s : string) : nat :=
  count (λ c, negb (is_continuation c)) (list_ascii_of_string s).

(** [s.length]: the number of UTF-16 code units, two for a character
    outside the basic plane. *)
Definition string_length (s : string) : nat :=
  (code_points s + count is_astral_lead (list_ascii_of_string s))%nat.

End JS.

(** ** The validators of express-validator that the routes chain *)

Module Validator.

(** The characters of [\s], by the bytes of their encoding. One byte:
    U+0009 to U+000D and U+0020. *)
Definition is_space (c : ascii) : bool :=
  let n := nat_of_ascii c in
  ((9 <=? n)%nat && (n <=? 13)%nat) || (n =? 32)%nat.

(** Two bytes: U+00A0. *)
Definition is_space2 (a b : ascii) : bool :=
  (nat_of_ascii a =? 194)%nat && (nat_of_ascii b =? 160)%nat.

(** Three bytes: U+1680, U+2000 to U+200A, U+2028, U+2029, U+202F,
    U+205F, U+3000 and U+FEFF. *)
Definition is_space3 (a b c : ascii) : bool :=
  let x := nat_of_ascii a in
  let y := nat_of_ascii b in
  let z := nat_of_ascii c in
  ((x =? 225)%nat && (y =? 154)%nat && (z =? 128)%nat) ||
  ((x =? 226)%nat && (y =? 128)%nat &&
   (((128 <=? z)%nat && (z <=? 138)%nat) || (z =? 168)%nat || (z =? 169)%nat ||
    (z =? 175)%nat)) ||
  ((x =? 226)%nat && (y =? 129)%nat && (z =? 159)%nat) ||
  ((x =? 227)%nat && (y =? 128)%nat && (z =? 128)%nat) ||
  ((x =? 239)%nat && (y =? 187)%nat && (z =? 191)%nat).

(** The bytes of [l] after the characters at its head recognised by
    [s1], [s2] and [s3] (of one, two and three bytes). *)
Fixpoint strip (s1 : ascii → bool) (s2 : ascii → ascii → bool)
    (s3 : ascii → ascii → ascii → bool) (l : list ascii) : list ascii :=
  match l with
  | [] => []
  | a :: l1 =>
      if s1 a then strip s1 s2 s3 l1 else
      match l1 with
      | [] => l
      | b :: l2 =>
          if s2 a b then strip s1 s2 s3 l2 else
          match l2 with
          | [] => l
          | c :: l3 => if s3 a b c then strip s1 s2 s3 l3 else l
          end
      end
  end.

Definition ltrim (l : list ascii) : list ascii := strip is_space is_space2 is_space3 l.

(** White space at the end: the same characters, read backwards. *)
Definition rtrim (l : list ascii) : list ascii :=
  rev (strip is_space (λ b a, is_space2 a b) (λ c b a, is_space3 a b c) (rev l)).

(** [.trim()] *)
Definition trim (s : string) : string :=
  string_of_list_ascii (rtrim (ltrim (list_ascii_of_string s))).

(** The variation selectors U+FE0E and U+FE0F of a string. *)
Fixpoint variation_selectors (l : list ascii) : nat :=
  match l with
  | [] => 0
  | a :: l1 =>
      ((match l1 with
        | b :: c :: _ =>
            if (nat_of_ascii a =? 239)%nat && (nat_of_ascii b =? 184)%nat &&
               ((nat_of_ascii c =? 142)%nat || (nat_of_ascii c =? 143)%nat)
            then 1 else 0
        | _ => 0
        end) + variation_selectors l1)%nat
  end.

(** The length [.isLength] measures: the characters of the string,
    the variation selectors left out
    ([str.length - presentationSequences.length - surrogatePairs.length]). *)
Definition chars (s : string) : nat :=
  (JS.code_points s - variation_selectors (list_ascii_of_string s))%nat.

(** [.isLength({ min, max })]; [max] is optional. *)
Definition isLength (min : nat) (max : option nat) (s : string) : bool :=
  (min <=? chars s)%nat &&
  match max with
  | Some m => (chars s <=? m)%nat
  | None => true
  end.

(** [.isIn(values)] *)
Definition isIn (values : list string) (s : string) : bool :=
  existsb (String.eqb s) values.

Definition is_hex (c : ascii) : bool :=
  let n := nat_of_ascii c in
  ((48 <=? n)%nat && (n <=? 57)%nat) ||
  ((65 <=? n)%nat && (n <=? 70)%nat) ||
  ((97 <=? n)%nat && (n <=? 102)%nat).

(** [isHexadecimal], the test of [/^(0x|0h)?[0-9A-F]+$/i]: hexadecimal
    digits, at least one, after an optional prefix [0x] or [0h]. *)
Definition hex_digits (l : list ascii) : bool :=
  negb (bool_decide (l = [])) && forallb is_hex l.

Definition isHexadecimal (s : string) : bool :=
  let l := list_ascii_of_string s in
  hex_digits l ||
  match l with
  | "0"%char :: p :: digits =>
      existsb (Ascii.eqb p) ["x"; "X"; "h"; "H"]%char && hex_digits digits
  | _ => false
  end.

(** [.isMongoId()]: [isHexadecimal(str) && str.length === 24]. A string
    of twenty-four hexadecimal digits passes, and so does a prefix [0x]
    or [0h] with twenty-two digits. *)
Definition isMongoId (s : string) : bool :=
  isHexadecimal s && (String.length s =? 24)%nat.

(** One link of a validation chain: the message is reported when the
    check fails; [.optional()] skips a field that is [undefined]. *)
Definition check (ok : bool) (msg : string) : list string :=
  if ok then [] else [msg].

Definition optional (o : option string) (f : string → list string) : list string :=
  match o with
  | Some s => f s
  | None => []
  end.

(** A required string field: express-validator reads a missing field
    as the empty string. *)
Definition required (o : option string) : string := default "" o.

End Validator.

(** ** ObjectIds *)

Definition lower_hex (c : ascii) : ascii :=
  let n := nat_of_ascii c in
  if (65 <=? n)%nat && (n <=? 70)%nat then ascii_of_nat (n + 32) else c.

Definition hex_digit (n : nat) : ascii :=
  if (n <? 10)%nat then ascii_of_nat (48 + n) else ascii_of_nat (87 + n).

Definition hex_of_byte (c : ascii) : list ascii :=
  let n := nat_of_ascii c in [hex_digit (n / 16); hex_digit (n mod 16)].

(** The hexadecimal digits of a string, in lower case. *)
Definition lower_case (s : string) : string :=
  string_of_list_ascii (lower_hex <$> list_ascii_of_string s).

(** The cast of a string to an ObjectId ([new ObjectId(s)]), as the
    schema applies it to a value assigned to a reference, to the
    conditions of a query and to the argument of [findById]. Twenty-four
    hexadecimal digits name the ObjectId whose string form has the same
    digits in lower case; a string of twelve bytes (twelve characters
    that are their own byte) is read as the twelve bytes of the
    ObjectId; for any other string the cast fails ([None]). *)
Definition ObjectId_cast (s : string) : option ObjectId :=
  let l := list_ascii_of_string s in
  if forallb Validator.is_hex l && (length l =? 24)%nat then Some (lower_case s)
  else if (length l =? 12)%nat && forallb (λ c, (nat_of_ascii c <? 128)%nat) l
  then Some (string_of_list_ascii (l ≫= hex_of_byte))
  else None.

(** ** Replies *)

(** [res.status(code).json(payload)], [res.status(400).json({ errors })]
  and [res.status(code).json({ message })]. *)
Inductive response (A : Type) : Type :=
| Json (code : Z) (payload : A)
| Errors (errs : list string)
| Message (code : Z) (message : string).
Arguments Json {A} code payload.
Arguments Errors {A} errs.
Arguments Message {A} code message.

(** The error taxonomy of the interface, read off the status code. *)
Definition is_success {A} (r : response A) : bool :=
match r with Json _ _ => true | _ => false end.

Definition is_validation_error {A} (r : response A) : bool :=
  match r with
  | Errors _ => true
  | Message 400 _ => true
  | _ => false
  end.

Definition is_authorization_error {A} (r : response A) : bool :=
match r with Message 403 _ => true | _ => false end.

Definition is_not_found {A} (r : response A) : bool :=
match r with Message 404 _ => true | _ => false end.

(** ** Accounts *)

Inductive Role : Type := RoleUser | RoleAgent | RoleAdmin.

Definition role_name (r : Role) : string :=
match r with
| RoleUser => "user"
| RoleAgent => "agent"
| RoleAdmin => "admin"
end.

Module User.
(** Modelled from the spec: models/User.js is not among the sources. Of
    an account the routes read the identifier, the role (one of [user],
    [agent], [admin]) and the active flag. *)
Record t : Type := mk {
  _id : ObjectId;
  role : Role;
  isActive : bool
}.
End User.

(** ** models/Ticket.js *)

Module Comment.
Record t : Type := mk {
  content : string;
  author : ObjectId;
  isInternal : bool;
  createdAt : Date;
  updatedAt : Date
}.
End Comment.

Module Attachment.
Record t : Type := mk {
  filename : string;
  originalName : string;
  path : string;
  size : Z;
  uploadedBy : ObjectId
}.
End Attachment.

Module Ticket.

Record t : Type := mk {
  subject : string;
  description : string;
  category : ObjectId;
  status : string;
  priority : string;
  createdBy : ObjectId;
  assignedTo : option ObjectId;
  attachments : list Attachment.t;
  comments : list Comment.t;
  upvotes : list ObjectId;
  downvotes : list ObjectId;
  tags : list string;
  isUrgent : bool;
  dueDate : option Date;
  resolvedAt : option Date;
  closedAt : option Date;
  createdAt : Date;
  updatedAt : Date
}.

(** The enumerations of the schema. *)
Definition status_enum : list string := ["open"; "in-progress"; "resolved"; "closed"].
Definition priority_enum : list string := ["low"; "medium"; "high"; "urgent"].

(** Assignments [ticket.field = value]. *)
Definition set_subject (v : string) (d : t) : t :=
  mk v (description d) (category d) (status d) (priority d) (createdBy d)
     (assignedTo d) (attachments d) (comments d) (upvotes d) (downvotes d)
     (tags d) (isUrgent d) (dueDate d) (resolvedAt d) (closedAt d)
     (createdAt d) (updatedAt d).

Definition set_description (v : string) (d : t) : t :=
  mk (subject d) v (category d) (status d) (priority d) (createdBy d)
     (assignedTo d) (attachments d) (comments d) (upvotes d) (downvotes d)
     (tags d) (isUrgent d) (dueDate d) (resolvedAt d) (closedAt d)
     (createdAt d) (updatedAt d).

Definition set_category (v : ObjectId) (d : t) : t :=
  mk (subject d) (description d) v (status d) (priority d) (createdBy d)
     (assignedTo d) (attachments d) (comments d) (upvotes d) (downvotes d)
     (tags d) (isUrgent d) (dueDate d) (resolvedAt d) (closedAt d)
     (createdAt d) (updatedAt d).

Definition set_status (v : string) (d : t) : t :=
  mk (subject d) (description d) (category d) v (priority d) (createdBy d)
     (assignedTo d) (attachments d) (comments d) (upvotes d) (downvotes d)
     (tags d) (isUrgent d) (dueDate d) (resolvedAt d) (closedAt d)
     (createdAt d) (updatedAt d).

Definition set_priority (v : string) (d : t) : t :=
  mk (subject d) (description d) (category d) (status d) v (createdBy d)
     (assignedTo d) (attachments d) (comments d) (upvotes d) (downvotes d)
     (tags d) (isUrgent d) (dueDate d) (resolvedAt d) (closedAt d)
     (createdAt d) (updatedAt d).

Definition set_assignedTo (v : option ObjectId) (d : t) : t :=
  mk (subject d) (description d) (category d) (status d) (priority d) (createdBy d)
     v (attachments d) (comments d) (upvotes d) (downvotes d)
     (tags d) (isUrgent d) (dueDate d) (resolvedAt d) (closedAt d)
     (createdAt d) (updatedAt d).

Definition set_comments (v : list Comment.t) (d : t) : t :=
  mk (subject d) (description d) (category d) (status d) (priority d) (createdBy d)
     (assignedTo d) (attachments d) v (upvotes d) (downvotes d)
     (tags d) (isUrgent d) (dueDate d) (resolvedAt d) (closedAt d)
     (createdAt d) (updatedAt d).

Definition set_upvotes (v : list ObjectId) (d : t) : t :=
  mk (subject d) (description d) (category d) (status d) (priority d) (createdBy d)
     (assignedTo d) (attachments d) (comments d) v (downvotes d)
     (tags d) (isUrgent d) (dueDate d) (resolvedAt d) (closedAt d)
     (createdAt d) (updatedAt d).

Definition set_downvotes (v : list ObjectId) (d : t) : t :=
  mk (subject d) (description d) (category d) (status d) (priority d) (createdBy d)
     (assignedTo d) (attachments d) (comments d) (upvotes d) v
     (tags d) (isUrgent d) (dueDate d) (resolvedAt d) (closedAt d)
     (createdAt d) (updatedAt d).

Definition set_resolvedAt (v : option Date) (d : t) : t :=
  mk (subject d) (description d) (category d) (status d) (priority d) (createdBy d)
     (assignedTo d) (attachments d) (comments d) (upvotes d) (downvotes d)
     (tags d) (isUrgent d) (dueDate d) v (closedAt d)
     (createdAt d) (updatedAt d).

Definition set_closedAt (v : option Date) (d : t) : t :=
  mk (subject d) (description d) (category d) (status d) (priority d) (createdBy d)
     (assignedTo d) (attachments d) (comments d) (upvotes d) (downvotes d)
     (tags d) (isUrgent d) (dueDate d) (resolvedAt d) v
     (createdAt d) (updatedAt d).

Definition set_updatedAt (v : Date) (d : t) : t :=
  mk (subject d) (description d) (category d) (status d) (priority d) (createdBy d)
     (assignedTo d) (attachments d) (comments d) (upvotes d) (downvotes d)
     (tags d) (isUrgent d) (dueDate d) (resolvedAt d) (closedAt d)
     (createdAt d) v.

(** The virtuals [voteCount] and [commentCount]. *)
Definition voteCount (d : t) : Z :=
  Z.of_nat (length (upvotes d)) - Z.of_nat (length (downvotes d)).


(** [ticketSchema.pre('save', ...)]. [modified_status] is
    [this.isModified('status')]; a [Date] object is always truthy, so
    [!this.resolvedAt] holds exactly when the field is unset. *)
Definition pre_save (now : Date) (modified_status : bool) (d : t) : t :=
  if modified_status then
    if String.eqb (status d) "resolved" && negb (bool_decide (is_Some (resolvedAt d)))
    then set_resolvedAt (Some now) d
    else if String.eqb (status d) "closed" && negb (bool_decide (is_Some (closedAt d)))
    then set_closedAt (Some now) d
    else d
  else d.

End Ticket.

#[global] Instance Comment_eq_dec : EqDecision Comment.t.
Proof. solve_decision. Defined.

#[global] Instance Attachment_eq_dec : EqDecision Attachment.t.
Proof. solve_decision. Defined.

#[global] Instance Ticket_eq_dec : EqDecision Ticket.t.
Proof. solve_decision. Defined.

(** The validators of the schema: [subject] is required (not empty)
    and has at most 200 code units ([maxlength] compares [v.length]);
    [description] is required; [status] and [priority] are in their
    [enum]; the [content] of each comment is required. The other paths
    have no validator. *)
Definition subject_valid (s : string) : bool :=
  negb (String.eqb s "") && (JS.string_length s <=? 200)%nat.

Definition description_valid (s : string) : bool := negb (String.eqb s "").

Definition comments_valid (l : list Comment.t) : bool :=
  forallb (λ c, negb (String.eqb (Comment.content c) "")) l.

(** The validation of a new document. *)
Definition Ticket_valid (d : Ticket.t) : bool :=
  subject_valid (Ticket.subject d) &&
  description_valid (Ticket.description d) &&
  Validator.isIn Ticket.status_enum (Ticket.status d) &&
  Validator.isIn Ticket.priority_enum (Ticket.priority d) &&
  comments_valid (Ticket.comments d).

(** The validation of a document loaded as [orig] and changed to [d].
    The values of [orig] were validated when they were stored, so a
    path can only fail with a value the route has assigned, and the
    comments with a comment the route has added. *)
Definition path_valid {A} `{EqDecision A} (path : Ticket.t → A) (valid : A → bool)
    (orig d : Ticket.t) : bool :=
  bool_decide (path d = path orig) || valid (path d).

Definition comments_validate (orig d : list Comment.t) : bool :=
  forallb (λ c, bool_decide (c ∈ orig) || negb (String.eqb (Comment.content c) "")) d.

Definition Ticket_validate (orig d : Ticket.t) : bool :=
  path_valid Ticket.subject subject_valid orig d &&
  path_valid Ticket.description description_valid orig d &&
  path_valid Ticket.status (Validator.isIn Ticket.status_enum) orig d &&
  path_valid Ticket.priority (Validator.isIn Ticket.priority_enum) orig d &&
  comments_validate (Ticket.comments orig) (Ticket.comments d).

(** What [ticket.save()] writes once the document is validated: the
    path [status] is modified when its value differs from the loaded
    one, which the pre-save hook reads; [timestamps: true] refreshes
    [updatedAt] of a modified document; the result replaces the stored
    document. *)
Definition Ticket_store (now : Date) (id : ObjectId) (orig d : Ticket.t)
    (db : gmap ObjectId Ticket.t) : Ticket.t * gmap ObjectId Ticket.t :=
  let d1 := Ticket.pre_save now (negb (String.eqb (Ticket.status orig) (Ticket.status d))) d in
  let d2 := if decide (d = orig) then d1 else Ticket.set_updatedAt now d1 in
  (d2, <[id := d2]> db).

(** [ticket.save()] of a document loaded as [orig] and changed to [d]:
    validation runs first, and [save()] rejects ([None]) when it fails;
    nothing is written then. *)
Definition Ticket_save (now : Date) (id : ObjectId) (orig d : Ticket.t)
    (db : gmap ObjectId Ticket.t) : option (Ticket.t * gmap ObjectId Ticket.t) :=
  if Ticket_validate orig d then Some (Ticket_store now id orig d db) else None.

(** [Ticket.findById(id)] *)
Definition Ticket_findById (db : gmap ObjectId Ticket.t) (id : ObjectId) : option Ticket.t :=
  db !! id.

(** ** The middleware ([protect], [authorize], [canAccessTicket]) *)

(** What a ticket route leaves behind: its reply and the collection. *)
Definition reply (A : Type) : Type := response A * gmap ObjectId Ticket.t.

Definition isOwner (u : User.t) (ticket : Ticket.t) : bool :=
  String.eqb (Ticket.createdBy ticket) (User._id u).

(** [ticket.assignedTo && ticket.assignedTo.toString() === req.user._id.toString()] *)
Definition isAssigned (u : User.t) (ticket : Ticket.t) : bool :=
  match Ticket.assignedTo ticket with
  | Some a => String.eqb a (User._id u)
  | None => false
  end.

Definition isAdmin (u : User.t) : bool := String.eqb (role_name (User.role u)) "admin".
Definition isAgent (u : User.t) : bool := String.eqb (role_name (User.role u)) "agent".

(** A middleware either answers the request with
    [res.status(code).json({ message })] or calls [next()] ([None]). *)
Definition middleware : Type := option (Z * string).

(** [protect], once the token is verified: [found] is the account
    [User.findById(decoded.id)] returns. The account that passes is
    [req.user]. *)
Definition protect (found : option User.t) : middleware + User.t :=
  match found with
  | None => inl (Some (401, "User not found"))
  | Some user =>
      if negb (User.isActive user) then inl (Some (401, "Account is deactivated"))
      else inr user
  end.

(** [authorize(...roles)]: [next] runs only for one of the listed roles. *)
Definition authorize (roles : list string) (u : User.t) : middleware :=
  if negb (JS.includes roles (role_name (User.role u)))
  then Some (403, "User role " +:+ role_name (User.role u) +:+
                  " is not authorized to access this route")
  else None.

(** [canAccessTicket]: owner, assigned agent, agent or admin. The
    middleware compares the [_id] of the populated creator and assignee;
    these are the stored references: the creator of a ticket cannot be
    deleted (routes/users.js) and an assignee equal to the requester
    exists. *)
Definition canAccessTicket (db : gmap ObjectId Ticket.t) (u : User.t)
    (id : ObjectId) : middleware :=
  match Ticket_findById db id with
  | None => Some (404, "Ticket not found")
  | Some ticket =>
      if isOwner u ticket || isAssigned u ticket || isAdmin u || isAgent u
      then None
      else Some (403, "Not authorized to access this ticket")
  end.

(** ** The ticket routes (setup.js, from [router.post('/')] on) *)

(** *** GET /api/tickets/:id *)

Definition get_ticket (db : gmap ObjectId Ticket.t) (u : User.t) (id : ObjectId)
    : reply Ticket.t :=
  match canAccessTicket db u id with
  | Some (code, message) => (Message code message, db)
  | None =>
      match Ticket_findById db id with
      | None => (Message 404 "Ticket not found", db)
      | Some ticket => (Json 200 ticket, db)
      end
  end.

(** *** PUT /api/tickets/:id *)

Module UpdateBody.
Record t : Type := mk {
  subject : option string;
  description : option string;
  status : option string;
  priority : option string;
  assignedTo : option string;
  category : option string
}.
End UpdateBody.

(** The sanitizers of the chain: [.trim()] rewrites the field in [req.body]. *)
Definition update_sanitize (b : UpdateBody.t) : UpdateBody.t :=
  UpdateBody.mk (Validator.trim <$> UpdateBody.subject b)
                (Validator.trim <$> UpdateBody.description b)
                (UpdateBody.status b) (UpdateBody.priority b)
                (UpdateBody.assignedTo b) (UpdateBody.category b).

(** [validationResult(req)] for the chain of the route. *)
Definition update_validationResult (b : UpdateBody.t) : list string :=
  Validator.optional (UpdateBody.subject b) (λ s,
    Validator.check (Validator.isLength 5 (Some 200%nat) (Validator.trim s))
      "Subject must be between 5 and 200 characters") ++
  Validator.optional (UpdateBody.description b) (λ s,
    Validator.check (Validator.isLength 10 None (Validator.trim s))
      "Description must be at least 10 characters") ++
  Validator.optional (UpdateBody.status b) (λ s,
    Validator.check (Validator.isIn Ticket.status_enum s) "Invalid status") ++
  Validator.optional (UpdateBody.priority b) (λ s,
    Validator.check (Validator.isIn Ticket.priority_enum s) "Invalid priority level") ++
  Validator.optional (UpdateBody.assignedTo b) (λ s,
    Validator.check (Validator.isMongoId s) "Valid user ID is required").

(** [if (v) ticket.field = v;] *)
Definition assign_if_truthy (v : option string) (set : string → Ticket.t → Ticket.t)
    (ticket : Ticket.t) : Ticket.t :=
  if JS.truthy v then set (default "" v) ticket else ticket.

(** The assignment of a string to a reference: the schema casts it to
    an ObjectId. When the cast fails the document is marked invalid,
    and [save()] will reject. *)
Definition set_reference (set : ObjectId → Ticket.t → Ticket.t) (v : string)
    (ticket : Ticket.t) : Ticket.t :=
  match ObjectId_cast v with
  | Some oid => set oid ticket
  | None => ticket
  end.

Definition cast_fails (v : option string) : bool :=
  JS.truthy v && negb (bool_decide (is_Some (ObjectId_cast (default "" v)))).

Definition put_ticket (now : Date) (db : gmap ObjectId Ticket.t) (u : User.t)
    (id : ObjectId) (body : UpdateBody.t) : reply (option Ticket.t) :=
  match canAccessTicket db u id with
  | Some (code, message) => (Message code message, db)
  | None =>
     let errors := update_validationResult body in
     if negb (bool_decide (errors = [])) then (Errors errors, db) else
     let body := update_sanitize body in
     match Ticket_findById db id with
     | None => (Message 404 "Ticket not found", db)
     | Some ticket =>
         if String.eqb (role_name (User.role u)) "user" && negb (isOwner u ticket)
         then (Message 403 "Not authorized to update this ticket", db)
         else
           let privileged := isAgent u || isAdmin u || isAssigned u ticket in
           let t1 :=
             if privileged then
               assign_if_truthy (UpdateBody.assignedTo body)
                 (set_reference (λ oid, Ticket.set_assignedTo (Some oid)))
                 (assign_if_truthy (UpdateBody.priority body) Ticket.set_priority
                    (assign_if_truthy (UpdateBody.status body) Ticket.set_status ticket))
             else ticket in
           let t2 :=
             assign_if_truthy (UpdateBody.category body) (set_reference Ticket.set_category)
               (assign_if_truthy (UpdateBody.description body) Ticket.set_description
                  (assign_if_truthy (UpdateBody.subject body) Ticket.set_subject t1)) in
           if (privileged && cast_fails (UpdateBody.assignedTo body)) ||
              cast_fails (UpdateBody.category body)
           then (Message 500 "Server error", db)
           else
             match Ticket_save now id ticket t2 db with
             | None => (Message 500 "Server error", db)
             | Some (updatedTicket, db') => (Json 200 (Ticket_findById db' id), db')
             end
     end
  end.

(** *** POST /api/tickets/:id/comments *)

Module CommentBody.
Record t : Type := mk {
  content : option string;
  isInternal : option bool
}.
End CommentBody.

(** [isInternal] is a JSON boolean here, which [.isBoolean()] accepts. *)
Definition comment_validationResult (b : CommentBody.t) : list string :=
  Validator.check
    (Validator.isLength 1 None (Validator.trim (Validator.required (CommentBody.content b))))
    "Comment content is required".

Definition post_comment (now : Date) (db : gmap ObjectId Ticket.t) (u : User.t)
    (id : ObjectId) (body : CommentBody.t) : reply (option Comment.t) :=
  match canAccessTicket db u id with
  | Some (code, message) => (Message code message, db)
  | None =>
     let errors := comment_validationResult body in
     if negb (bool_decide (errors = [])) then (Errors errors, db) else
     let content := Validator.trim (Validator.required (CommentBody.content body)) in
     let isInternal := default false (CommentBody.isInternal body) in
     match Ticket_findById db id with
     | None => (Message 404 "Ticket not found", db)
     | Some ticket =>
         if isInternal && negb (JS.includes ["agent"; "admin"] (role_name (User.role u)))
         then (Message 403 "Not authorized to add internal comments", db)
         else
           let t1 :=
             Ticket.set_comments
               (JS.push (Ticket.comments ticket)
                        (Comment.mk content (User._id u) isInternal now now))
               ticket in
           match Ticket_save now id ticket t1 db with
           | None => (Message 500 "Server error", db)
           | Some (_, db') =>
               (Json 200 (Ticket_findById db' id ≫= λ updatedTicket,
                          last (Ticket.comments updatedTicket)), db')
           end
     end
  end.

(** *** POST /api/tickets/:id/vote *)

Module VoteReply.
Record t : Type := mk {
  upvotes : Z;
  downvotes : Z;
  voteCount : Z
}.
End VoteReply.

Definition post_vote (now : Date) (db : gmap ObjectId Ticket.t) (u : User.t)
    (id : ObjectId) (voteType : option string) : reply VoteReply.t :=
  match Ticket_findById db id with
  | None => (Message 404 "Ticket not found", db)
  | Some ticket =>
      let userId := User._id u in
      let upvoteIndex := JS.findIndex (λ i, String.eqb i userId) (Ticket.upvotes ticket) in
      let downvoteIndex := JS.findIndex (λ i, String.eqb i userId) (Ticket.downvotes ticket) in
      let voted :=
        if bool_decide (voteType = Some "upvote") then
          if -1 <? upvoteIndex then
            Some (Ticket.set_upvotes (JS.splice1 upvoteIndex (Ticket.upvotes ticket)) ticket)
          else
            let t1 := Ticket.set_upvotes (JS.push (Ticket.upvotes ticket) (User._id u)) ticket in
            Some (if -1 <? downvoteIndex
                  then Ticket.set_downvotes (JS.splice1 downvoteIndex (Ticket.downvotes t1)) t1
                  else t1)
        else if bool_decide (voteType = Some "downvote") then
          if -1 <? downvoteIndex then
            Some (Ticket.set_downvotes (JS.splice1 downvoteIndex (Ticket.downvotes ticket)) ticket)
          else
            let t1 := Ticket.set_downvotes (JS.push (Ticket.downvotes ticket) (User._id u)) ticket in
            Some (if -1 <? upvoteIndex
                  then Ticket.set_upvotes (JS.splice1 upvoteIndex (Ticket.upvotes t1)) t1
                  else t1)
        else None in
      match voted with
      | None => (Message 400 "Invalid vote type", db)
      | Some t1 =>
          match Ticket_save now id ticket t1 db with
          | None => (Message 500 "Server error", db)
          | Some (saved, db') =>
              (Json 200 (VoteReply.mk (Z.of_nat (length (Ticket.upvotes saved)))
                                      (Z.of_nat (length (Ticket.downvotes saved)))
                                      (Ticket.voteCount saved)), db')
          end
      end
  end.

(** *** DELETE /api/tickets/:id *)

Definition delete_ticket (db : gmap ObjectId Ticket.t) (u : User.t) (id : ObjectId)
    : reply unit :=
  match authorize ["admin"] u with
  | Some (code, message) => (Message code message, db)
  | None =>
      match Ticket_findById db id with
      | None => (Message 404 "Ticket not found", db)
      | Some ticket => (Json 200 (), delete id db)
      end
  end.

(** ** Regular expressions of queries

    [$regex] is evaluated by the database (PCRE). The fragment embedded
    here is the one a plain name or search word produces: literal
    characters, [.], a leading [^] and a trailing [$]. [parse] is [None]
    on a pattern with any other metacharacter, and a route given such a
    pattern has no result in the model. *)

Module Regex.

Inductive atom : Type :=
  | Lit (c : ascii)
  | Any.

Record t : Type := mk {
  bol : bool;
  atoms : list atom;
  eol : bool
}.

Definition is_meta (c : ascii) : bool :=
  existsb (Ascii.eqb c) (list_ascii_of_string "\^$.|?*+()[]{}").

Definition parse_atom (c : ascii) : option atom :=
  if Ascii.eqb c "." then Some Any
  else if is_meta c then None
  else Some (Lit c).

Definition parse (pattern : string) : option t :=
  let l := list_ascii_of_string pattern in
  let '(b, l1) :=
    match l with
    | "^"%char :: r => (true, r)
    | _ => (false, l)
    end in
  let '(e, l2) :=
    match rev l1 with
    | "$"%char :: r => (true, rev r)
    | _ => (false, l1)
    end in
  ats ← mapM parse_atom l2;
  Some (mk b ats e).

(** Case folding of the option [i], on ASCII letters. *)
Definition fold_case (c : ascii) : ascii :=
  let n := nat_of_ascii c in
  if (97 <=? n)%nat && (n <=? 122)%nat then ascii_of_nat (n - 32) else c.

Definition newline : ascii := "010"%char.

Definition atom_matches (ci : bool) (a : atom) (c : ascii) : bool :=
  match a with
  | Any => negb (Ascii.eqb c newline)
  | Lit x => if ci then Ascii.eqb (fold_case x) (fold_case c) else Ascii.eqb x c
  end.

(** The atoms against a prefix of the subject; the remainder is returned. *)
Fixpoint match_here (ci : bool) (ats : list atom) (s : list ascii)
    : option (list ascii) :=
  match ats with
  | [] => Some s
  | a :: ats' =>
      match s with
      | c :: s' => if atom_matches ci a c then match_here ci ats' s' else None
      | [] => None
      end
  end.

(** [$] holds at the end of the subject and before a final newline. *)
Definition at_end (e : bool) (rest : list ascii) : bool :=
  if e then
    match rest with
    | [] => true
    | [c] => Ascii.eqb c newline
    | _ => false
    end
  else true.

Definition match_at (ci : bool) (r : t) (s : list ascii) : bool :=
  match match_here ci (atoms r) s with
  | Some rest => at_end (eol r) rest
  | None => false
  end.

Fixpoint search (ci : bool) (r : t) (s : list ascii) : bool :=
  match_at ci r s ||
  match s with
  | [] => false
  | _ :: s' => search ci r s'
  end.

Definition test (ci : bool) (r : t) (s : string) : bool :=
  let l := list_ascii_of_string s in
  if bol r then match_at ci r l else search ci r l.

End Regex.

(** *** GET /api/tickets *)

Module ListQuery.
(** [req.query]; [page] and [limit] are taken as numbers. *)
Record t : Type := mk {
  page : option Z;
  limit : option Z;
  status : option string;
  priority : option string;
  category : option string;
  search : option string;
  sortBy : option string;
  sortOrder : option string;
  assignedTo : option string;
  createdBy : option string
}.
End ListQuery.

Module Filter.
(** The query object handed to [Ticket.find]. *)
Record t : Type := mk {
  createdBy : option ObjectId;
  assignedTo : option ObjectId;
  status : option string;
  priority : option string;
  category : option ObjectId;
  or_regex : option string
}.

Definition empty : t := mk None None None None None None.

Definition set_createdBy (v : ObjectId) (q : t) : t :=
  mk (Some v) (assignedTo q) (status q) (priority q) (category q) (or_regex q).
Definition set_assignedTo (v : ObjectId) (q : t) : t :=
  mk (createdBy q) (Some v) (status q) (priority q) (category q) (or_regex q).
Definition set_status (v : string) (q : t) : t :=
  mk (createdBy q) (assignedTo q) (Some v) (priority q) (category q) (or_regex q).
Definition set_priority (v : string) (q : t) : t :=
  mk (createdBy q) (assignedTo q) (status q) (Some v) (category q) (or_regex q).
Definition set_category (v : ObjectId) (q : t) : t :=
  mk (createdBy q) (assignedTo q) (status q) (priority q) (Some v) (or_regex q).
Definition set_or_regex (v : string) (q : t) : t :=
  mk (createdBy q) (assignedTo q) (status q) (priority q) (category q) (Some v).

(** An equality condition of the query on a field of the document. *)
Definition eq_cond (cond : option string) (field : option string) : bool :=
  match cond with
  | None => true
  | Some v => bool_decide (field = Some v)
  end.

(** The conditions on the references of the schema are cast to
    ObjectIds before the database sees the query; [find] rejects when a
    cast fails ([None]). *)
Definition cast_cond (cond : option string) : option (option ObjectId) :=
  match cond with
  | None => Some None
  | Some v => Some <$> ObjectId_cast v
  end.

Definition cast (q : t) : option t :=
  c ← cast_cond (createdBy q);
  a ← cast_cond (assignedTo q);
  g ← cast_cond (category q);
  Some (mk c a (status q) (priority q) g (or_regex q)).

(** The predicate a query selects documents with; the two [$regex]
    conditions under [$or] carry [$options: 'i']. The pattern is matched
    byte by byte: on text and patterns of ASCII characters this is what
    the database does. *)
Definition compile (q : t) : option (Ticket.t → bool) :=
  re ← match or_regex q with
       | None => Some None
       | Some p => Some <$> Regex.parse p
       end;
  Some (λ d,
    eq_cond (createdBy q) (Some (Ticket.createdBy d)) &&
    eq_cond (assignedTo q) (Ticket.assignedTo d) &&
    eq_cond (status q) (Some (Ticket.status d)) &&
    eq_cond (priority q) (Some (Ticket.priority d)) &&
    eq_cond (category q) (Some (Ticket.category d)) &&
    match re with
    | None => true
    | Some r => Regex.test true r (Ticket.subject d) || Regex.test true r (Ticket.description d)
    end).
End Filter.

(** [if (v) query.field = v;] *)
Definition filter_if_truthy (v : option string) (set : string → Filter.t → Filter.t)
    (query : Filter.t) : Filter.t :=
  if JS.truthy v then set (default "" v) query else query.

(** The query built by the route: role-based filtering, then the
    filters of the request, then the search. *)
Definition list_query (u : User.t) (q : ListQuery.t) : Filter.t :=
  let query := Filter.empty in
  let query :=
    if String.eqb (role_name (User.role u)) "user" then
      Filter.set_createdBy (User._id u) query
    else if String.eqb (role_name (User.role u)) "agent" then
      if bool_decide (ListQuery.assignedTo q = Some "me")
      then Filter.set_assignedTo (User._id u) query
      else query
    else query in
  let query := filter_if_truthy (ListQuery.status q) Filter.set_status query in
  let query := filter_if_truthy (ListQuery.priority q) Filter.set_priority query in
  let query := filter_if_truthy (ListQuery.category q) Filter.set_category query in
  let query := filter_if_truthy (ListQuery.createdBy q) Filter.set_createdBy query in
  filter_if_truthy (ListQuery.search q) Filter.set_or_regex query.

(** Values a sort compares, in the order of BSON types. *)
Inductive bson : Type :=
  | BNull
  | BString (s : string)
  | BObjectId (s : string)
  | BBool (b : bool)
  | BDate (z : Z).

Definition bson_rank (v : bson) : Z :=
  match v with
  | BNull => 0
  | BString _ => 1
  | BObjectId _ => 2
  | BBool _ => 3
  | BDate _ => 4
  end.

Definition bson_leb (a b : bson) : bool :=
  match a, b with
  | BString x, BString y => String.leb x y
  | BObjectId x, BObjectId y => String.leb x y
  | BBool x, BBool y => implb x y
  | BDate x, BDate y => x <=? y
  | _, _ => bson_rank a <=? bson_rank b
  end.

Definition bson_of_date (o : option Date) : bson :=
  match o with Some z => BDate z | None => BNull end.

(** The value of a scalar path of a ticket; a path the schema does not
    have reads as a missing field. Array paths, dotted paths, the empty
    path and the paths that start with [$] are not covered ([None]). *)
Definition ticket_field (path : string) (doc : ObjectId * Ticket.t) : option bson :=
  let d := doc.2 in
  if String.eqb path "_id" then Some (BObjectId doc.1)
  else if String.eqb path "subject" then Some (BString (Ticket.subject d))
  else if String.eqb path "description" then Some (BString (Ticket.description d))
  else if String.eqb path "category" then Some (BObjectId (Ticket.category d))
  else if String.eqb path "status" then Some (BString (Ticket.status d))
  else if String.eqb path "priority" then Some (BString (Ticket.priority d))
  else if String.eqb path "createdBy" then Some (BObjectId (Ticket.createdBy d))
  else if String.eqb path "assignedTo" then
    Some (match Ticket.assignedTo d with Some a => BObjectId a | None => BNull end)
  else if String.eqb path "isUrgent" then Some (BBool (Ticket.isUrgent d))
  else if String.eqb path "dueDate" then Some (bson_of_date (Ticket.dueDate d))
  else if String.eqb path "resolvedAt" then Some (bson_of_date (Ticket.resolvedAt d))
  else if String.eqb path "closedAt" then Some (bson_of_date (Ticket.closedAt d))
  else if String.eqb path "createdAt" then Some (BDate (Ticket.createdAt d))
  else if String.eqb path "updatedAt" then Some (BDate (Ticket.updatedAt d))
  else if JS.includes [""; "attachments"; "comments"; "upvotes"; "downvotes"; "tags"] path
       || existsb (Ascii.eqb ".") (list_ascii_of_string path)
       || match list_ascii_of_string path with
          | "$"%char :: _ => true
          | _ => false
          end
  then None
  else Some BNull.

(** [.sort({ [path]: dir })] with [dir] 1 or -1. *)
Definition sort_le (path : string) (dir : Z) (a b : ObjectId * Ticket.t) : Prop :=
  match ticket_field path a, ticket_field path b with
  | Some x, Some y => if dir =? -1 then bson_leb y x = true else bson_leb x y = true
  | _, _ => True
  end.

#[global] Instance sort_le_dec path dir a b : Decision (sort_le path dir a b).
Proof.
  unfold sort_le.
  destruct (ticket_field path a), (ticket_field path b); try apply _.
  destruct (dir =? -1); apply _.
Defined.

Definition sort_docs (path : string) (dir : Z) (docs : list (ObjectId * Ticket.t))
    : option (list (ObjectId * Ticket.t)) :=
  if forallb (λ doc, bool_decide (is_Some (ticket_field path doc))) docs
  then Some (merge_sort (sort_le path dir) docs)
  else None.

Module ListReply.
Record t : Type := mk {
  tickets : list (ObjectId * Ticket.t);
  totalPages : option Z;
  currentPage : Z;
  total : Z
}.
End ListReply.

(** [Math.ceil(total / limit)]; not a finite number when [limit] is 0. *)
Definition ceil_div (total limit : Z) : option Z :=
  if limit =? 0 then None else Some (- ((- total) / limit)).

(** [Ticket.find(query).sort(..).limit(limit * 1).skip((page - 1) * limit)]:
    the query is cast, and the route answers 500 when a condition cannot
    be; the database sorts, skips, then limits; it refuses a negative
    skip, reads a limit of 0 as no limit and a negative limit as its
    absolute value. The result is [None] for a request outside the
    fragment embedded here: a search pattern that [Regex.parse] does not
    read, a sort path that [ticket_field] does not cover. *)
Definition get_tickets (db : gmap ObjectId Ticket.t) (u : User.t) (q : ListQuery.t)
    : option (reply ListReply.t) :=
  let page := default 1 (ListQuery.page q) in
  let limit := default 10 (ListQuery.limit q) in
  let sortBy := default "createdAt" (ListQuery.sortBy q) in
  let sortOrder := default "desc" (ListQuery.sortOrder q) in
  let query := list_query u q in
  let dir := if String.eqb sortOrder "desc" then -1 else 1 in
  match Filter.cast query with
  | None => Some (Message 500 "Server error", db)
  | Some query =>
  selects ← Filter.compile query;
  let found := filter (λ doc, Is_true (selects doc.2)) (map_to_list db) in
  sorted ← sort_docs sortBy dir found;
  let skip := (page - 1) * limit in
  if skip <? 0 then Some (Message 500 "Server error", db) else
  let skipped := drop (Z.to_nat skip) sorted in
  let tickets :=
    if limit =? 0 then skipped else take (Z.to_nat (Z.abs limit)) skipped in
  let total := Z.of_nat (length found) in
  Some (Json 200 (ListReply.mk tickets (ceil_div total limit) page total), db)
  end.

(** ** Categories *)

Module Category.
(** Modelled from the spec: models/Category.js is not among the sources.
    A category has a name, a description, a colour (six hexadecimal
    digits after [#]), an active flag, the reference to its creator and
    the two timestamps. *)
Record t : Type := mk {
  name : string;
  description : option string;
  color : string;
  isActive : bool;
  createdBy : ObjectId;
  createdAt : Date;
  updatedAt : Date
}.
End Category.

(** *** POST /api/categories (routes/categories.js) *)

Module CategoryBody.
Record t : Type := mk {
  name : option string;
  description : option string;
  color : option string
}.
End CategoryBody.

(** [.matches(/^#[0-9A-F]{6}$/i)] *)
Definition is_hex_color (s : string) : bool :=
  match list_ascii_of_string s with
  | "#"%char :: digits => forallb Validator.is_hex digits && (length digits =? 6)%nat
  | _ => false
  end.

Definition category_validationResult (b : CategoryBody.t) : list string :=
  Validator.check
    (Validator.isLength 2 (Some 50%nat)
       (Validator.trim (Validator.required (CategoryBody.name b))))
    "Category name must be between 2 and 50 characters" ++
  Validator.optional (CategoryBody.description b) (λ s,
    Validator.check (Validator.isLength 0 (Some 200%nat) (Validator.trim s))
      "Description cannot be more than 200 characters") ++
  Validator.optional (CategoryBody.color b) (λ s,
    Validator.check (is_hex_color s) "Please enter a valid hex color").

(** [Category.findOne({ name: { $regex: re } })] *)
Definition Category_findOne_name (ci : bool) (re : Regex.t)
    (cats : gmap ObjectId Category.t) : option (ObjectId * Category.t) :=
  List.find (λ doc, Regex.test ci re (Category.name doc.2)) (map_to_list cats).

(** [newId] is the identifier the driver gives the created document (the
    insertion of an identifier already in use is refused by the
    database). The result is [None] when the name makes a pattern
    outside the embedded fragment of regular expressions. *)
Definition post_category (now : Date) (newId : ObjectId)
    (cats : gmap ObjectId Category.t) (u : User.t) (body : CategoryBody.t)
    : option (response Category.t * gmap ObjectId Category.t) :=
  match authorize ["admin"] u with
  | Some (code, message) => Some (Message code message, cats)
  | None =>
      let errors := category_validationResult body in
      if negb (bool_decide (errors = [])) then Some (Errors errors, cats) else
      let name := Validator.trim (Validator.required (CategoryBody.name body)) in
      let description := Validator.trim <$> CategoryBody.description body in
      let color := CategoryBody.color body in
      re ← Regex.parse ("^" +:+ name +:+ "$");
      match Category_findOne_name true re cats with
      | Some categoryExists => Some (Message 400 "Category already exists", cats)
      | None =>
          let category :=
            Category.mk name description
              (if JS.truthy color then default "" color else "#3B82F6")
              true (User._id u) now now in
          if bool_decide (is_Some (cats !! newId))
          then Some (Message 500 "Server error", cats)
          else Some (Json 201 category, <[newId := category]> cats)
      end
  end.

(** *** POST /api/tickets

    [files] are the descriptors the upload middleware leaves in
    [req.files]. *)

Module CreateBody.
Record t : Type := mk {
  subject : option string;
  description : option string;
  category : option string;
  priority : option string;
  tags : option string;
  files : list Attachment.t
}.
End CreateBody.

Definition create_validationResult (b : CreateBody.t) : list string :=
  Validator.check
    (Validator.isLength 5 (Some 200%nat)
       (Validator.trim (Validator.required (CreateBody.subject b))))
    "Subject must be between 5 and 200 characters" ++
  Validator.check
    (Validator.isLength 10 None
       (Validator.trim (Validator.required (CreateBody.description b))))
    "Description must be at least 10 characters" ++
  Validator.check (Validator.isMongoId (Validator.required (CreateBody.category b)))
    "Valid category ID is required" ++
  Validator.optional (CreateBody.priority b) (λ s,
    Validator.check (Validator.isIn Ticket.priority_enum s) "Invalid priority level").

(** [s.split(',')] *)
Fixpoint split_comma (cur : list ascii) (l : list ascii) : list string :=
  match l with
  | [] => [string_of_list_ascii (rev cur)]
  | c :: l' =>
      if Ascii.eqb c "," then string_of_list_ascii (rev cur) :: split_comma [] l'
      else split_comma (c :: cur) l'
  end.

(** The document [Ticket.create] builds: the fields given by the route
    and the defaults of the schema for the others. *)
Definition Ticket_new (now : Date) (subject description : string) (category : ObjectId)
    (priority : string) (createdBy : ObjectId) (tags : list string)
    (attachments : list Attachment.t) : Ticket.t :=
  Ticket.mk subject description category "open" priority createdBy None
            attachments [] [] [] tags false None None None now now.

(** [newId] is the identifier the driver gives the created document (the
    insertion of an identifier already in use is refused by the database);
    [uploadedBy] of each attachment is the requester. [findById] casts
    the category, and the route answers 500 for the one form that
    [isMongoId] lets through and the cast refuses (the prefix [0x] or
    [0h]); [Ticket.create] validates the document before it inserts
    it. The pre-save hook leaves a document of status [open] as it
    is. *)
Definition post_ticket (now : Date) (newId : ObjectId)
    (cats : gmap ObjectId Category.t) (db : gmap ObjectId Ticket.t) (u : User.t)
    (body : CreateBody.t) : reply (option Ticket.t) :=
  let errors := create_validationResult body in
  if negb (bool_decide (errors = [])) then (Errors errors, db) else
  let subject := Validator.trim (Validator.required (CreateBody.subject body)) in
  let description := Validator.trim (Validator.required (CreateBody.description body)) in
  let category := Validator.required (CreateBody.category body) in
  let priority := CreateBody.priority body in
  let tags := CreateBody.tags body in
  match ObjectId_cast category with
  | None => (Message 500 "Server error", db)
  | Some category =>
      match cats !! category with
      | None => (Message 400 "Invalid category", db)
      | Some categoryExists =>
          if negb (Category.isActive categoryExists)
          then (Message 400 "Invalid category", db)
          else
            let attachments :=
              (λ file, Attachment.mk (Attachment.filename file)
                         (Attachment.originalName file)
                         (Attachment.path file) (Attachment.size file) (User._id u))
                <$> CreateBody.files body in
            let ticket :=
              Ticket_new now subject description category
                (if JS.truthy priority then default "" priority else "medium")
                (User._id u)
                (if JS.truthy tags
                 then Validator.trim <$>
                        split_comma [] (list_ascii_of_string (default "" tags))
                 else [])
                attachments in
            if negb (Ticket_valid ticket) || bool_decide (is_Some (db !! newId))
            then (Message 500 "Server error", db)
            else
              let db' := <[newId := ticket]> db in
              (Json 201 (Ticket_findById db' newId), db')
      end
  end.

(** ** The service as a transition system

    A request addressed to one ticket, with what the environment
    contributes to it (the clock). *)
Inductive ticket_request : Type :=
  | Update (now : Date) (u : User.t) (body : UpdateBody.t)
  | AddComment (now : Date) (u : User.t) (body : CommentBody.t)
  | Vote (now : Date) (u : User.t) (voteType : option string).

(** A request that writes to the tickets collection. *)
Inductive request : Type :=
  | Create (now : Date) (newId : ObjectId) (u : User.t) (body : CreateBody.t)
  | OnTicket (id : ObjectId) (r : ticket_request)
  | Delete (u : User.t) (id : ObjectId).

Definition ticket_step (db : gmap ObjectId Ticket.t) (id : ObjectId)
    (r : ticket_request) : gmap ObjectId Ticket.t :=
  match r with
  | Update now u body => (put_ticket now db u id body).2
  | AddComment now u body => (post_comment now db u id body).2
  | Vote now u voteType => (post_vote now db u id voteType).2
  end.

(** The tickets collection after a request ([cats] is the categories
    collection, which the ticket routes only read). *)
Definition step (cats : gmap ObjectId Category.t) (db : gmap ObjectId Ticket.t)
    (r : request) : gmap ObjectId Ticket.t :=
  match r with
  | Create now newId u body => (post_ticket now newId cats db u body).2
  | OnTicket id r => ticket_step db id r
  | Delete u id => (delete_ticket db u id).2
  end.

Definition run (cats : gmap ObjectId Category.t) (db : gmap ObjectId Ticket.t)
    (rs : list request) : gmap ObjectId Ticket.t :=
  foldl (step cats) db rs.

(** The collections the service can reach from an empty one. *)
Definition reachable (cats : gmap ObjectId Category.t) (db : gmap ObjectId Ticket.t) : Prop :=
  ∃ rs, db = run cats ∅ rs.

(** ** Vocabulary of the properties *)

(** The vote arrays as the vote route keeps them: each is free of
    duplicates and no id is in both. *)
Definition votes_wf (d : Ticket.t) : Prop :=
  NoDup (Ticket.upvotes d) ∧ NoDup (Ticket.downvotes d) ∧
  ∀ x, x ∈ Ticket.upvotes d → x ∉ Ticket.downvotes d.

(** What a request to a ticket may do to the fields no route assigns:
    the creator stays, a stamp that is set stays, the vote arrays keep
    their shape. *)
Definition evolves (d d' : Ticket.t) : Prop :=
  Ticket.createdBy d' = Ticket.createdBy d ∧
  (∀ x, Ticket.resolvedAt d = Some x → Ticket.resolvedAt d' = Some x) ∧
  (∀ x, Ticket.closedAt d = Some x → Ticket.closedAt d' = Some x) ∧
  (votes_wf d → votes_wf d').

(** A request either leaves the collection as it is or replaces the
    document it addresses by one that [evolves] from it. *)
Definition effect (db : gmap ObjectId Ticket.t) (id : ObjectId)
    (db' : gmap ObjectId Ticket.t) : Prop :=
  db' = db ∨ ∃ orig d', db !! id = Some orig ∧ db' = <[id := d']> db ∧ evolves orig d'.

(** A sequence of requests to tickets, each with the ticket it addresses. *)
Definition ticket_run (db : gmap ObjectId Ticket.t)
    (rs : list (ObjectId * ticket_request)) : gmap ObjectId Ticket.t :=
  foldl (λ db r, ticket_step db r.1 r.2) db rs.

Definition all_votes_wf (db : gmap ObjectId Ticket.t) : Prop :=
  map_Forall (λ _ d, votes_wf d) db.

(** The string form of an ObjectId: twenty-four hexadecimal digits in
    lower case, which the cast leaves as they are. *)
Definition is_ObjectId (s : string) : Prop := ObjectId_cast s = Some s.

(** A reference in the body of a request that the schema can cast: the
    field is missing or empty (the route then skips it), or it is a
    string [ObjectId_cast] reads (twenty-four hexadecimal digits, or
    twelve characters of one byte each). *)
Definition castable (v : option string) : Prop :=
  ∀ s, v = Some s → s = "" ∨ is_Some (ObjectId_cast s).

(** Read access: the creator, the assignee, an admin or an agent. *)
Definition can_read (u : User.t) (d : Ticket.t) : Prop :=
  Ticket.createdBy d = User._id u ∨ Ticket.assignedTo d = Some (User._id u) ∨
  User.role u = RoleAdmin ∨ User.role u = RoleAgent.

(** The array of a vote direction ([true] for up) and its [voteType]. *)
Definition voters (up : bool) (d : Ticket.t) : list ObjectId :=
  if up then Ticket.upvotes d else Ticket.downvotes d.

Definition vote_name (up : bool) : string := if up then "upvote" else "downvote".

(** What the vote route does to the array of the requested direction. *)
Definition toggle (uid : ObjectId) (l : list ObjectId) : list ObjectId :=
  let i := JS.findIndex (λ i, String.eqb i uid) l in
  if -1 <? i then JS.splice1 i l else JS.push l uid.

(** Equality of two names up to the case of ASCII letters. *)
Definition same_name_ignoring_case (a b : string) : bool :=
  bool_decide (Regex.fold_case <$> list_ascii_of_string a =
               Regex.fold_case <$> list_ascii_of_string b).

(** The document the update route hands to [save], for a body that
    went through the sanitizers. *)
Definition updated (u : User.t) (ticket : Ticket.t) (body : UpdateBody.t) : Ticket.t :=
  assign_if_truthy (UpdateBody.category body) (set_reference Ticket.set_category)
    (assign_if_truthy (UpdateBody.description body) Ticket.set_description
       (assign_if_truthy (UpdateBody.subject body) Ticket.set_subject
          (if isAgent u || isAdmin u || isAssigned u ticket then
             assign_if_truthy (UpdateBody.assignedTo body)
               (set_reference (λ oid, Ticket.set_assignedTo (Some oid)))
               (assign_if_truthy (UpdateBody.priority body) Ticket.set_priority
                  (assign_if_truthy (UpdateBody.status body) Ticket.set_status ticket))
           else ticket))).

(** ** Sample data *)

Module Sample.

Definition alice : User.t := User.mk "aaaaaaaaaaaaaaaaaaaaaaa1" RoleUser true.
Definition dave : User.t := User.mk "ddddddddddddddddddddddd4" RoleUser true.
Definition bob : User.t := User.mk "bbbbbbbbbbbbbbbbbbbbbbb2" RoleAgent true.
Definition carol : User.t := User.mk "ccccccccccccccccccccccc3" RoleAdmin true.

Definition bugs : ObjectId := "c0c0c0c0c0c0c0c0c0c0c0c0".

Definition cats : gmap ObjectId Category.t :=
  {[ bugs := Category.mk "Bug Report" (Some "Software bugs and issues") "#EF4444" true
                         (User._id carol) 0 0 ]}.

Definition printer : CreateBody.t :=
  CreateBody.mk (Some "Printer is broken") (Some "It does not print at all")
                (Some bugs) None None [].

Definition t1 : ObjectId := "0000000000000000000000f1".
Definition t2 : ObjectId := "0000000000000000000000f2".

(** Alice files a ticket. *)
Definition filed : list request := [Create 100 t1 alice printer].

Definition db1 : gmap ObjectId Ticket.t := run cats ∅ filed.

Definition ticket1 : Ticket.t :=
  Ticket.mk "Printer is broken" "It does not print at all" bugs "open" "medium"
            (User._id alice) None [] [] [] [] [] false None None None 100 100.

(** The same ticket once an agent has assigned it to Dave. *)
Definition assign_to (u : User.t) : UpdateBody.t :=
  UpdateBody.mk None None None None (Some (User._id u)) None.

Definition db1_dave : gmap ObjectId Ticket.t :=
  run cats ∅ (filed ++ [OnTicket t1 (Update 110 bob (assign_to dave))]).

Definition ticket1_dave : Ticket.t :=
  Ticket.mk "Printer is broken" "It does not print at all" bugs "open" "medium"
            (User._id alice) (Some (User._id dave)) [] [] [] [] [] false
            None None None 100 110.

(** ... once Bob has been assigned the ticket. *)
Definition db1_bob : gmap ObjectId Ticket.t :=
  run cats ∅ (filed ++ [OnTicket t1 (Update 110 carol (assign_to bob))]).

Definition ticket1_bob : Ticket.t :=
  Ticket.mk "Printer is broken" "It does not print at all" bugs "open" "medium"
            (User._id alice) (Some (User._id bob)) [] [] [] [] [] false
            None None None 100 110.

(** ... once Alice has voted it down. *)
Definition db1_down : gmap ObjectId Ticket.t :=
  run cats ∅ (filed ++ [OnTicket t1 (Vote 120 alice (Some "downvote"))]).

Definition ticket1_down : Ticket.t :=
  Ticket.mk "Printer is broken" "It does not print at all" bugs "open" "medium"
            (User._id alice) None [] [] [] [User._id alice] [] false
            None None None 100 120.

(** ... once Bob has voted it up. *)
Definition db1_up : gmap ObjectId Ticket.t :=
  run cats ∅ (filed ++ [OnTicket t1 (Vote 120 bob (Some "upvote"))]).

Definition ticket1_up : Ticket.t :=
  Ticket.mk "Printer is broken" "It does not print at all" bugs "open" "medium"
            (User._id alice) None [] [] [User._id bob] [] [] false
            None None None 100 120.

(** ... with a second ticket, filed by Dave. *)
Definition scanner : CreateBody.t :=
  CreateBody.mk (Some "Scanner jams") (Some "Paper jams on every scan")
                (Some bugs) (Some "high") None [].

Definition db2 : gmap ObjectId Ticket.t :=
  run cats ∅ (filed ++ [Create 200 t2 dave scanner]).

Definition ticket2 : Ticket.t :=
  Ticket.mk "Scanner jams" "Paper jams on every scan" bugs "open" "high"
            (User._id dave) None [] [] [] [] [] false None None None 200 200.

(** ... after a few votes: Alice down, Bob up, Dave up, Bob down. *)
Definition db1_voted : gmap ObjectId Ticket.t :=
  run cats ∅ (filed ++ [OnTicket t1 (Vote 120 alice (Some "downvote"));
                        OnTicket t1 (Vote 121 bob (Some "upvote"));
                        OnTicket t1 (Vote 122 dave (Some "upvote"));
                        OnTicket t1 (Vote 123 bob (Some "downvote"))]).

Definition ticket1_voted : Ticket.t :=
  Ticket.mk "Printer is broken" "It does not print at all" bugs "open" "medium"
            (User._id alice) None [] [] [User._id dave] [User._id alice; User._id bob]
            [] false None None None 100 123.

(** ... resolved by Bob; then reopened, resolved, closed and resolved
    again. *)
Definition set_status (s : string) : UpdateBody.t :=
  UpdateBody.mk None None (Some s) None None None.

Definition db1_resolved : gmap ObjectId Ticket.t :=
  run cats ∅ (filed ++ [OnTicket t1 (Update 300 bob (set_status "resolved"))]).

Definition ticket1_resolved : Ticket.t :=
  Ticket.mk "Printer is broken" "It does not print at all" bugs "resolved" "medium"
            (User._id alice) None [] [] [] [] [] false
            None (Some 300) None 100 300.

Definition cycle : list (ObjectId * ticket_request) :=
  [(t1, Update 310 bob (set_status "open"));
   (t1, Vote 315 dave (Some "upvote"));
   (t1, Update 320 bob (set_status "resolved"));
   (t1, Update 330 carol (set_status "closed"));
   (t1, Update 340 bob (set_status "resolved"))].

(** Bodies of updates and of comments. *)
Definition invalid_status : UpdateBody.t :=
  UpdateBody.mk (Some "Printer on floor 3") None (Some "done") None None None.

Definition bad_category : UpdateBody.t :=
  UpdateBody.mk (Some "Printer on floor 3") None None None None (Some "hardware").

Definition resolve_bad_category : UpdateBody.t :=
  UpdateBody.mk None None (Some "resolved") None None (Some "hardware").

(** An assignee that [isMongoId] lets through and the schema cannot
    cast: the prefix [0x] and twenty-two digits. *)
Definition resolve_prefixed_assignee : UpdateBody.t :=
  UpdateBody.mk None None (Some "resolved") None (Some "0xaaaaaaaaaaaaaaaaaaaaaa") None.

Definition owner_edit : UpdateBody.t :=
  UpdateBody.mk (Some "  Printer on floor 3  ") (Some "It prints blank pages only")
                (Some "closed") (Some "urgent") (Some (User._id alice)) None.

Definition triage : UpdateBody.t :=
  UpdateBody.mk None None (Some "in-progress") (Some "high") (Some (User._id carol)) None.



(** The list of tickets asked with [createdBy] set to Alice's id. *)
Definition created_by_alice : ListQuery.t :=
  ListQuery.mk None None None None None None None None None (Some (User._id alice)).

(** A collection of categories with the single name [abc], and the
    identifier of the next category. *)
Definition cats_abc : gmap ObjectId Category.t :=
  {[ bugs := Category.mk "abc" None "#3B82F6" true (User._id carol) 0 0 ]}.

Definition next_category : ObjectId := "c1c1c1c1c1c1c1c1c1c1c1c1".

End Sample.

(** ** The other category routes (routes/categories.js) *)

#[global] Instance Category_eq_dec : EqDecision Category.t.
Proof. solve_decision. Defined.

Definition Category_set_updatedAt (v : Date) (c : Category.t) : Category.t :=
  Category.mk (Category.name c) (Category.description c) (Category.color c)
              (Category.isActive c) (Category.createdBy c) (Category.createdAt c) v.

(** [category.save()] of a document loaded as [orig] and changed to [c]:
    the timestamps of the spec refresh [updatedAt] of a modified
    document; the result replaces the stored document. *)
Definition Category_save (now : Date) (id : ObjectId) (orig c : Category.t)
    (cats : gmap ObjectId Category.t) : Category.t * gmap ObjectId Category.t :=
  let c' := if decide (c = orig) then c else Category_set_updatedAt now c in
  (c', <[id := c']> cats).

(** *** GET /api/categories

    [active] is the query parameter: when present, the categories asked
    for are those whose flag equals [active === 'true']. The database
    sorts the names as byte strings. *)
Definition category_selected (active : option string) (doc : ObjectId * Category.t) : bool :=
  match active with
  | None => true
  | Some a => bool_decide (Category.isActive doc.2 = String.eqb a "true")
  end.

Definition name_le (a b : ObjectId * Category.t) : Prop :=
  String.leb (Category.name a.2) (Category.name b.2) = true.

#[global] Instance name_le_dec a b : Decision (name_le a b).
Proof. unfold name_le. apply _. Defined.

Definition get_categories (cats : gmap ObjectId Category.t) (active : option string)
    : response (list (ObjectId * Category.t)) :=
  Json 200 (merge_sort name_le
              (filter (λ doc, Is_true (category_selected active doc)) (map_to_list cats))).

(** *** PUT /api/categories/:id *)

Module CategoryUpdate.
Record t : Type := mk {
  name : option string;
  description : option string;
  color : option string;
  isActive : option bool
}.
End CategoryUpdate.

Definition category_update_validationResult (b : CategoryUpdate.t) : list string :=
  Validator.optional (CategoryUpdate.name b) (λ s,
    Validator.check (Validator.isLength 2 (Some 50%nat) (Validator.trim s))
      "Category name must be between 2 and 50 characters") ++
  Validator.optional (CategoryUpdate.description b) (λ s,
    Validator.check (Validator.isLength 0 (Some 200%nat) (Validator.trim s))
      "Description cannot be more than 200 characters") ++
  Validator.optional (CategoryUpdate.color b) (λ s,
    Validator.check (is_hex_color s) "Please enter a valid hex color").

(** [Category.findOne({ name: { $regex: re }, _id: { $ne: id } })] *)
Definition Category_findOne_other (ci : bool) (re : Regex.t) (id : ObjectId)
    (cats : gmap ObjectId Category.t) : option (ObjectId * Category.t) :=
  List.find (λ doc, Regex.test ci re (Category.name doc.2) &&
                    negb (String.eqb doc.1 id))
            (map_to_list cats).

(** The result is [None] when the name makes a pattern outside the
    embedded fragment of regular expressions. *)
Definition put_category (now : Date) (cats : gmap ObjectId Category.t) (u : User.t)
    (id : ObjectId) (body : CategoryUpdate.t)
    : option (response Category.t * gmap ObjectId Category.t) :=
  match authorize ["admin"] u with
  | Some (code, message) => Some (Message code message, cats)
  | None =>
      let errors := category_update_validationResult body in
      if negb (bool_decide (errors = [])) then Some (Errors errors, cats) else
      let name := Validator.trim <$> CategoryUpdate.name body in
      let description := Validator.trim <$> CategoryUpdate.description body in
      let color := CategoryUpdate.color body in
      let isActive := CategoryUpdate.isActive body in
      match cats !! id with
      | None => Some (Message 404 "Category not found", cats)
      | Some category =>
          nameExists ←
            (if JS.truthy name && negb (String.eqb (default "" name) (Category.name category))
             then re ← Regex.parse ("^" +:+ default "" name +:+ "$");
                  Some (Category_findOne_other true re id cats)
             else Some None);
          match nameExists with
          | Some _ => Some (Message 400 "Category name already exists", cats)
          | None =>
              let c1 :=
                Category.mk
                  (if JS.truthy name then default "" name else Category.name category)
                  (match description with
                   | Some d => Some d
                   | None => Category.description category
                   end)
                  (if JS.truthy color then default "" color else Category.color category)
                  (match isActive with
                   | Some a => a
                   | None => Category.isActive category
                   end)
                  (Category.createdBy category) (Category.createdAt category)
                  (Category.updatedAt category) in
              let '(updatedCategory, cats') := Category_save now id category c1 cats in
              Some (Json 200 updatedCategory, cats')
          end
      end
  end.

(** *** DELETE /api/categories/:id *)

(** [Ticket.findOne({ category: id })] *)
Definition Ticket_findOne_category (db : gmap ObjectId Ticket.t) (id : ObjectId)
    : option (ObjectId * Ticket.t) :=
  List.find (λ doc, String.eqb (Ticket.category doc.2) id) (map_to_list db).

Definition delete_category (cats : gmap ObjectId Category.t)
    (db : gmap ObjectId Ticket.t) (u : User.t) (id : ObjectId)
    : response unit * gmap ObjectId Category.t :=
  match authorize ["admin"] u with
  | Some (code, message) => (Message code message, cats)
  | None =>
      match cats !! id with
      | None => (Message 404 "Category not found", cats)
      | Some category =>
          match Ticket_findOne_category db id with
          | Some ticketsUsingCategory =>
              (Message 400
                 "Cannot delete category that is being used by tickets. Deactivate it instead.",
               cats)
          | None => (Json 200 (), delete id cats)
          end
      end
  end.

(** ** Two user routes (routes/users.js)

    These routes compare [req.params.id] as a string with
    [req.user._id.toString()] and also hand it to the database, which
    casts it to an ObjectId. Here the parameter is the string of the
    request and the cast is written out: the routes answer 500 when it
    fails. The accounts collection maps the string form of [_id] to the
    account. *)

(** [Ticket.findOne({ createdBy: id })] *)
Definition Ticket_findOne_createdBy (db : gmap ObjectId Ticket.t) (id : ObjectId)
    : option (ObjectId * Ticket.t) :=
  List.find (λ doc, String.eqb (Ticket.createdBy doc.2) id) (map_to_list db).

(** *** GET /api/users/:id *)
Definition get_user (users : gmap ObjectId User.t) (u : User.t) (id : string)
    : option (response User.t) :=
  match ObjectId_cast id with
  | None => Some (Message 500 "Server error")
  | Some oid =>
      Some match users !! oid with
           | None => Message 404 "User not found"
           | Some user =>
               if negb (String.eqb (role_name (User.role u)) "admin") &&
                  negb (String.eqb (User._id u) id)
               then Message 403 "Not authorized to view this user"
               else Json 200 user
           end
  end.

(** *** DELETE /api/users/:id *)
Definition delete_user (users : gmap ObjectId User.t) (db : gmap ObjectId Ticket.t)
    (u : User.t) (id : string) : option (response unit * gmap ObjectId User.t) :=
  match authorize ["admin"] u with
  | Some (code, message) => Some (Message code message, users)
  | None =>
      match ObjectId_cast id with
      | None => Some (Message 500 "Server error", users)
      | Some oid =>
          Some match users !! oid with
               | None => (Message 404 "User not found", users)
               | Some user =>
                   if String.eqb id (User._id u)
                   then (Message 400 "Cannot delete your own account", users)
                   else
                     match Ticket_findOne_createdBy db oid with
                     | Some userTickets =>
                         (Message 400
                            "Cannot delete user who has created tickets. Deactivate the account instead.",
                          users)
                     | None => (Json 200 (), delete oid users)
                     end
               end
      end
  end.

(** ** Vocabulary of the further properties *)

(** Whether a list of bytes starts with a character that [strip]
    takes off. *)
Definition strips (s1 : ascii → bool) (s2 : ascii → ascii → bool)
    (s3 : ascii → ascii → ascii → bool) (l : list ascii) : bool :=
  match l with
  | [] => false
  | a :: l1 =>
      s1 a ||
      match l1 with
      | [] => false
      | b :: l2 =>
          s2 a b ||
          match l2 with
          | [] => false
          | c :: _ => s3 a b c
          end
      end
  end.

(** The fields of a ticket that no request to the ticket assigns. *)
Definition frozen (d : Ticket.t)
    : ObjectId * Date * list Attachment.t * list string * bool * option Date :=
  (Ticket.createdBy d, Ticket.createdAt d, Ticket.attachments d, Ticket.tags d,
   Ticket.isUrgent d, Ticket.dueDate d).

(** What the validators of the routes and of the schema let through:
    a status and a priority of the schema, a subject of at least 5
    characters (as [isLength] counts them) and at most 200 code units,
    a description of at least 10 characters, both without white space
    around them. *)
Definition well_shaped (d : Ticket.t) : Prop :=
  Validator.isIn Ticket.status_enum (Ticket.status d) = true ∧
  Validator.isIn Ticket.priority_enum (Ticket.priority d) = true ∧
  (5 ≤ Validator.chars (Ticket.subject d))%nat ∧
  (JS.string_length (Ticket.subject d) ≤ 200)%nat ∧
  (10 ≤ Validator.chars (Ticket.description d))%nat ∧
  Validator.trim (Ticket.subject d) = Ticket.subject d ∧
  Validator.trim (Ticket.description d) = Ticket.description d.

(** A ticket after a request to it: the frozen fields are the same, the
    comments are the old ones followed by the new, the shape is kept. *)
Definition grows (d d' : Ticket.t) : Prop :=
  frozen d' = frozen d ∧
  Ticket.comments d `prefix_of` Ticket.comments d' ∧
  (well_shaped d → well_shaped d').

Definition all_well_shaped (db : gmap ObjectId Ticket.t) : Prop :=
  map_Forall (λ _ d, well_shaped d) db.

(** The change of the score a vote of direction [up] makes for a user
    who is in the array of that direction ([mine]), in the other one
    ([other]), or in neither. *)
Definition score_change (up mine other : bool) : Z :=
  (if up then 1 else -1) * (if mine then -1 else if other then 2 else 1).

(** A query of the list route with another [assignedTo]. *)
Definition with_assignedTo (a : option string) (q : ListQuery.t) : ListQuery.t :=
  ListQuery.mk (ListQuery.page q) (ListQuery.limit q) (ListQuery.status q)
               (ListQuery.priority q) (ListQuery.category q) (ListQuery.search q)
               (ListQuery.sortBy q) (ListQuery.sortOrder q) a (ListQuery.createdBy q).

(** [word] occurs in [s], up to the case of ASCII letters. *)
Definition contains_ignoring_case (s word : string) : Prop :=
  ∃ before mid after,
    list_ascii_of_string s = before ++ mid ++ after ∧
    Regex.fold_case <$> mid = Regex.fold_case <$> list_ascii_of_string word.

(** Text of ASCII characters, on which the byte-wise matching of
    [Regex] is the matching of the database. *)
Definition is_ascii (s : string) : bool :=
  forallb (λ c, (nat_of_ascii c <? 128)%nat) (list_ascii_of_string s).

(** A sort path [ticket_field] covers: a scalar path of the schema or
    a path the schema does not have; not an array path, a dotted path,
    the empty path or a path that starts with [$]. *)
Definition scalar_path (path : string) : bool :=
  negb (JS.includes [""; "attachments"; "comments"; "upvotes"; "downvotes"; "tags"] path
        || existsb (Ascii.eqb ".") (list_ascii_of_string path)
        || match list_ascii_of_string path with
           | "$"%char :: _ => true
           | _ => false
           end).

(** The requests of the list route the embedding covers: the search
    word, when the request has one, is a pattern [Regex.parse] reads
    (literal characters, [.], a leading [^], a trailing [$]), and the
    sort path is one [ticket_field] covers. *)
Definition covered (q : ListQuery.t) : Prop :=
  (∀ s, ListQuery.search q = Some s → s ≠ "" → is_Some (Regex.parse s)) ∧
  scalar_path (default "createdAt" (ListQuery.sortBy q)) = true.

(** A category name the embedding covers: between [^] and [$] it makes
    a pattern [Regex.parse] reads, that is, each of its characters is
    [.] or no metacharacter. *)
Definition covered_name (name : string) : Prop :=
  is_Some (Regex.parse ("^" +:+ name +:+ "$")).

(** ** More sample data *)

Module Desk.


Definition assigned_to_me : ListQuery.t :=
  ListQuery.mk None None None None None None None None (Some "me") None.

Definition search_scanner : ListQuery.t :=
  ListQuery.mk None None None None None (Some "SCANNER") None None None None.


Definition page_of_bob : ListReply.t :=
  ListReply.mk [(Sample.t1, Sample.ticket1_bob)] (Some 1) 1 1.

Definition page_of_scanner : ListReply.t :=
  ListReply.mk [(Sample.t2, Sample.ticket2)] (Some 1) 1 1.

(** A comment for everyone. *)
Definition thanks : CommentBody.t := CommentBody.mk (Some " Thank you ") None.


(** A new category, and the request that switches the category of
    bugs off. *)
Definition hardware : CategoryBody.t :=
  CategoryBody.mk (Some " Hardware ") None None.

Definition category_hardware : Category.t :=
  Category.mk "Hardware" None "#3B82F6" true (User._id Sample.carol) 400 400.

Definition switch_off : CategoryUpdate.t :=
  CategoryUpdate.mk None None None (Some false).

Definition bugs_off : Category.t :=
  Category.mk "Bug Report" (Some "Software bugs and issues") "#EF4444" false
              (User._id Sample.carol) 0 500.

Definition category_bugs : Category.t :=
  Category.mk "Bug Report" (Some "Software bugs and issues") "#EF4444" true
              (User._id Sample.carol) 0 0.

Definition cats_off : gmap ObjectId Category.t := <[Sample.bugs := bugs_off]> Sample.cats.

(** The accounts. *)
Definition accounts : gmap ObjectId User.t :=
  {[ User._id Sample.alice := Sample.alice; User._id Sample.bob := Sample.bob;
     User._id Sample.carol := Sample.carol; User._id Sample.dave := Sample.dave ]}.

End Desk.

(** * Properties *)

(** ** Arrays *)

Section arrays.
Context {A : Type} (p : A → bool).

Lemma findIndex_lower (l : list A) : -1 ≤ JS.findIndex p l.
Proof.
  induction l as [|x l IH]; simpl; [lia|].
  destruct (p x); [lia|]. destruct (Z.ltb_spec (JS.findIndex p l) 0); lia.
Qed.

(** Either no element satisfies [p] and the index is -1, or the index
    points at the first element that does, and [splice] takes exactly
    that element out. *)
Lemma findIndex_spec (l : list A) :
  (JS.findIndex p l = -1 ∧ Forall (λ x, p x = false) l) ∨
  (∃ l1 x l2, l = l1 ++ x :: l2 ∧ Forall (λ y, p y = false) l1 ∧ p x = true ∧
     JS.findIndex p l = Z.of_nat (length l1) ∧
     JS.splice1 (JS.findIndex p l) l = l1 ++ l2).
Proof.
  induction l as [|x l IH]; simpl.
  - left. split; [done | constructor].
  - destruct (p x) eqn:Hx.
    + right. exists [], x, l. repeat split; auto.
    + destruct IH as [[Hi Hall] | (l1 & y & l2 & -> & Hall & Hy & Hi & Hs)].
      * left. rewrite Hi. simpl. split; [done | by constructor].
      * right. exists (x :: l1), y, l2.
        rewrite Hi in *.
        destruct (Z.ltb_spec (Z.of_nat (length l1)) 0) as [?|_]; [lia|].
        repeat split; auto.
        -- simpl. lia.
        -- unfold JS.splice1 in *.
           destruct (Z.ltb_spec (Z.of_nat (length l1) + 1) 0) as [?|_]; [lia|].
           destruct (Z.ltb_spec (Z.of_nat (length l1)) 0) as [?|_]; [lia|].
           rewrite length_cons, length_app in *. simpl in *.
           rewrite Z.min_l in Hs by lia. rewrite Z.min_l by lia.
           replace (Z.to_nat (Z.of_nat (length l1) + 1)) with (S (length l1)) by lia.
           rewrite Nat2Z.id in Hs. simpl. by rewrite Hs.
Qed.

Lemma findIndex_found (l : list A) :
  (-1 <? JS.findIndex p l) = existsb p l.
Proof.
  destruct (findIndex_spec l) as [[-> Hall] | (l1 & x & l2 & -> & Hall & Hx & -> & _)].
  - symmetry. apply not_true_is_false. rewrite existsb_exists.
    intros (x & Hin & Hx). rewrite Forall_forall in Hall.
    apply list_elem_of_In in Hin. rewrite (Hall x Hin) in Hx. done.
  - transitivity true.
    + apply Z.ltb_lt. lia.
    + symmetry. apply existsb_exists. exists x. split; [|done].
      apply in_or_app. right. by left.
Qed.

End arrays.

(** The two searches of the vote route, for the requester [uid]. *)
Lemma findIndex_user (uid : ObjectId) (l : list ObjectId) :
  (JS.findIndex (λ i, String.eqb i uid) l = -1 ∧ (uid ∉ l)) ∨
  (∃ l1 l2, l = l1 ++ uid :: l2 ∧ (uid ∉ l1) ∧
     JS.findIndex (λ i, String.eqb i uid) l = Z.of_nat (length l1) ∧
     JS.splice1 (JS.findIndex (λ i, String.eqb i uid) l) l = l1 ++ l2).
Proof.
  destruct (findIndex_spec (λ i, String.eqb i uid) l)
    as [[Hi Hall] | (l1 & x & l2 & -> & Hall & Hx & Hi & Hs)].
  - left. split; [done|]. intros Hin. rewrite Forall_forall in Hall.
    specialize (Hall _ Hin). simpl in Hall. by rewrite String.eqb_refl in Hall.
  - apply String.eqb_eq in Hx as ->. right. exists l1, l2.
    repeat split; auto. intros Hin. rewrite Forall_forall in Hall.
    specialize (Hall _ Hin). simpl in Hall. by rewrite String.eqb_refl in Hall.
Qed.

Lemma findIndex_absent uid (l : list ObjectId) :
  uid ∉ l → JS.findIndex (λ i, String.eqb i uid) l = -1.
Proof.
  intros Hn. destruct (findIndex_user uid l) as [[Hi _] | (l1 & l2 & -> & _)]; [done|].
  destruct Hn. apply elem_of_app. right. by left.
Qed.

(** ** Saving a document *)

(** [save] either rejects or stores what [Ticket_store] says. *)
Lemma Ticket_save_Some now id orig d db r :
  Ticket_save now id orig d db = Some r → r = Ticket_store now id orig d db.
Proof. unfold Ticket_save. destruct (Ticket_validate orig d); congruence. Qed.

Lemma Ticket_save_valid now id orig d db :
  Ticket_validate orig d = true →
  Ticket_save now id orig d db = Some (Ticket_store now id orig d db).
Proof. unfold Ticket_save. by intros ->. Qed.

Lemma path_valid_same {A} `{EqDecision A} (path : Ticket.t → A) valid orig d :
  path d = path orig → path_valid path valid orig d = true.
Proof. intros Heq. unfold path_valid. by rewrite bool_decide_eq_true_2. Qed.

Lemma comments_validate_same l : comments_validate l l = true.
Proof.
  unfold comments_validate. apply forallb_forall. intros c Hc.
  apply list_elem_of_In in Hc. by rewrite bool_decide_eq_true_2.
Qed.


(** A document whose validated paths are the loaded ones is valid. *)
Lemma Ticket_validate_same orig d :
  Ticket.subject d = Ticket.subject orig →
  Ticket.description d = Ticket.description orig →
  Ticket.status d = Ticket.status orig →
  Ticket.priority d = Ticket.priority orig →
  Ticket.comments d = Ticket.comments orig →
  Ticket_validate orig d = true.
Proof.
  intros H1 H2 H3 H4 H5. unfold Ticket_validate.
  rewrite !path_valid_same, H5, comments_validate_same by done. done.
Qed.

(** The document [save] stores is the one it was given, up to the two
    stamps of the hook and [updatedAt]. *)
Lemma Ticket_store_cases now id orig d db :
  let d' := (Ticket_store now id orig d db).1 in
  (Ticket_store now id orig d db).2 = <[id := d']> db ∧
  ∃ d1, (d1 = d ∨ d1 = Ticket.set_resolvedAt (Some now) d ∧ Ticket.resolvedAt d = None
                ∨ d1 = Ticket.set_closedAt (Some now) d ∧ Ticket.closedAt d = None) ∧
        (d' = d1 ∨ d' = Ticket.set_updatedAt now d1).
Proof.
  unfold Ticket_store, Ticket.pre_save. simpl. split; [done|].
  destruct (negb (String.eqb (Ticket.status orig) (Ticket.status d))).
  - destruct (String.eqb (Ticket.status d) "resolved" &&
              negb (bool_decide (is_Some (Ticket.resolvedAt d)))) eqn:Hr.
    + apply andb_prop in Hr as [_ Hr]. apply negb_true_iff, bool_decide_eq_false in Hr.
      rewrite <- eq_None_not_Some in Hr.
      eexists; split; [right; left; done|]. case_decide; auto.
    + destruct (String.eqb (Ticket.status d) "closed" &&
                negb (bool_decide (is_Some (Ticket.closedAt d)))) eqn:Hc.
      * apply andb_prop in Hc as [_ Hc]. apply negb_true_iff, bool_decide_eq_false in Hc.
        rewrite <- eq_None_not_Some in Hc.
        eexists; split; [right; right; done|]. case_decide; auto.
      * eexists; split; [left; done|]. case_decide; auto.
  - eexists; split; [left; done|]. case_decide; auto.
Qed.

Lemma Ticket_store_eq now id orig d db :
  Ticket_store now id orig d db =
  ((Ticket_store now id orig d db).1, <[id := (Ticket_store now id orig d db).1]> db).
Proof. done. Qed.

(** The fields [save] leaves as the route set them. *)
Lemma Ticket_store_fields now id orig d db :
  let d' := (Ticket_store now id orig d db).1 in
  Ticket.subject d' = Ticket.subject d ∧
  Ticket.description d' = Ticket.description d ∧
  Ticket.category d' = Ticket.category d ∧
  Ticket.status d' = Ticket.status d ∧
  Ticket.priority d' = Ticket.priority d ∧
  Ticket.assignedTo d' = Ticket.assignedTo d ∧
  Ticket.comments d' = Ticket.comments d ∧
  Ticket.upvotes d' = Ticket.upvotes d ∧
  Ticket.downvotes d' = Ticket.downvotes d.
Proof.
  destruct (Ticket_store_cases now id orig d db) as (_ & d1 & Hd1 & Hd').
  simpl in *.
  destruct Hd1 as [-> | [[-> _] | [-> _]]], Hd' as [-> | ->]; done.
Qed.

Lemma Ticket_store_resolves now id orig d db :
  Ticket.status d = "resolved" → Ticket.status orig ≠ "resolved" →
  Ticket.resolvedAt d = None →
  Ticket.resolvedAt (Ticket_store now id orig d db).1 = Some now.
Proof.
  intros Hs Ho Hr. unfold Ticket_store, Ticket.pre_save. rewrite Hs, Hr.
  assert (String.eqb (Ticket.status orig) "resolved" = false) as ->
    by by apply String.eqb_neq.
  simpl. by case_decide.
Qed.

Lemma Ticket_store_closes now id orig d db :
  Ticket.status d = "closed" → Ticket.status orig ≠ "closed" →
  Ticket.closedAt d = None →
  Ticket.closedAt (Ticket_store now id orig d db).1 = Some now.
Proof.
  intros Hs Ho Hr. unfold Ticket_store, Ticket.pre_save. rewrite Hs, Hr.
  assert (String.eqb (Ticket.status orig) "closed" = false) as ->
    by by apply String.eqb_neq.
  simpl. by case_decide.
Qed.

Lemma evolves_refl d : evolves d d.
Proof. unfold evolves. auto. Qed.

Lemma evolves_trans d1 d2 d3 : evolves d1 d2 → evolves d2 d3 → evolves d1 d3.
Proof.
  intros (Hc & Hr & Hcl & Hw) (Hc' & Hr' & Hcl' & Hw').
  unfold evolves. split; [congruence|]. auto.
Qed.

Lemma Ticket_save_inv now id orig d db d' db' :
  Ticket_save now id orig d db = Some (d', db') →
  d' = (Ticket_store now id orig d db).1 ∧ db' = <[id := d']> db ∧
  Ticket_validate orig d = true.
Proof.
  unfold Ticket_save. destruct (Ticket_validate orig d); [|done].
  rewrite Ticket_store_eq. intros [= Hd Hdb]. by subst.
Qed.

Lemma Ticket_store_evolves now id orig d db :
  Ticket.createdBy d = Ticket.createdBy orig →
  Ticket.resolvedAt d = Ticket.resolvedAt orig →
  Ticket.closedAt d = Ticket.closedAt orig →
  (votes_wf orig → votes_wf d) →
  evolves orig (Ticket_store now id orig d db).1.
Proof.
  intros Hc Hr Hcl Hw.
  destruct (Ticket_store_cases now id orig d db) as (_ & d1 & Hd1 & Hd').
  unfold evolves, votes_wf in *.
  destruct Hd1 as [-> | [[-> Hn] | [-> Hn]]], Hd' as [-> | ->]; simpl;
    repeat split; try tauto; try congruence;
    intros x Hx; congruence.
Qed.

(** ** The requester and the ticket *)

Lemma role_is_admin u : isAdmin u = true ↔ User.role u = RoleAdmin.
Proof. unfold isAdmin. destruct (User.role u); simpl; split; congruence. Qed.

Lemma role_is_agent u : isAgent u = true ↔ User.role u = RoleAgent.
Proof. unfold isAgent. destruct (User.role u); simpl; split; congruence. Qed.


Lemma isOwner_spec u d : isOwner u d = true ↔ Ticket.createdBy d = User._id u.
Proof. unfold isOwner. apply String.eqb_eq. Qed.

Lemma isAssigned_spec u d : isAssigned u d = true ↔ Ticket.assignedTo d = Some (User._id u).
Proof.
  unfold isAssigned. destruct (Ticket.assignedTo d) as [a|]; [|split; congruence].
  rewrite String.eqb_eq. split; congruence.
Qed.

Lemma can_read_spec u d :
  isOwner u d || isAssigned u d || isAdmin u || isAgent u = true ↔ can_read u d.
Proof.
  unfold can_read.
  rewrite !orb_true_iff, isOwner_spec, isAssigned_spec, role_is_admin, role_is_agent.
  tauto.
Qed.

(** ** Validation chains *)

Lemma check_nil ok msg : Validator.check ok msg = [] ↔ ok = true.
Proof. unfold Validator.check. destruct ok; split; congruence. Qed.

Lemma optional_check_nil o f msg :
  Validator.optional o (λ s, Validator.check (f s) msg) = [] ↔
  ∀ s, o = Some s → f s = true.
Proof.
  destruct o as [s|]; simpl.
  - rewrite check_nil. split; [by intros H ? [= <-] | auto].
  - split; [by intros | done].
Qed.

Lemma update_validationResult_nil b :
  update_validationResult b = [] ↔
  (∀ s, UpdateBody.subject b = Some s →
        Validator.isLength 5 (Some 200%nat) (Validator.trim s) = true) ∧
  (∀ s, UpdateBody.description b = Some s →
        Validator.isLength 10 None (Validator.trim s) = true) ∧
  (∀ s, UpdateBody.status b = Some s → Validator.isIn Ticket.status_enum s = true) ∧
  (∀ s, UpdateBody.priority b = Some s → Validator.isIn Ticket.priority_enum s = true) ∧
  (∀ s, UpdateBody.assignedTo b = Some s → Validator.isMongoId s = true).
Proof.
  unfold update_validationResult.
  rewrite !app_nil, !optional_check_nil. tauto.
Qed.

Lemma isLength_truthy n max s :
  Validator.isLength (S n) max s = true → JS.truthy (Some s) = true.
Proof.
  unfold Validator.isLength. intros [Hlen _]%andb_prop.
  destruct s; [done|]. done.
Qed.

Lemma isIn_status_truthy s :
  Validator.isIn Ticket.status_enum s = true → JS.truthy (Some s) = true.
Proof.
  unfold Validator.isIn, Ticket.status_enum. simpl.
  rewrite !orb_true_iff, !String.eqb_eq. by intros [->|[->|[->|[->|?]]]].
Qed.

Lemma isIn_priority_truthy s :
  Validator.isIn Ticket.priority_enum s = true → JS.truthy (Some s) = true.
Proof.
  unfold Validator.isIn, Ticket.priority_enum. simpl.
  rewrite !orb_true_iff, !String.eqb_eq. by intros [->|[->|[->|[->|?]]]].
Qed.

Lemma isMongoId_truthy s : Validator.isMongoId s = true → JS.truthy (Some s) = true.
Proof.
  unfold Validator.isMongoId. intros [_ Hlen]%andb_prop.
  destruct s; [done|]. done.
Qed.

(** ** Casts *)

Lemma length_list_ascii_of_string s :
  length (list_ascii_of_string s) = String.length s.
Proof. induction s as [|c s IH]; simpl; congruence. Qed.

(** A string that [isMongoId] lets through has twenty-four characters:
    when the cast reads it, it reads twenty-four hexadecimal digits. *)
Lemma isMongoId_cast s oid :
  Validator.isMongoId s = true → ObjectId_cast s = Some oid → oid = lower_case s.
Proof.
  unfold Validator.isMongoId, ObjectId_cast.
  intros [_ Hlen%Nat.eqb_eq]%andb_prop.
  destruct (_ && _); [congruence|].
  rewrite length_list_ascii_of_string, Hlen. done.
Qed.

Lemma castable_cast v : castable v → cast_fails v = false.
Proof.
  intros Hv. unfold cast_fails. destruct v as [s|]; [|done].
  destruct (Hv s eq_refl) as [-> | Hid]; [done|].
  change (default "" (Some s)) with s.
  rewrite bool_decide_eq_true_2 by done.
  apply andb_false_r.
Qed.

(** ** The assignments of the update route *)

(** A property of the ticket that every setter keeps is kept by
    [if (v) ticket.field = v]. *)
Lemma assign_if_truthy_inv (P : Ticket.t → Prop) v set d :
  P d → (∀ s d0, P d0 → P (set s d0)) → P (assign_if_truthy v set d).
Proof. intros Hd Hset. unfold assign_if_truthy. destruct (JS.truthy v); auto. Qed.

Ltac through_assignments :=
  repeat (apply assign_if_truthy_inv;
          [|intros ? ? ?; unfold set_reference; try case_match; simpl; assumption]).

(** ** Every request to a ticket makes the collection evolve *)

Lemma step_lookup_insert (db : gmap ObjectId Ticket.t) id orig d' id' t' (R : Ticket.t → Ticket.t → Prop) :
  db !! id = Some orig → R orig d' → (∀ d, R d d) →
  <[id := d']> db !! id' = Some t' →
  ∃ t, db !! id' = Some t ∧ R t t'.
Proof.
  intros Hid HR Hrefl. destruct (decide (id = id')) as [->|Hne].
  - rewrite lookup_insert_eq. intros [= <-]. eauto.
  - rewrite lookup_insert_ne by done. eauto.
Qed.

Lemma save_effect now (db : gmap ObjectId Ticket.t) id orig d :
  db !! id = Some orig →
  Ticket.createdBy d = Ticket.createdBy orig →
  Ticket.resolvedAt d = Ticket.resolvedAt orig →
  Ticket.closedAt d = Ticket.closedAt orig →
  (votes_wf orig → votes_wf d) →
  effect db id (Ticket_store now id orig d db).2.
Proof.
  intros Hid Hc Hr Hcl Hw. right.
  destruct (Ticket_store_cases now id orig d db) as (-> & _).
  eexists _, _. split_and!; [done..|]. by apply Ticket_store_evolves.
Qed.

Lemma put_ticket_effect now db u id body :
  effect db id (put_ticket now db u id body).2.
Proof.
  unfold put_ticket, canAccessTicket, Ticket_findById.
  destruct (db !! id) as [ticket|] eqn:Hid; [|by left].
  destruct (isOwner u ticket || isAssigned u ticket || isAdmin u || isAgent u);
    [|by left].
  destruct (negb (bool_decide (update_validationResult body = []))); [by left|].
  destruct (String.eqb (role_name (User.role u)) "user" && negb (isOwner u ticket));
    [by left|].
  cbv zeta.
  match goal with |- context [if ?b then (Message 500 _, db) else _] => destruct b end;
    [by left|].
  match goal with
  | |- context [Ticket_save now id ticket ?d db] => set (t2 := d)
  end.
  assert (Ticket.createdBy t2 = Ticket.createdBy ticket ∧
          Ticket.resolvedAt t2 = Ticket.resolvedAt ticket ∧
          Ticket.closedAt t2 = Ticket.closedAt ticket ∧
          Ticket.upvotes t2 = Ticket.upvotes ticket ∧
          Ticket.downvotes t2 = Ticket.downvotes ticket) as (Hc & Hr & Hcl & Hup & Hdn).
  { subst t2.
    through_assignments.
    destruct (isAgent u || isAdmin u || isAssigned u ticket); [|done].
    through_assignments.
    done. }
  destruct (Ticket_save now id ticket t2 db) as [[d' db']|] eqn:Hs; [|by left].
  apply Ticket_save_Some in Hs. simpl.
  replace db' with (Ticket_store now id ticket t2 db).2 by (by rewrite <- Hs).
  apply save_effect; auto.
  unfold votes_wf. by rewrite Hup, Hdn.
Qed.

Lemma post_comment_effect now db u id body :
  effect db id (post_comment now db u id body).2.
Proof.
  unfold post_comment, canAccessTicket, Ticket_findById.
  destruct (db !! id) as [ticket|] eqn:Hid; [|by left].
  destruct (isOwner u ticket || isAssigned u ticket || isAdmin u || isAgent u);
    [|by left].
  destruct (negb (bool_decide (comment_validationResult body = []))); [by left|].
  destruct (default false (CommentBody.isInternal body) &&
            negb (JS.includes ["agent"; "admin"] (role_name (User.role u))));
    [by left|].
  match goal with
  | |- context [Ticket_save now id ticket ?d db] => set (t1 := d)
  end.
  destruct (Ticket_save now id ticket t1 db) as [[d' db']|] eqn:Hs; [|by left].
  apply Ticket_save_Some in Hs. simpl.
  replace db' with (Ticket_store now id ticket t1 db).2 by (by rewrite <- Hs).
  apply save_effect; auto.
Qed.

(** The vote route keeps the two arrays duplicate-free and disjoint. *)
Lemma vote_arrays_wf (uid : ObjectId) (mine other : list ObjectId) :
  NoDup mine → NoDup other → (∀ x, x ∈ mine → x ∉ other) →
  let i := JS.findIndex (λ i, String.eqb i uid) mine in
  let j := JS.findIndex (λ i, String.eqb i uid) other in
  let mine' := if -1 <? i then JS.splice1 i mine else JS.push mine uid in
  let other' := if -1 <? i then other
                else if -1 <? j then JS.splice1 j other else other in
  NoDup mine' ∧ NoDup other' ∧ (∀ x, x ∈ mine' → x ∉ other').
Proof.
  intros Hm Ho Hdis. simpl.
  destruct (findIndex_user uid mine) as [[-> Hnin] | (l1 & l2 & -> & Hn1 & -> & ->)].
  - simpl. unfold JS.push.
    assert (NoDup (mine ++ [uid])) as Hm'.
    { apply NoDup_app. repeat split; [done| |apply NoDup_singleton].
      intros x Hx ->%list_elem_of_singleton. done. }
    destruct (findIndex_user uid other) as [[-> Hnio] | (k1 & k2 & -> & Hk1 & -> & ->)].
    + simpl. repeat split; auto.
      intros x [Hx | ->%list_elem_of_singleton]%elem_of_app; auto.
    + destruct (Z.ltb_spec (-1) (Z.of_nat (length k1))) as [_|?]; [|lia].
      apply NoDup_app in Ho as (Hk1' & Hk12 & Hk2').
      apply NoDup_cons in Hk2' as [Hk2n Hk2'].
      repeat split; auto.
      * apply NoDup_app. repeat split; auto.
        intros x Hx1 Hx2. apply (Hk12 x Hx1). by right.
      * intros x [Hx | ->%list_elem_of_singleton]%elem_of_app.
        -- intros [?|?]%elem_of_app; apply (Hdis x Hx), elem_of_app; auto.
           right. by right.
        -- intros [?|?]%elem_of_app; done.
  - destruct (Z.ltb_spec (-1) (Z.of_nat (length l1))) as [_|?]; [|lia].
    apply NoDup_app in Hm as (Hl1 & Hl12 & Hl2).
    apply NoDup_cons in Hl2 as [Hl2n Hl2].
    repeat split; auto.
    + apply NoDup_app. repeat split; auto.
      intros x Hx1 Hx2. apply (Hl12 x Hx1). by right.
    + intros x [?|?]%elem_of_app; apply Hdis, elem_of_app; auto.
      right. by right.
Qed.

Lemma post_vote_effect now db u id voteType :
  effect db id (post_vote now db u id voteType).2.
Proof.
  unfold post_vote, Ticket_findById.
  destruct (db !! id) as [ticket|] eqn:Hid; [|by left].
  match goal with
  | |- context [match ?v with Some _ => _ | None => _ end] => destruct v as [t1|] eqn:Hv
  end; [|by left].
  assert (Ticket.createdBy t1 = Ticket.createdBy ticket ∧
          Ticket.resolvedAt t1 = Ticket.resolvedAt ticket ∧
          Ticket.closedAt t1 = Ticket.closedAt ticket ∧
          (votes_wf ticket → votes_wf t1)) as (Hc & Hr & Hcl & Hw).
  { unfold votes_wf.
    pose proof (vote_arrays_wf (User._id u) (Ticket.upvotes ticket) (Ticket.downvotes ticket)) as Hup.
    pose proof (vote_arrays_wf (User._id u) (Ticket.downvotes ticket) (Ticket.upvotes ticket)) as Hdn.
    simpl in Hup, Hdn.
    destruct (bool_decide (voteType = Some "upvote")).
    - destruct (-1 <? JS.findIndex _ (Ticket.upvotes ticket)) eqn:Hi.
      + injection Hv as <-. simpl. split_and!; [done..|]. intros (? & ? & ?). auto.
      + destruct (-1 <? JS.findIndex _ (Ticket.downvotes ticket)) eqn:Hj;
          injection Hv as <-; simpl; (split_and!; [done..|]); intros (? & ? & ?); auto.
    - destruct (bool_decide (voteType = Some "downvote")); [|done].
      assert ((∀ x, x ∈ Ticket.upvotes ticket → x ∉ Ticket.downvotes ticket) →
              ∀ x, x ∈ Ticket.downvotes ticket → x ∉ Ticket.upvotes ticket) as Hsym
        by (intros H x Hx Hx'; by apply (H x)).
      destruct (-1 <? JS.findIndex _ (Ticket.downvotes ticket)) eqn:Hj.
      + injection Hv as <-. simpl. split_and!; [done..|].
        intros (Hu & Hd & Hdis). destruct (Hdn Hd Hu (Hsym Hdis)) as (? & ? & Hd3).
        split_and!; auto. intros x Hx Hx'. by apply (Hd3 x).
      + destruct (-1 <? JS.findIndex _ (Ticket.upvotes ticket)) eqn:Hi;
          injection Hv as <-; simpl; (split_and!; [done..|]);
          intros (Hu & Hd & Hdis); destruct (Hdn Hd Hu (Hsym Hdis)) as (? & ? & Hd3);
          split_and!; auto; intros x Hx Hx'; by apply (Hd3 x). }
  destruct (Ticket_save now id ticket t1 db) as [[d' db']|] eqn:Hs; [|by left].
  apply Ticket_save_Some in Hs. simpl.
  replace db' with (Ticket_store now id ticket t1 db).2 by (by rewrite <- Hs).
  apply save_effect; auto.
Qed.

Lemma ticket_step_effect db id r : effect db id (ticket_step db id r).
Proof.
  destruct r; simpl;
    auto using put_ticket_effect, post_comment_effect, post_vote_effect.
Qed.

(** Read at one identifier: a document that is found after the request
    evolves from the one found before, and none disappears. *)
Lemma effect_lookup db id db' id' t' :
  effect db id db' → db' !! id' = Some t' →
  ∃ t, db !! id' = Some t ∧ evolves t t'.
Proof.
  intros [-> | (orig & d' & Hid & -> & Hev)]; [eauto using evolves_refl|].
  eauto using step_lookup_insert, evolves_refl.
Qed.

Lemma effect_keeps db id db' id' t :
  effect db id db' → db !! id' = Some t →
  ∃ t', db' !! id' = Some t' ∧ evolves t t'.
Proof.
  intros [-> | (orig & d' & Hid & -> & Hev)] Hl; [eauto using evolves_refl|].
  destruct (decide (id = id')) as [->|Hne].
  - rewrite lookup_insert_eq. simplify_eq. eauto.
  - rewrite lookup_insert_ne by done. eauto using evolves_refl.
Qed.

(** ** Reading a ticket *)

(** C5. For a ticket that exists, GET /api/tickets/:id answers with the
    ticket exactly when the requester is its creator, its assignee, an
    admin or an agent; in every other case the answer is the 403 reply
    and nothing else; the collection is left as it was. *)
Theorem get_ticket_iff_can_read db u id t :
  db !! id = Some t →
  (can_read u t ↔ is_success (get_ticket db u id).1 = true) ∧
  (can_read u t → get_ticket db u id = (Json 200 t, db)) ∧
  (¬ can_read u t →
   get_ticket db u id = (Message 403 "Not authorized to access this ticket", db) ∧
   is_authorization_error (get_ticket db u id).1 = true).
Proof.
  intros Hl. unfold get_ticket, canAccessTicket, Ticket_findById. rewrite Hl.
  pose proof (can_read_spec u t) as Hspec.
  destruct (isOwner u t || isAssigned u t || isAdmin u || isAgent u); simpl.
  - split_and!; [tauto|done|]. intros Hn. destruct Hn. by apply Hspec.
  - assert (¬ can_read u t) as Hn by (rewrite <- Hspec; congruence).
    split_and!; [split; [tauto|done] | tauto | done].
Qed.

Lemma get_ticket_iff_can_read_witness :
  Sample.db1 !! Sample.t1 = Some Sample.ticket1 ∧
  (can_read Sample.dave Sample.ticket1 ↔
   is_success (get_ticket Sample.db1 Sample.dave Sample.t1).1 = true) ∧
  (can_read Sample.dave Sample.ticket1 →
   get_ticket Sample.db1 Sample.dave Sample.t1 = (Json 200 Sample.ticket1, Sample.db1)) ∧
  (¬ can_read Sample.dave Sample.ticket1 →
   get_ticket Sample.db1 Sample.dave Sample.t1 =
     (Message 403 "Not authorized to access this ticket", Sample.db1) ∧
   is_authorization_error (get_ticket Sample.db1 Sample.dave Sample.t1).1 = true).
Proof.
  assert (Sample.db1 !! Sample.t1 = Some Sample.ticket1) as Hl
    by (vm_compute; reflexivity).
  split; [exact Hl|].
  exact (get_ticket_iff_can_read Sample.db1 Sample.dave Sample.t1 Sample.ticket1 Hl).
Defined.

(** ** Updating a ticket *)

(** Each field the update route assigns is the stored one or the one of
    the body. *)
Lemma updated_field_cases u t b :
  (Ticket.status (updated u t b) = Ticket.status t ∨
   UpdateBody.status b = Some (Ticket.status (updated u t b))) ∧
  (Ticket.priority (updated u t b) = Ticket.priority t ∨
   UpdateBody.priority b = Some (Ticket.priority (updated u t b))) ∧
  (Ticket.subject (updated u t b) = Ticket.subject t ∨
   UpdateBody.subject b = Some (Ticket.subject (updated u t b))) ∧
  (Ticket.description (updated u t b) = Ticket.description t ∨
   UpdateBody.description b = Some (Ticket.description (updated u t b))).
Proof.
  unfold updated, assign_if_truthy, set_reference.
  destruct (isAgent u || isAdmin u || isAssigned u t);
    destruct (UpdateBody.status b) as [s1|], (UpdateBody.priority b) as [s2|],
      (UpdateBody.subject b) as [s3|], (UpdateBody.description b) as [s4|];
    simpl; repeat case_match; simpl; auto.
Qed.

Lemma updated_comments u t b : Ticket.comments (updated u t b) = Ticket.comments t.
Proof.
  unfold updated. through_assignments.
  destruct (isAgent u || isAdmin u || isAssigned u t); [|done].
  through_assignments. done.
Qed.

Lemma sanitized_subject body s :
  UpdateBody.subject (update_sanitize body) = Some s →
  ∃ s0, UpdateBody.subject body = Some s0 ∧ s = Validator.trim s0.
Proof. simpl. destruct (UpdateBody.subject body); intros [= <-]; eauto. Qed.

Lemma sanitized_description body s :
  UpdateBody.description (update_sanitize body) = Some s →
  ∃ s0, UpdateBody.description body = Some s0 ∧ s = Validator.trim s0.
Proof. simpl. destruct (UpdateBody.description body); intros [= <-]; eauto. Qed.

(** The validation of [save] lets through what the validators of the
    route let through, but for a subject of more than 200 code units. *)
Lemma updated_validate u t body :
  update_validationResult body = [] →
  (∀ s, UpdateBody.subject body = Some s →
        (JS.string_length (Validator.trim s) ≤ 200)%nat) →
  Ticket_validate t (updated u t (update_sanitize body)) = true.
Proof.
  intros Hvalid Hlen. set (b := update_sanitize body).
  apply update_validationResult_nil in Hvalid as (Hsub & Hdesc & Hst & Hpr & _).
  destruct (updated_field_cases u t b) as (Hst' & Hpr' & Hsub' & Hdesc').
  unfold Ticket_validate. rewrite !andb_true_iff. split_and!.
  - destruct Hsub' as [Heq | Hb]; [by apply path_valid_same|].
    destruct (sanitized_subject _ _ Hb) as (s0 & Hs0 & Heq).
    unfold path_valid, subject_valid. rewrite Heq.
    apply orb_true_iff. right. apply andb_true_iff. split.
    + by apply (isLength_truthy 4 (Some 200%nat)), Hsub.
    + apply Nat.leb_le. auto.
  - destruct Hdesc' as [Heq | Hb]; [by apply path_valid_same|].
    destruct (sanitized_description _ _ Hb) as (s0 & Hs0 & Heq).
    unfold path_valid, description_valid. rewrite Heq.
    apply orb_true_iff. right. by apply (isLength_truthy 9 None), Hdesc.
  - destruct Hst' as [Heq | Hb]; [by apply path_valid_same|].
    unfold path_valid. apply orb_true_iff. right. by apply Hst.
  - destruct Hpr' as [Heq | Hb]; [by apply path_valid_same|].
    unfold path_valid. apply orb_true_iff. right. by apply Hpr.
  - rewrite updated_comments. apply comments_validate_same.
Qed.

(** An update is saved, and the stored document is returned, when the
    requester passes both guards, the body passes the validators of the
    route, its category can be cast and its subject is within the
    [maxlength] of the schema. *)
Lemma put_ticket_accepted now db u id t body :
  db !! id = Some t → can_read u t →
  update_validationResult body = [] →
  (User.role u = RoleUser → Ticket.createdBy t = User._id u) →
  (isAgent u || isAdmin u || isAssigned u t = true →
   castable (UpdateBody.assignedTo body)) →
  castable (UpdateBody.category body) →
  (∀ s, UpdateBody.subject body = Some s →
        (JS.string_length (Validator.trim s) ≤ 200)%nat) →
  let d' := (Ticket_store now id t (updated u t (update_sanitize body)) db).1 in
  put_ticket now db u id body = (Json 200 (Some d'), <[id := d']> db).
Proof.
  intros Hl Hread Hvalid Hown Hass Hcat Hlen. simpl.
  unfold put_ticket, canAccessTicket, Ticket_findById. rewrite Hl.
  apply can_read_spec in Hread. rewrite Hread, Hvalid. simpl.
  assert (String.eqb (role_name (User.role u)) "user" && negb (isOwner u t) = false) as ->.
  { destruct (User.role u) eqn:Hrole; simpl; try done.
    apply negb_false_iff, isOwner_spec. auto. }
  rewrite (castable_cast _ Hcat), orb_false_r.
  assert ((isAgent u || isAdmin u || isAssigned u t) &&
          cast_fails (UpdateBody.assignedTo body) = false) as ->.
  { destruct (isAgent u || isAdmin u || isAssigned u t) eqn:Hpriv; [|done].
    simpl. by apply castable_cast, Hass. }
  simpl. fold (updated u t (update_sanitize body)).
  rewrite Ticket_save_valid by by apply updated_validate.
  unfold Ticket_findById, Ticket_store. simpl.
  by rewrite lookup_insert_eq.
Qed.

Lemma updated_workflow_untouched u t b :
  isAgent u || isAdmin u || isAssigned u t = false →
  Ticket.status (updated u t b) = Ticket.status t ∧
  Ticket.priority (updated u t b) = Ticket.priority t ∧
  Ticket.assignedTo (updated u t b) = Ticket.assignedTo t.
Proof.
  intros Hno. unfold updated. rewrite Hno.
  through_assignments.
  done.
Qed.

Lemma updated_subject u t b s :
  UpdateBody.subject b = Some s → JS.truthy (Some s) = true →
  Ticket.subject (updated u t b) = s.
Proof.
  intros Hs Htr. unfold updated.
  through_assignments.
  unfold assign_if_truthy at 1. by rewrite Hs, Htr.
Qed.

Lemma updated_description u t b s :
  UpdateBody.description b = Some s → JS.truthy (Some s) = true →
  Ticket.description (updated u t b) = s.
Proof.
  intros Hs Htr. unfold updated.
  through_assignments.
  unfold assign_if_truthy at 1. by rewrite Hs, Htr.
Qed.

Lemma updated_status u t b s :
  isAgent u || isAdmin u || isAssigned u t = true →
  UpdateBody.status b = Some s → JS.truthy (Some s) = true →
  Ticket.status (updated u t b) = s.
Proof.
  intros Hyes Hs Htr. unfold updated. rewrite Hyes.
  through_assignments.
  unfold assign_if_truthy at 1. by rewrite Hs, Htr.
Qed.

Lemma updated_priority u t b s :
  isAgent u || isAdmin u || isAssigned u t = true →
  UpdateBody.priority b = Some s → JS.truthy (Some s) = true →
  Ticket.priority (updated u t b) = s.
Proof.
  intros Hyes Hs Htr. unfold updated. rewrite Hyes.
  through_assignments.
  unfold assign_if_truthy at 1. by rewrite Hs, Htr.
Qed.

Lemma updated_assignedTo u t b s :
  isAgent u || isAdmin u || isAssigned u t = true →
  UpdateBody.assignedTo b = Some s → Validator.isMongoId s = true →
  castable (UpdateBody.assignedTo b) →
  Ticket.assignedTo (updated u t b) = Some (lower_case s).
Proof.
  intros Hyes Hs Hid Hcast. unfold updated. rewrite Hyes.
  through_assignments.
  unfold assign_if_truthy at 1. rewrite Hs, (isMongoId_truthy s Hid). simpl.
  unfold set_reference.
  destruct (Hcast s Hs) as [-> | [oid Hoid]]; [done|].
  rewrite Hoid. simpl. by rewrite (isMongoId_cast s oid Hid Hoid).
Qed.

Lemma updated_stamps u t b :
  Ticket.resolvedAt (updated u t b) = Ticket.resolvedAt t ∧
  Ticket.closedAt (updated u t b) = Ticket.closedAt t.
Proof.
  unfold updated.
  through_assignments.
  destruct (isAgent u || isAdmin u || isAssigned u t); [|done].
  through_assignments.
  done.
Qed.

(** Whatever the body, an update by a plain user who owns the ticket
    without being its assignee leaves the three workflow fields of the
    stored ticket as they were. *)
Lemma owner_update_never_touches_workflow_fields now db u id t body :
  db !! id = Some t →
  User.role u = RoleUser → Ticket.assignedTo t ≠ Some (User._id u) →
  ∃ t', (put_ticket now db u id body).2 !! id = Some t' ∧
        Ticket.status t' = Ticket.status t ∧
        Ticket.priority t' = Ticket.priority t ∧
        Ticket.assignedTo t' = Ticket.assignedTo t.
Proof.
  intros Hl Hrole Hna.
  assert (isAgent u || isAdmin u || isAssigned u t = false) as Hno.
  { rewrite !orb_false_iff. split_and!.
    - unfold isAgent. by rewrite Hrole.
    - unfold isAdmin. by rewrite Hrole.
    - apply not_true_is_false. by rewrite isAssigned_spec. }
  unfold put_ticket, canAccessTicket, Ticket_findById. rewrite Hl.
  destruct (isOwner u t || isAssigned u t || isAdmin u || isAgent u); [|by eauto].
  destruct (negb (bool_decide (update_validationResult body = []))); [by eauto|].
  destruct (String.eqb (role_name (User.role u)) "user" && negb (isOwner u t));
    [by eauto|].
  cbv zeta.
  match goal with |- context [if ?b then (Message 500 _, db) else _] => destruct b end;
    [by eauto|].
  fold (updated u t (update_sanitize body)).
  destruct (Ticket_save now id t _ db) as [[d' db']|] eqn:Hs; [|by eauto].
  apply Ticket_save_inv in Hs as (-> & -> & _).
  cbn [snd]. rewrite lookup_insert_eq. eexists; split; [done|].
  destruct (Ticket_store_fields now id t (updated u t (update_sanitize body)) db)
    as (_ & _ & _ & -> & -> & -> & _).
  by apply updated_workflow_untouched.
Qed.

(** C1 (amended). When a plain user who created a ticket and is not its
    assignee sends an update that passes the validators of the route
    and the validation of the schema (the category of the body is
    missing, empty or a string the schema casts to an ObjectId:
    twenty-four hexadecimal digits, or twelve characters of one byte
    each; the trimmed subject has at most 200 code units), the update
    is accepted,
    [status], [priority] and [assignedTo] of the ticket stay as they
    were whatever the body says, and the [subject] and [description] of
    the body, trimmed by the validators, are the ones of the stored
    ticket. *)
Theorem owner_update_keeps_workflow_fields now db u id t body :
  db !! id = Some t →
  User.role u = RoleUser →
  Ticket.createdBy t = User._id u →
  Ticket.assignedTo t ≠ Some (User._id u) →
  update_validationResult body = [] →
  castable (UpdateBody.category body) →
  (∀ s, UpdateBody.subject body = Some s →
        (JS.string_length (Validator.trim s) ≤ 200)%nat) →
  ∃ t', put_ticket now db u id body = (Json 200 (Some t'), <[id := t']> db) ∧
        Ticket.status t' = Ticket.status t ∧
        Ticket.priority t' = Ticket.priority t ∧
        Ticket.assignedTo t' = Ticket.assignedTo t ∧
        (∀ s, UpdateBody.subject body = Some s → Ticket.subject t' = Validator.trim s) ∧
        (∀ s, UpdateBody.description body = Some s →
              Ticket.description t' = Validator.trim s).
Proof.
  intros Hl Hrole Hown Hna Hvalid Hcat Hlen.
  assert (isAgent u || isAdmin u || isAssigned u t = false) as Hno.
  { rewrite !orb_false_iff. split_and!.
    - unfold isAgent. by rewrite Hrole.
    - unfold isAdmin. by rewrite Hrole.
    - apply not_true_is_false. by rewrite isAssigned_spec. }
  eexists. split.
  { apply put_ticket_accepted; [done | by left | done | done | | done..].
    intros Hyes. congruence. }
  destruct (Ticket_store_fields now id t (updated u t (update_sanitize body)) db)
    as (-> & -> & _ & -> & -> & -> & _).
  apply update_validationResult_nil in Hvalid as (Hsub & Hdesc & _).
  destruct (updated_workflow_untouched u t (update_sanitize body) Hno) as (-> & -> & ->).
  split_and!; [done..| |].
  - intros s Hs. apply updated_subject; [simpl; by rewrite Hs|].
    eapply isLength_truthy. by apply Hsub.
  - intros s Hs. apply updated_description; [simpl; by rewrite Hs|].
    eapply isLength_truthy. by apply Hdesc.
Qed.

(** Alice edits her ticket and tries to close it, raise its priority
    and assign it to herself. *)
Lemma owner_update_keeps_workflow_fields_witness :
  Sample.db1 !! Sample.t1 = Some Sample.ticket1 ∧
  User.role Sample.alice = RoleUser ∧
  Ticket.createdBy Sample.ticket1 = User._id Sample.alice ∧
  Ticket.assignedTo Sample.ticket1 ≠ Some (User._id Sample.alice) ∧
  update_validationResult Sample.owner_edit = [] ∧
  castable (UpdateBody.category Sample.owner_edit) ∧
  (∀ s, UpdateBody.subject Sample.owner_edit = Some s →
        (JS.string_length (Validator.trim s) ≤ 200)%nat) ∧
  ∃ t', put_ticket 500 Sample.db1 Sample.alice Sample.t1 Sample.owner_edit =
          (Json 200 (Some t'), <[Sample.t1 := t']> Sample.db1) ∧
        Ticket.status t' = Ticket.status Sample.ticket1 ∧
        Ticket.priority t' = Ticket.priority Sample.ticket1 ∧
        Ticket.assignedTo t' = Ticket.assignedTo Sample.ticket1 ∧
        (∀ s, UpdateBody.subject Sample.owner_edit = Some s →
              Ticket.subject t' = Validator.trim s) ∧
        (∀ s, UpdateBody.description Sample.owner_edit = Some s →
              Ticket.description t' = Validator.trim s).
Proof.
  assert (Sample.db1 !! Sample.t1 = Some Sample.ticket1) as Hl
    by (vm_compute; reflexivity).
  assert (Ticket.assignedTo Sample.ticket1 ≠ Some (User._id Sample.alice)) as Hna
    by discriminate.
  assert (update_validationResult Sample.owner_edit = []) as Hvalid
    by (vm_compute; reflexivity).
  assert (castable (UpdateBody.category Sample.owner_edit)) as Hcat
    by (intros s Hs; discriminate Hs).
  assert (∀ s, UpdateBody.subject Sample.owner_edit = Some s →
               (JS.string_length (Validator.trim s) ≤ 200)%nat) as Hlen
    by (intros s Hs; injection Hs as <-; vm_compute; lia).
  split_and!; [exact Hl | reflexivity | reflexivity | exact Hna | exact Hvalid |
               exact Hcat | exact Hlen |].
  exact (owner_update_keeps_workflow_fields 500 Sample.db1 Sample.alice Sample.t1
           Sample.ticket1 Sample.owner_edit Hl eq_refl eq_refl Hna Hvalid Hcat Hlen).
Defined.

(** C1, as stated for every update request, fails: Alice, a plain user
    who owns ticket [t1] and is not its assignee, sends a subject
    together with a status that is not one of the four; the reply is the
    validation error and the subject she sent is not applied. It also
    fails on a value the schema refuses: the same subject sent with the
    category [hardware], which is no ObjectId, is answered 500 and
    nothing is applied. *)
Lemma owner_update_counterexample :
  Sample.db1 !! Sample.t1 = Some Sample.ticket1 ∧
  User.role Sample.alice = RoleUser ∧
  Ticket.createdBy Sample.ticket1 = User._id Sample.alice ∧
  Ticket.assignedTo Sample.ticket1 ≠ Some (User._id Sample.alice) ∧
  UpdateBody.subject Sample.invalid_status = Some "Printer on floor 3" ∧
  put_ticket 500 Sample.db1 Sample.alice Sample.t1 Sample.invalid_status =
    (Errors ["Invalid status"], Sample.db1) ∧
  ¬ (is_success (put_ticket 500 Sample.db1 Sample.alice Sample.t1 Sample.invalid_status).1 = true ∧
     ∃ t', (put_ticket 500 Sample.db1 Sample.alice Sample.t1 Sample.invalid_status).2
             !! Sample.t1 = Some t' ∧
           Ticket.subject t' = "Printer on floor 3") ∧
  UpdateBody.subject Sample.bad_category = Some "Printer on floor 3" ∧
  update_validationResult Sample.bad_category = [] ∧
  put_ticket 500 Sample.db1 Sample.alice Sample.t1 Sample.bad_category =
    (Message 500 "Server error", Sample.db1) ∧
  ¬ (∃ t', (put_ticket 500 Sample.db1 Sample.alice Sample.t1 Sample.bad_category).2
             !! Sample.t1 = Some t' ∧
           Ticket.subject t' = "Printer on floor 3").
Proof.
  split_and!; [by vm_compute | done | done | done | done | by vm_compute | |
               done | by vm_compute | by vm_compute |].
  - intros [Hok _]. vm_compute in Hok. done.
  - intros (t' & Hl & Hs). vm_compute in Hl. injection Hl as <-. done.
Qed.

(** C7 (amended). When the assignee of a ticket, being an agent, an
    admin, or the creator of the ticket, sends an update that passes the
    validators of the route and the validation of the schema (the
    [assignedTo] and the category of the body are each missing, empty
    or a string the schema casts to an ObjectId: twenty-four
    hexadecimal digits, or, for the category, twelve characters of one
    byte each; the trimmed subject has at most 200 code units), the
    update is accepted and the [status], [priority] and [assignedTo] of
    the body are the ones of the stored ticket, [assignedTo] as the
    ObjectId the value names: its digits in lower case. *)
Theorem assignee_update_applies_workflow_fields now db u id t body :
  db !! id = Some t →
  Ticket.assignedTo t = Some (User._id u) →
  (User.role u = RoleUser → Ticket.createdBy t = User._id u) →
  update_validationResult body = [] →
  castable (UpdateBody.assignedTo body) →
  castable (UpdateBody.category body) →
  (∀ s, UpdateBody.subject body = Some s →
        (JS.string_length (Validator.trim s) ≤ 200)%nat) →
  ∃ t', put_ticket now db u id body = (Json 200 (Some t'), <[id := t']> db) ∧
        (∀ s, UpdateBody.status body = Some s → Ticket.status t' = s) ∧
        (∀ s, UpdateBody.priority body = Some s → Ticket.priority t' = s) ∧
        (∀ s, UpdateBody.assignedTo body = Some s →
              Ticket.assignedTo t' = Some (lower_case s)).
Proof.
  intros Hl Hass Hown Hvalid Hto Hcat Hlen.
  eexists. split.
  { apply put_ticket_accepted; [done | right; by left | done..]. }
  assert (isAgent u || isAdmin u || isAssigned u t = true) as Hyes.
  { rewrite !orb_true_iff. right. by apply isAssigned_spec. }
  destruct (Ticket_store_fields now id t (updated u t (update_sanitize body)) db)
    as (_ & _ & _ & -> & -> & -> & _).
  apply update_validationResult_nil in Hvalid as (_ & _ & Hst & Hpr & Has).
  split_and!; intros s Hs.
  - apply updated_status; auto using isIn_status_truthy.
  - apply updated_priority; auto using isIn_priority_truthy.
  - apply updated_assignedTo; auto.
Qed.

(** Bob, the agent the ticket is assigned to, triages it. *)
Lemma assignee_update_applies_workflow_fields_witness :
  Sample.db1_bob !! Sample.t1 = Some Sample.ticket1_bob ∧
  Ticket.assignedTo Sample.ticket1_bob = Some (User._id Sample.bob) ∧
  (User.role Sample.bob = RoleUser →
   Ticket.createdBy Sample.ticket1_bob = User._id Sample.bob) ∧
  update_validationResult Sample.triage = [] ∧
  castable (UpdateBody.assignedTo Sample.triage) ∧
  castable (UpdateBody.category Sample.triage) ∧
  (∀ s, UpdateBody.subject Sample.triage = Some s →
        (JS.string_length (Validator.trim s) ≤ 200)%nat) ∧
  ∃ t', put_ticket 500 Sample.db1_bob Sample.bob Sample.t1 Sample.triage =
          (Json 200 (Some t'), <[Sample.t1 := t']> Sample.db1_bob) ∧
        (∀ s, UpdateBody.status Sample.triage = Some s → Ticket.status t' = s) ∧
        (∀ s, UpdateBody.priority Sample.triage = Some s → Ticket.priority t' = s) ∧
        (∀ s, UpdateBody.assignedTo Sample.triage = Some s →
              Ticket.assignedTo t' = Some (lower_case s)).
Proof.
  assert (Sample.db1_bob !! Sample.t1 = Some Sample.ticket1_bob) as Hl
    by (vm_compute; reflexivity).
  assert (User.role Sample.bob = RoleUser →
          Ticket.createdBy Sample.ticket1_bob = User._id Sample.bob) as Hown
    by discriminate.
  assert (update_validationResult Sample.triage = []) as Hvalid
    by (vm_compute; reflexivity).
  assert (castable (UpdateBody.assignedTo Sample.triage)) as Hto
    by (intros s Hs; injection Hs as <-; right; vm_compute; eauto).
  assert (castable (UpdateBody.category Sample.triage)) as Hcat
    by (intros s Hs; discriminate Hs).
  assert (∀ s, UpdateBody.subject Sample.triage = Some s →
               (JS.string_length (Validator.trim s) ≤ 200)%nat) as Hlen
    by (intros s Hs; discriminate Hs).
  split_and!; [exact Hl | reflexivity | exact Hown | exact Hvalid | exact Hto |
               exact Hcat | exact Hlen |].
  exact (assignee_update_applies_workflow_fields 500 Sample.db1_bob Sample.bob Sample.t1
           Sample.ticket1_bob Sample.triage Hl eq_refl Hown Hvalid Hto Hcat Hlen).
Defined.

(** C7, as stated for an assignee of any role, fails: Dave, a plain
    user to whom Alice's ticket is assigned, asks for the status
    [resolved]; the route answers 403 and the status stays [open]. It
    also fails on a value the validators refuse: Bob, the assigned
    agent, asks for the status [done]; and on a value the schema
    refuses: Bob asks for the status [resolved] and the category
    [hardware], which is no ObjectId, or an assignee that [isMongoId]
    lets through and the schema cannot cast; the route answers 500 and
    the status stays [open]. *)
Lemma assignee_update_counterexample :
  (Sample.db1_dave !! Sample.t1 = Some Sample.ticket1_dave ∧
   Ticket.assignedTo Sample.ticket1_dave = Some (User._id Sample.dave) ∧
   put_ticket 500 Sample.db1_dave Sample.dave Sample.t1 (Sample.set_status "resolved") =
     (Message 403 "Not authorized to update this ticket", Sample.db1_dave) ∧
   ¬ ∃ t', (put_ticket 500 Sample.db1_dave Sample.dave Sample.t1
              (Sample.set_status "resolved")).2 !! Sample.t1 = Some t' ∧
           Ticket.status t' = "resolved") ∧
  (Sample.db1_bob !! Sample.t1 = Some Sample.ticket1_bob ∧
   Ticket.assignedTo Sample.ticket1_bob = Some (User._id Sample.bob) ∧
   put_ticket 500 Sample.db1_bob Sample.bob Sample.t1 (Sample.set_status "done") =
     (Errors ["Invalid status"], Sample.db1_bob) ∧
   ¬ ∃ t', (put_ticket 500 Sample.db1_bob Sample.bob Sample.t1
              (Sample.set_status "done")).2 !! Sample.t1 = Some t' ∧
           Ticket.status t' = "done") ∧
  (Sample.db1_bob !! Sample.t1 = Some Sample.ticket1_bob ∧
   Ticket.assignedTo Sample.ticket1_bob = Some (User._id Sample.bob) ∧
   put_ticket 500 Sample.db1_bob Sample.bob Sample.t1 Sample.resolve_bad_category =
     (Message 500 "Server error", Sample.db1_bob) ∧
   ¬ ∃ t', (put_ticket 500 Sample.db1_bob Sample.bob Sample.t1
              Sample.resolve_bad_category).2 !! Sample.t1 = Some t' ∧
           Ticket.status t' = "resolved") ∧
  (update_validationResult Sample.resolve_prefixed_assignee = [] ∧
   put_ticket 500 Sample.db1_bob Sample.bob Sample.t1 Sample.resolve_prefixed_assignee =
     (Message 500 "Server error", Sample.db1_bob) ∧
   ¬ ∃ t', (put_ticket 500 Sample.db1_bob Sample.bob Sample.t1
              Sample.resolve_prefixed_assignee).2 !! Sample.t1 = Some t' ∧
           Ticket.status t' = "resolved").
Proof.
  split_and!; try done; try by vm_compute.
  all: intros (t' & Hl & Hs); vm_compute in Hl; injection Hl as <-; done.
Qed.

(** ** The stamps [resolvedAt] and [closedAt] *)

Lemma ticket_run_keeps rs : ∀ db id t,
  db !! id = Some t →
  ∃ t', ticket_run db rs !! id = Some t' ∧ evolves t t'.
Proof.
  induction rs as [|[i r] rs IH]; intros db id t Hl; simpl.
  - eauto using evolves_refl.
  - destruct (effect_keeps db i (ticket_step db i r) id t) as (t1 & Hl1 & Hev1);
      [apply ticket_step_effect | done |].
    destruct (IH _ _ _ Hl1) as (t' & Hl' & Hev').
    eauto using evolves_trans.
Qed.

(** C3. A ticket whose [resolvedAt] (respectively [closedAt]) is set
    keeps that very stamp through every sequence of requests to tickets
    (updates that change the status in any order, comments, votes): the
    ticket is still there and the stamp is neither cleared nor replaced. *)
Theorem stamps_are_never_changed db id t rs :
  db !! id = Some t →
  ∃ t', ticket_run db rs !! id = Some t' ∧
        (∀ x, Ticket.resolvedAt t = Some x → Ticket.resolvedAt t' = Some x) ∧
        (∀ x, Ticket.closedAt t = Some x → Ticket.closedAt t' = Some x).
Proof.
  intros Hl. destruct (ticket_run_keeps rs db id t Hl) as (t' & Hl' & _ & Hr & Hc & _).
  eauto.
Qed.

(** The ticket resolved at 300 is reopened, resolved, closed and resolved
    again: [resolvedAt] is still 300. *)
Lemma stamps_are_never_changed_witness :
  Sample.db1_resolved !! Sample.t1 = Some Sample.ticket1_resolved ∧
  ∃ t', ticket_run Sample.db1_resolved Sample.cycle !! Sample.t1 = Some t' ∧
        (∀ x, Ticket.resolvedAt Sample.ticket1_resolved = Some x →
              Ticket.resolvedAt t' = Some x) ∧
        (∀ x, Ticket.closedAt Sample.ticket1_resolved = Some x →
              Ticket.closedAt t' = Some x).
Proof.
  assert (Sample.db1_resolved !! Sample.t1 = Some Sample.ticket1_resolved) as Hl
    by (vm_compute; reflexivity).
  split; [exact Hl|].
  exact (stamps_are_never_changed Sample.db1_resolved Sample.t1
           Sample.ticket1_resolved Sample.cycle Hl).
Defined.

(** An agent or an admin moves a ticket that was never resolved
    (respectively closed) into that status, with an update that the
    validators and the schema let through: the stamp is the time of the
    request. *)
Lemma first_transition_is_stamped now db u id t body s :
  db !! id = Some t →
  User.role u = RoleAgent ∨ User.role u = RoleAdmin →
  update_validationResult body = [] →
  castable (UpdateBody.assignedTo body) →
  castable (UpdateBody.category body) →
  (∀ s, UpdateBody.subject body = Some s →
        (JS.string_length (Validator.trim s) ≤ 200)%nat) →
  UpdateBody.status body = Some s → Ticket.status t ≠ s →
  ∃ t', (put_ticket now db u id body).2 !! id = Some t' ∧
        Ticket.status t' = s ∧
        (s = "resolved" → Ticket.resolvedAt t = None → Ticket.resolvedAt t' = Some now) ∧
        (s = "closed" → Ticket.closedAt t = None → Ticket.closedAt t' = Some now).
Proof.
  intros Hl Hrole Hvalid Hto Hcat Hlen Hs Hne.
  assert (can_read u t) as Hread by (unfold can_read; tauto).
  rewrite (put_ticket_accepted now db u id t body Hl Hread Hvalid)
    by (done || intros Hu; destruct Hrole; congruence).
  cbn [snd]. rewrite lookup_insert_eq. eexists. split; [done|].
  assert (isAgent u || isAdmin u || isAssigned u t = true) as Hyes.
  { rewrite !orb_true_iff, role_is_agent, role_is_admin. tauto. }
  assert (Ticket.status (updated u t (update_sanitize body)) = s) as Hst.
  { apply updated_status; [done..|].
    apply isIn_status_truthy.
    by apply update_validationResult_nil in Hvalid as (_ & _ & Hv & _); apply Hv. }
  destruct (updated_stamps u t (update_sanitize body)) as [Hr Hc].
  destruct (Ticket_store_fields now id t (updated u t (update_sanitize body)) db)
    as (_ & _ & _ & Hst' & _).
  split_and!.
  - by rewrite Hst'.
  - intros -> Hnone. apply Ticket_store_resolves; congruence.
  - intros -> Hnone. apply Ticket_store_closes; congruence.
Qed.

(** ** Internal comments *)






(** ** Voting: the two arrays of a ticket never share a user *)

Lemma effect_votes_wf db id db' :
  effect db id db' → all_votes_wf db → all_votes_wf db'.
Proof.
  intros Heff Hwf id' t' Hl.
  destruct (effect_lookup _ _ _ _ _ Heff Hl) as (t & Ht & _ & _ & _ & Hw).
  apply Hw. by apply (Hwf id').
Qed.

Lemma post_ticket_votes_wf now newId cats db u body :
  all_votes_wf db → all_votes_wf (post_ticket now newId cats db u body).2.
Proof.
  intros Hwf. unfold post_ticket.
  destruct (negb (bool_decide (create_validationResult body = []))); [done|].
  destruct (ObjectId_cast _) as [category|]; [|done].
  destruct (cats !! _) as [c|]; [|done].
  destruct (negb (Category.isActive c)); [done|].
  cbv zeta.
  match goal with |- context [if ?b then (Message 500 _, db) else _] => destruct b end;
    [done|].
  simpl. apply map_Forall_insert_2; [|done].
  unfold votes_wf. simpl. split_and!; [constructor..|].
  intros x Hx. by apply not_elem_of_nil in Hx.
Qed.

Lemma delete_ticket_votes_wf db u id :
  all_votes_wf db → all_votes_wf (delete_ticket db u id).2.
Proof.
  intros Hwf. unfold delete_ticket, Ticket_findById.
  destruct (authorize ["admin"] u) as [[code message]|]; [done|].
  destruct (db !! id); [|done].
  by apply map_Forall_delete.
Qed.

Lemma step_votes_wf cats db r : all_votes_wf db → all_votes_wf (step cats db r).
Proof.
  destruct r; simpl.
  - apply post_ticket_votes_wf.
  - apply effect_votes_wf with (id := id), ticket_step_effect.
  - apply delete_ticket_votes_wf.
Qed.

Lemma run_votes_wf cats rs : ∀ db, all_votes_wf db → all_votes_wf (run cats db rs).
Proof.
  induction rs as [|r rs IH]; intros db Hwf; simpl; [done|].
  apply IH. by apply step_votes_wf.
Qed.

(** C2. Whatever requests the service has answered since the collection
    was empty (tickets created, updated, commented, deleted, and votes
    of any direction by any user), no user id is in both the upvotes and
    the downvotes of a ticket of the collection. *)
Theorem vote_sets_stay_disjoint cats db id t uid :
  reachable cats db → db !! id = Some t →
  ¬ (uid ∈ Ticket.upvotes t ∧ uid ∈ Ticket.downvotes t).
Proof.
  intros [rs ->] Hl [Hup Hdn].
  assert (all_votes_wf (run cats ∅ rs)) as Hwf.
  { apply run_votes_wf. apply map_Forall_empty. }
  destruct (Hwf id t Hl) as (_ & _ & Hdis). by apply (Hdis uid).
Qed.

(** After the votes of [Sample.db1_voted], Bob is in the downvotes of
    the ticket and not in both arrays. *)
Lemma vote_sets_stay_disjoint_witness :
  reachable Sample.cats Sample.db1_voted ∧
  Sample.db1_voted !! Sample.t1 = Some Sample.ticket1_voted ∧
  ¬ (User._id Sample.bob ∈ Ticket.upvotes Sample.ticket1_voted ∧
     User._id Sample.bob ∈ Ticket.downvotes Sample.ticket1_voted).
Proof.
  assert (reachable Sample.cats Sample.db1_voted) as Hreach by (eexists; reflexivity).
  assert (Sample.db1_voted !! Sample.t1 = Some Sample.ticket1_voted) as Hl
    by (vm_compute; reflexivity).
  split_and!; [exact Hreach | exact Hl |].
  exact (vote_sets_stay_disjoint Sample.cats Sample.db1_voted Sample.t1
           Sample.ticket1_voted (User._id Sample.bob) Hreach Hl).
Defined.

(** ** Voting twice *)

(** The vote route, for a direction: the array of that direction is
    toggled; the user leaves the other array when the vote is new. *)
Lemma post_vote_arrays now db u id t up :
  db !! id = Some t →
  let uid := User._id u in
  let i := JS.findIndex (λ i, String.eqb i uid) (voters up t) in
  let j := JS.findIndex (λ i, String.eqb i uid) (voters (negb up) t) in
  ∃ d', (post_vote now db u id (Some (vote_name up))).2 = <[id := d']> db ∧
        voters up d' = toggle uid (voters up t) ∧
        voters (negb up) d' =
          (if -1 <? i then voters (negb up) t
           else if -1 <? j then JS.splice1 j (voters (negb up) t)
           else voters (negb up) t).
Proof.
  intros Hl. cbv zeta. unfold post_vote, Ticket_findById. rewrite Hl. cbv zeta.
  unfold toggle.
  destruct up; simpl voters; simpl vote_name; simpl bool_decide;
    cbv beta iota.
  - destruct (-1 <? JS.findIndex _ (Ticket.upvotes t)) eqn:Hi.
    + rewrite Ticket_save_valid by (by apply Ticket_validate_same). rewrite Ticket_store_eq. cbn [snd]. eexists. split; [done|].
      match goal with
      | |- context [Ticket_store now id t ?d db] =>
          destruct (Ticket_store_fields now id t d db) as (_ & _ & _ & _ & _ & _ & _ & -> & ->)
      end. done.
    + destruct (-1 <? JS.findIndex _ (Ticket.downvotes t)) eqn:Hj;
        rewrite Ticket_save_valid by (by apply Ticket_validate_same); rewrite Ticket_store_eq; cbn [snd]; (eexists; split; [done|]);
        match goal with
        | |- context [Ticket_store now id t ?d db] =>
            destruct (Ticket_store_fields now id t d db) as (_ & _ & _ & _ & _ & _ & _ & -> & ->)
        end; done.
  - destruct (-1 <? JS.findIndex _ (Ticket.downvotes t)) eqn:Hj.
    + rewrite Ticket_save_valid by (by apply Ticket_validate_same). rewrite Ticket_store_eq. cbn [snd]. eexists. split; [done|].
      match goal with
      | |- context [Ticket_store now id t ?d db] =>
          destruct (Ticket_store_fields now id t d db) as (_ & _ & _ & _ & _ & _ & _ & -> & ->)
      end. done.
    + destruct (-1 <? JS.findIndex _ (Ticket.upvotes t)) eqn:Hi;
        rewrite Ticket_save_valid by (by apply Ticket_validate_same); rewrite Ticket_store_eq; cbn [snd]; (eexists; split; [done|]);
        match goal with
        | |- context [Ticket_store now id t ?d db] =>
            destruct (Ticket_store_fields now id t d db) as (_ & _ & _ & _ & _ & _ & _ & -> & ->)
        end; done.
Qed.

(** Toggling twice gives back the same elements, the user's id possibly
    moved to the end. *)
Lemma toggle_twice uid (l : list ObjectId) :
  NoDup l → toggle uid (toggle uid l) ≡ₚ l.
Proof.
  intros Hnd. unfold toggle at 2.
  destruct (findIndex_user uid l) as [[-> Hn] | (l1 & l2 & -> & Hn1 & -> & ->)].
  - simpl. unfold toggle, JS.push.
    destruct (findIndex_user uid (l ++ [uid]))
      as [[_ Hn'] | (k1 & k2 & Heq & Hk1 & -> & ->)].
    { destruct Hn'. apply elem_of_app. right. by left. }
    destruct (Z.ltb_spec (-1) (Z.of_nat (length k1))) as [_|?]; [|lia].
    apply (Permutation_cons_inv (a := uid)).
    rewrite Permutation_middle, <- Heq. apply Permutation_app_comm.
  - destruct (Z.ltb_spec (-1) (Z.of_nat (length l1))) as [_|?]; [|lia].
    apply NoDup_app in Hnd as (_ & _ & [Hn2 _]%NoDup_cons).
    unfold toggle. rewrite findIndex_absent.
    + simpl. unfold JS.push. rewrite <- app_assoc.
      apply Permutation_app_head. apply (Permutation_app_comm l2 [uid]).
    + intros [?|?]%elem_of_app; done.
Qed.

Lemma first_occurrence_unique {A} (x : A) (l1 l2 k1 k2 : list A) :
  l1 ++ x :: l2 = k1 ++ x :: k2 → x ∉ l1 → x ∉ k1 → l1 = k1 ∧ l2 = k2.
Proof.
  revert k1. induction l1 as [|a l1 IH]; intros [|b k1] Heq Hl Hk; simpl in *.
  - by injection Heq as ->.
  - injection Heq as -> _. destruct Hk. by left.
  - injection Heq as -> _. destruct Hl. by left.
  - injection Heq as -> Heq.
    apply not_elem_of_cons in Hl as [_ Hl], Hk as [_ Hk].
    by destruct (IH k1 Heq Hl Hk) as [-> ->].
Qed.

(** Toggling twice, exactly: an array without the user's id is the same
    again; in an array with it, the id has moved to the end and the
    others have kept their order. *)
Lemma toggle_twice_shape uid (l : list ObjectId) :
  NoDup l →
  (uid ∉ l → toggle uid (toggle uid l) = l) ∧
  (∀ l1 l2, l = l1 ++ uid :: l2 → toggle uid (toggle uid l) = l1 ++ l2 ++ [uid]).
Proof.
  intros Hnd. split.
  - intros Hn. unfold toggle at 2. rewrite (findIndex_absent _ _ Hn). simpl.
    unfold toggle, JS.push.
    destruct (findIndex_user uid (l ++ [uid]))
      as [[_ Hn'] | (k1 & k2 & Heq & Hk1 & -> & ->)].
    { destruct Hn'. apply elem_of_app. right. by left. }
    destruct (Z.ltb_spec (-1) (Z.of_nat (length k1))) as [_|?]; [|lia].
    destruct (first_occurrence_unique uid l [] k1 k2 Heq Hn Hk1) as [<- <-].
    apply app_nil_r.
  - intros l1 l2 ->.
    apply NoDup_app in Hnd as (_ & Hn1 & [Hn2 _]%NoDup_cons).
    assert (uid ∉ l1) as Hl1.
    { intros Hin. apply (Hn1 uid Hin). by left. }
    unfold toggle at 2.
    destruct (findIndex_user uid (l1 ++ uid :: l2))
      as [[_ Hn'] | (k1 & k2 & Heq & Hk1 & -> & ->)].
    { destruct Hn'. apply elem_of_app. right. by left. }
    destruct (Z.ltb_spec (-1) (Z.of_nat (length k1))) as [_|?]; [|lia].
    destruct (first_occurrence_unique uid l1 l2 k1 k2 Heq Hl1 Hk1) as [<- <-].
    unfold toggle. rewrite findIndex_absent.
    + simpl. unfold JS.push. by rewrite <- app_assoc.
    + intros [?|?]%elem_of_app; done.
Qed.

(** C6 (amended). In a collection the service can reach, when a user
    who is not in the array of the opposite direction votes twice in a
    row in one direction on a ticket, the array of that direction ends
    with the elements it had, each once: it is the array it was when
    the user's id was not in it, and otherwise the user's id is now the
    last, the other ids in the order they had; the array of the
    opposite direction is the one it was. *)
Theorem double_vote_restores_sets cats db now1 now2 u id t up :
  reachable cats db → db !! id = Some t →
  User._id u ∉ voters (negb up) t →
  let voteType := Some (vote_name up) in
  ∃ t2, (post_vote now2 (post_vote now1 db u id voteType).2 u id voteType).2 !! id = Some t2 ∧
        voters up t2 ≡ₚ voters up t ∧
        (User._id u ∉ voters up t → voters up t2 = voters up t) ∧
        (∀ l1 l2, voters up t = l1 ++ User._id u :: l2 →
                  voters up t2 = l1 ++ l2 ++ [User._id u]) ∧
        voters (negb up) t2 = voters (negb up) t.
Proof.
  intros [rs ->] Hl Hopp. cbv zeta.
  assert (NoDup (voters up t)) as Hnd.
  { assert (all_votes_wf (run cats ∅ rs)) as Hwf
      by (apply run_votes_wf, map_Forall_empty).
    destruct (Hwf id t Hl) as (Hu & Hd & _). by destruct up. }
  destruct (post_vote_arrays now1 _ u id t up Hl) as (d1 & -> & Hm1 & Ho1).
  rewrite (findIndex_absent _ _ Hopp) in Ho1.
  assert (voters (negb up) d1 = voters (negb up) t) as Ho1'.
  { rewrite Ho1.
    match goal with |- (if ?b then _ else _) = _ => destruct b end; reflexivity. }
  destruct (post_vote_arrays now2 (<[id := d1]> (run cats ∅ rs)) u id d1 up)
    as (d2 & -> & Hm2 & Ho2); [by rewrite lookup_insert_eq|].
  rewrite Ho1' in Ho2. rewrite (findIndex_absent _ _ Hopp) in Ho2.
  exists d2. rewrite lookup_insert_eq. split_and!; [done| | | |].
  - rewrite Hm2, Hm1. by apply toggle_twice.
  - rewrite Hm2, Hm1. by apply toggle_twice_shape.
  - rewrite Hm2, Hm1. by apply toggle_twice_shape.
  - rewrite Ho2.
    match goal with |- (if ?b then _ else _) = _ => destruct b end; reflexivity.
Qed.

(** Bob, who has voted the ticket up, votes it up twice more. *)
Lemma double_vote_restores_sets_witness :
  reachable Sample.cats Sample.db1_up ∧
  Sample.db1_up !! Sample.t1 = Some Sample.ticket1_up ∧
  (User._id Sample.bob ∉ voters false Sample.ticket1_up) ∧
  ∃ t2, (post_vote 140 (post_vote 130 Sample.db1_up Sample.bob Sample.t1
                          (Some "upvote")).2
                   Sample.bob Sample.t1 (Some "upvote")).2 !! Sample.t1 = Some t2 ∧
        voters true t2 ≡ₚ voters true Sample.ticket1_up ∧
        (User._id Sample.bob ∉ voters true Sample.ticket1_up →
         voters true t2 = voters true Sample.ticket1_up) ∧
        (∀ l1 l2, voters true Sample.ticket1_up = l1 ++ User._id Sample.bob :: l2 →
                  voters true t2 = l1 ++ l2 ++ [User._id Sample.bob]) ∧
        voters false t2 = voters false Sample.ticket1_up.
Proof.
  assert (reachable Sample.cats Sample.db1_up) as Hreach by (eexists; reflexivity).
  assert (Sample.db1_up !! Sample.t1 = Some Sample.ticket1_up) as Hl
    by (vm_compute; reflexivity).
  assert (User._id Sample.bob ∉ voters false Sample.ticket1_up) as Hopp
    by apply not_elem_of_nil.
  split_and!; [exact Hreach | exact Hl | exact Hopp |].
  exact (double_vote_restores_sets Sample.cats Sample.db1_up 130 140 Sample.bob
           Sample.t1 Sample.ticket1_up true Hreach Hl Hopp).
Defined.

(** C6, as stated for every user, fails: Alice has voted ticket [t1]
    down; she then votes it up twice. The upvotes are empty again, but
    she is no longer among the downvotes. *)
Lemma double_vote_counterexample :
  reachable Sample.cats Sample.db1_down ∧
  Sample.db1_down !! Sample.t1 = Some Sample.ticket1_down ∧
  ∃ t2, (post_vote 140 (post_vote 130 Sample.db1_down Sample.alice Sample.t1
                          (Some "upvote")).2
                   Sample.alice Sample.t1 (Some "upvote")).2 !! Sample.t1 = Some t2 ∧
        Ticket.upvotes t2 = [] ∧ Ticket.downvotes t2 = [] ∧
        Ticket.downvotes Sample.ticket1_down = [User._id Sample.alice] ∧
        ¬ (∀ x, x ∈ Ticket.downvotes t2 ↔ x ∈ Ticket.downvotes Sample.ticket1_down).
Proof.
  split_and!; [by eexists | by vm_compute |].
  eexists. split; [by vm_compute|].
  split_and!; [done..|].
  intros H. specialize (H (User._id Sample.alice)). simpl in H.
  destruct H as [_ H]. specialize (H (list_elem_of_here _ _)).
  by apply not_elem_of_nil in H.
Qed.

(** ** A vote of no direction *)

(** C10. On a ticket that exists, a vote whose [voteType] is neither
    [upvote] nor [downvote] (or is missing) is answered 400 "Invalid
    vote type", and the collection, hence every field of the ticket, is
    left as it was. *)
Theorem invalid_vote_is_rejected now db u id t voteType :
  db !! id = Some t →
  voteType ≠ Some "upvote" → voteType ≠ Some "downvote" →
  post_vote now db u id voteType = (Message 400 "Invalid vote type", db) ∧
  is_validation_error (post_vote now db u id voteType).1 = true ∧
  (post_vote now db u id voteType).2 !! id = Some t.
Proof.
  intros Hl Hup Hdn. unfold post_vote, Ticket_findById. rewrite Hl.
  rewrite !bool_decide_eq_false_2 by done. done.
Qed.

Lemma invalid_vote_is_rejected_witness :
  Sample.db1 !! Sample.t1 = Some Sample.ticket1 ∧
  Some "sideways" ≠ Some "upvote" ∧ Some "sideways" ≠ Some "downvote" ∧
  post_vote 500 Sample.db1 Sample.bob Sample.t1 (Some "sideways") =
    (Message 400 "Invalid vote type", Sample.db1) ∧
  is_validation_error (post_vote 500 Sample.db1 Sample.bob Sample.t1 (Some "sideways")).1
    = true ∧
  (post_vote 500 Sample.db1 Sample.bob Sample.t1 (Some "sideways")).2 !! Sample.t1
    = Some Sample.ticket1.
Proof.
  assert (Sample.db1 !! Sample.t1 = Some Sample.ticket1) as Hl
    by (vm_compute; reflexivity).
  assert (Some "sideways" ≠ Some "upvote") as Hup by discriminate.
  assert (Some "sideways" ≠ Some "downvote") as Hdn by discriminate.
  split_and!; [exact Hl | exact Hup | exact Hdn | ..];
    apply (invalid_vote_is_rejected 500 Sample.db1 Sample.bob Sample.t1
             Sample.ticket1 (Some "sideways") Hl Hup Hdn).
Defined.

(** ** The list of tickets of a plain user *)

(** C4. The page GET /api/tickets returns to a plain user is not
    confined to the tickets that user created: the [createdBy] parameter
    of the request replaces the condition the route had set from the
    role. Dave, a plain user, asks for the tickets created by Alice and
    is given Alice's ticket. *)
Theorem list_scope_is_overridden_by_createdBy :
  User.role Sample.dave = RoleUser ∧
  Sample.db2 !! Sample.t1 = Some Sample.ticket1 ∧
  Sample.db2 !! Sample.t2 = Some Sample.ticket2 ∧
  list_query Sample.dave Sample.created_by_alice =
    Filter.mk (Some (User._id Sample.alice)) None None None None None ∧
  get_tickets Sample.db2 Sample.dave Sample.created_by_alice =
    Some (Json 200 (ListReply.mk [(Sample.t1, Sample.ticket1)] (Some 1) 1 1), Sample.db2) ∧
  Ticket.createdBy Sample.ticket1 ≠ User._id Sample.dave.
Proof.
  split_and!; [done | by vm_compute | by vm_compute | done | by vm_compute | done].
Qed.

Lemma filter_if_truthy_createdBy v set query :
  (∀ s q, Filter.createdBy (set s q) = Filter.createdBy q) →
  Filter.createdBy (filter_if_truthy v set query) = Filter.createdBy query.
Proof. intros Hset. unfold filter_if_truthy. destruct (JS.truthy v); auto. Qed.

Lemma list_query_scope u q :
  User.role u = RoleUser → JS.truthy (ListQuery.createdBy q) = false →
  Filter.createdBy (list_query u q) = Some (User._id u).
Proof.
  intros Hrole Hnone. unfold list_query. rewrite Hrole. simpl.
  rewrite filter_if_truthy_createdBy by done.
  unfold filter_if_truthy at 1. rewrite Hnone.
  by rewrite !filter_if_truthy_createdBy.
Qed.

Lemma compile_createdBy query selects d uid :
  Filter.compile query = Some selects → Filter.createdBy query = Some uid →
  selects d = true → Ticket.createdBy d = uid.
Proof.
  unfold Filter.compile. intros Hc Hq.
  destruct (match Filter.or_regex query with
            | Some p => Some <$> Regex.parse p
            | None => Some None
            end) as [re|]; [|done].
  simpl in Hc. injection Hc as <-. rewrite Hq. simpl.
  rewrite !andb_true_iff. intros [[[[[Hcr _] _] _] _] _].
  apply bool_decide_eq_true in Hcr. congruence.
Qed.

(** The cast of a query keeps its conditions, each reference read as
    the ObjectId it names. *)
Lemma cast_cond_Some cond v o :
  Filter.cast_cond cond = Some o → cond = Some v →
  ∃ oid, ObjectId_cast v = Some oid ∧ o = Some oid.
Proof.
  intros Hc ->. simpl in Hc. destruct (ObjectId_cast v) as [oid|]; [|done].
  injection Hc as <-. eauto.
Qed.

Lemma Filter_cast_fields q q' :
  Filter.cast q = Some q' →
  Filter.cast_cond (Filter.createdBy q) = Some (Filter.createdBy q') ∧
  Filter.cast_cond (Filter.assignedTo q) = Some (Filter.assignedTo q') ∧
  Filter.cast_cond (Filter.category q) = Some (Filter.category q') ∧
  Filter.status q' = Filter.status q ∧
  Filter.priority q' = Filter.priority q ∧
  Filter.or_regex q' = Filter.or_regex q.
Proof.
  unfold Filter.cast.
  destruct (Filter.cast_cond (Filter.createdBy q)) as [c|]; [|done].
  destruct (Filter.cast_cond (Filter.assignedTo q)) as [a|]; [|done].
  destruct (Filter.cast_cond (Filter.category q)) as [g|]; [|done].
  simpl. by intros [= <-].
Qed.

(** The page the list route returns, read on the collection. *)
Lemma get_tickets_page db u q code r db' :
  get_tickets db u q = Some (Json code r, db') →
  ∃ query selects sorted,
    Filter.cast (list_query u q) = Some query ∧
    Filter.compile query = Some selects ∧
    sorted ≡ₚ filter (λ doc, Is_true (selects doc.2)) (map_to_list db) ∧
    db' = db ∧
    0 ≤ (default 1 (ListQuery.page q) - 1) * default 10 (ListQuery.limit q) ∧
    ListReply.total r = Z.of_nat (length sorted) ∧
    ListReply.tickets r =
      (let skipped :=
         drop (Z.to_nat ((default 1 (ListQuery.page q) - 1) *
                         default 10 (ListQuery.limit q))) sorted in
       if default 10 (ListQuery.limit q) =? 0 then skipped
       else take (Z.to_nat (Z.abs (default 10 (ListQuery.limit q)))) skipped).
Proof.
  unfold get_tickets.
  destruct (Filter.cast (list_query u q)) as [query|] eqn:Hq; [|done].
  destruct (Filter.compile query) as [selects|] eqn:Hc; [|done]. simpl.
  destruct (sort_docs _ _ _) as [sorted|] eqn:Hsort; [|done]. simpl.
  destruct (Z.ltb_spec ((default 1 (ListQuery.page q) - 1) *
                        default 10 (ListQuery.limit q)) 0) as [?|Hskip]; [done|].
  intros [= <- <- <-]. simpl.
  unfold sort_docs in Hsort. destruct (forallb _ _); [|done].
  injection Hsort as <-.
  exists query, selects, (merge_sort
    (sort_le (default "createdAt" (ListQuery.sortBy q))
       (if String.eqb (default "desc" (ListQuery.sortOrder q)) "desc" then -1 else 1))
    (filter (λ doc, Is_true (selects doc.2)) (map_to_list db))).
  split_and!; [done | done | apply merge_sort_Permutation | done | done | | done].
  by rewrite merge_sort_Permutation.
Qed.

(** A ticket of the page is a stored ticket the query selects. *)
Lemma page_membership db u q code r db' doc :
  get_tickets db u q = Some (Json code r, db') → doc ∈ ListReply.tickets r →
  ∃ query selects,
    Filter.cast (list_query u q) = Some query ∧
    Filter.compile query = Some selects ∧
    selects doc.2 = true ∧ db !! doc.1 = Some doc.2.
Proof.
  intros Hget Hin.
  destruct (get_tickets_page db u q code r db' Hget)
    as (query & selects & sorted & Hq & Hc & Hperm & _ & _ & _ & Hpage).
  exists query, selects. split_and!; [done..| |].
  all: assert (doc ∈ sorted) as Hin'
    by (rewrite Hpage in Hin; cbv zeta in Hin;
        destruct (_ =? 0);
        [by eapply subseteq_drop | by eapply subseteq_drop, subseteq_take]).
  all: rewrite Hperm in Hin'; apply list_elem_of_filter in Hin' as [Hsel Hdoc].
  all: destruct doc as [i d].
  - by apply Is_true_true.
  - by apply elem_of_map_to_list.
Qed.

(** Without a [createdBy] parameter, the page of a plain user, whose
    [_id] is an ObjectId, holds stored tickets that this user
    created. *)
Lemma list_scope_without_createdBy db u q code r db' doc :
  User.role u = RoleUser → is_ObjectId (User._id u) →
  JS.truthy (ListQuery.createdBy q) = false →
  get_tickets db u q = Some (Json code r, db') →
  doc ∈ ListReply.tickets r →
  db !! doc.1 = Some doc.2 ∧ Ticket.createdBy doc.2 = User._id u.
Proof.
  intros Hrole Hid Hnone Hget Hin.
  destruct (page_membership db u q code r db' doc Hget Hin)
    as (query & selects & Hq & Hc & Hsel & Hl).
  split; [done|].
  eapply compile_createdBy; [done | | done].
  apply Filter_cast_fields in Hq as (Hcr & _).
  destruct (cast_cond_Some _ (User._id u) _ Hcr) as (oid & Hoid & ->);
    [by apply list_query_scope|].
  rewrite Hid in Hoid. by injection Hoid as <-.
Qed.

(** ** The name of a new category *)

(** C9. POST /api/categories reads the requested name as a regular
    expression: with the single category [abc] stored, the admin's
    request for the name [a.c] is refused as a duplicate, although no
    stored name equals [a.c] up to case. *)
Theorem category_name_is_read_as_a_pattern :
  post_category 3 Sample.next_category Sample.cats_abc Sample.carol
                (CategoryBody.mk (Some "a.c") None None) =
    Some (Message 400 "Category already exists", Sample.cats_abc) ∧
  ∀ id c, Sample.cats_abc !! id = Some c →
          same_name_ignoring_case (Category.name c) "a.c" = false.
Proof.
  split; [by vm_compute|].
  unfold Sample.cats_abc. intros id c [_ <-]%lookup_singleton_Some. done.
Qed.

Lemma list_ascii_of_string_app (a b : string) :
  list_ascii_of_string (a +:+ b) = list_ascii_of_string a ++ list_ascii_of_string b.
Proof. induction a as [|c a IH]; simpl; [done|]. by rewrite IH. Qed.

Lemma parse_atoms_plain (l : list ascii) :
  Forall (λ c, Regex.is_meta c = false) l →
  mapM Regex.parse_atom l = Some (Regex.Lit <$> l).
Proof.
  induction 1 as [|c l Hc _ IH]; [done|].
  simpl. rewrite IH. unfold Regex.parse_atom.
  destruct (Ascii.eqb_spec c ".") as [->|_]; [done|].
  by rewrite Hc.
Qed.

Lemma parse_anchored_plain (name : string) :
  Forall (λ c, Regex.is_meta c = false) (list_ascii_of_string name) →
  Regex.parse ("^" +:+ name +:+ "$") =
    Some (Regex.mk true (Regex.Lit <$> list_ascii_of_string name) true).
Proof.
  intros Hplain. unfold Regex.parse.
  rewrite !list_ascii_of_string_app. simpl list_ascii_of_string at 1 3.
  cbn [app]. rewrite rev_unit, rev_involutive.
  by rewrite parse_atoms_plain.
Qed.

Lemma match_here_plain (cs s : list ascii) :
  Regex.match_here true (Regex.Lit <$> cs) s =
  if bool_decide (Regex.fold_case <$> take (length cs) s = Regex.fold_case <$> cs)
  then Some (drop (length cs) s) else None.
Proof.
  revert s. induction cs as [|c cs IH]; intros s; simpl.
  - done.
  - destruct s as [|x s]; simpl; [done|].
    destruct (Ascii.eqb_spec (Regex.fold_case c) (Regex.fold_case x)) as [Heq|Hne].
    + rewrite IH. repeat case_bool_decide; try done; exfalso.
      * match goal with H : _ ≠ _ |- _ => apply H end. rewrite Heq. f_equal. assumption.
      * match goal with H : _ ≠ _ |- _ => apply H end.
        match goal with H : _ :: _ = _ :: _ |- _ => injection H as _ H'; exact H' end.
    + rewrite bool_decide_eq_false_2; [done|]. intros [= ? ?]. congruence.
Qed.

(** On a subject without newline, the anchored pattern of a plain name
    tests equality up to case. *)
Lemma test_anchored_plain (name s : string) :
  Regex.newline ∉ list_ascii_of_string s →
  Regex.test true (Regex.mk true (Regex.Lit <$> list_ascii_of_string name) true) s =
  same_name_ignoring_case s name.
Proof.
  intros Hnl. unfold Regex.test, Regex.match_at, same_name_ignoring_case. simpl.
  rewrite match_here_plain.
  set (cs := list_ascii_of_string name). set (l := list_ascii_of_string s) in *.
  destruct (decide (length l ≤ length cs)%nat) as [Hle|Hgt].
  - rewrite take_ge, drop_ge by done.
    destruct (bool_decide (Regex.fold_case <$> l = Regex.fold_case <$> cs)); done.
  - rewrite (bool_decide_eq_false_2 (_ <$> l = _)).
    2:{ intros Heq%(f_equal length). rewrite !length_fmap in Heq. lia. }
    case_bool_decide as Hpre; [|done].
    destruct (drop (length cs) l) as [|x [|y rest]] eqn:Hdrop; simpl.
    + apply (f_equal length) in Hdrop. rewrite length_drop in Hdrop. simpl in Hdrop. lia.
    + destruct (Ascii.eqb_spec x Regex.newline) as [->|_]; [|done].
      destruct Hnl. rewrite <- (take_drop (length cs) l), Hdrop.
      apply elem_of_app. right. by left.
    + done.
Qed.

(** For a plain name and stored names without newline, the route
    refuses the request exactly when a stored name equals the requested
    one up to case, and stores the category, under an identifier that
    is free, otherwise. *)
Lemma plain_category_name_conflict now newId cats u body :
  User.role u = RoleAdmin →
  cats !! newId = None →
  category_validationResult body = [] →
  let name := Validator.trim (Validator.required (CategoryBody.name body)) in
  Forall (λ c, Regex.is_meta c = false) (list_ascii_of_string name) →
  (∀ id c, cats !! id = Some c → Regex.newline ∉ list_ascii_of_string (Category.name c)) →
  ((∃ id c, cats !! id = Some c ∧ same_name_ignoring_case (Category.name c) name = true) →
   post_category now newId cats u body =
     Some (Message 400 "Category already exists", cats)) ∧
  ((¬ ∃ id c, cats !! id = Some c ∧ same_name_ignoring_case (Category.name c) name = true) →
   ∃ category, Category.name category = name ∧
     post_category now newId cats u body =
       Some (Json 201 category, <[newId := category]> cats)).
Proof.
  intros Hrole Hfree Hvalid name Hplain Hnl.
  unfold post_category, authorize. rewrite Hrole, Hvalid. simpl.
  fold name. rewrite parse_anchored_plain by done. simpl.
  unfold Category_findOne_name.
  destruct (List.find _ (map_to_list cats)) as [[i c]|] eqn:Hfind.
  - split; [done|]. intros Hnone. destruct Hnone.
    apply find_some in Hfind as [Hin Htest]. apply list_elem_of_In in Hin.
    apply elem_of_map_to_list in Hin. simpl in Htest.
    rewrite test_anchored_plain in Htest by eauto. eauto.
  - rewrite bool_decide_eq_false_2 by (rewrite Hfree; by intros [? ?]).
    split; [|intros _; eexists; split; [|reflexivity]; reflexivity].
    intros (i & c & Hl & Hsame). exfalso.
    apply elem_of_map_to_list, list_elem_of_In in Hl.
    pose proof (find_none _ _ Hfind _ Hl) as Htest. simpl in Htest.
    rewrite test_anchored_plain in Htest by (eapply Hnl, elem_of_map_to_list, list_elem_of_In; done).
    congruence.
Qed.

(** * Further properties *)

(** ** White space around a validated field *)

Section strip.
Context (s1 : ascii → bool) (s2 : ascii → ascii → bool)
        (s3 : ascii → ascii → ascii → bool).

Lemma strip_fixed (l : list ascii) :
  strips s1 s2 s3 l = false → Validator.strip s1 s2 s3 l = l.
Proof.
  destruct l as [|a [|b [|c l]]]; simpl; try done.
  - by intros ->%orb_false_elim%proj1.
  - intros [-> [-> _]%orb_false_elim]%orb_false_elim. done.
  - intros [-> [-> ->]%orb_false_elim]%orb_false_elim. done.
Qed.

Lemma strip_spec (n : nat) : ∀ l : list ascii,
  (length l ≤ n)%nat →
  strips s1 s2 s3 (Validator.strip s1 s2 s3 l) = false ∧
  Validator.strip s1 s2 s3 l `suffix_of` l.
Proof.
  induction n as [|n IH]; intros l Hlen.
  { destruct l; [done | simpl in Hlen; lia]. }
  destruct l as [|a l1]; [done|].
  simpl in Hlen. cbn [Validator.strip].
  destruct (s1 a) eqn:H1.
  { destruct (IH l1) as [? ?]; [lia|]. split; [done | by apply suffix_cons_r]. }
  destruct l1 as [|b l2]; [by simpl; rewrite H1|].
  simpl in Hlen.
  destruct (s2 a b) eqn:H2.
  { destruct (IH l2) as [? ?]; [lia|].
    split; [done | by apply suffix_cons_r, suffix_cons_r]. }
  destruct l2 as [|c l3]; [by simpl; rewrite H1, H2|].
  simpl in Hlen.
  destruct (s3 a b c) eqn:H3.
  { destruct (IH l3) as [? ?]; [lia|].
    split; [done | by apply suffix_cons_r, suffix_cons_r, suffix_cons_r]. }
  split; [by simpl; rewrite H1, H2, H3 | done].
Qed.

Lemma strip_head (l : list ascii) : strips s1 s2 s3 (Validator.strip s1 s2 s3 l) = false.
Proof. by apply (strip_spec (length l)). Qed.

Lemma strip_suffix (l : list ascii) : Validator.strip s1 s2 s3 l `suffix_of` l.
Proof. by apply (strip_spec (length l)). Qed.

Lemma strip_idemp (l : list ascii) :
  Validator.strip s1 s2 s3 (Validator.strip s1 s2 s3 l) = Validator.strip s1 s2 s3 l.
Proof. apply strip_fixed, strip_head. Qed.

(** A list that starts with white space is not the prefix of one that
    does not. *)
Lemma strips_prefix (p l : list ascii) :
  p `prefix_of` l → strips s1 s2 s3 p = true → strips s1 s2 s3 l = true.
Proof.
  intros [k ->]. destruct p as [|a [|b [|c p]]]; simpl; try done.
  - rewrite orb_false_r. by intros ->.
  - rewrite orb_false_r. intros [-> | ->]%orb_true_iff; [done|].
    by rewrite orb_true_r.
Qed.

End strip.

Lemma rtrim_prefix (l : list ascii) : Validator.rtrim l `prefix_of` l.
Proof.
  unfold Validator.rtrim.
  destruct (strip_suffix Validator.is_space (λ b a, Validator.is_space2 a b)
              (λ c b a, Validator.is_space3 a b c) (rev l)) as [k Hk].
  exists (rev k). apply (f_equal (@rev ascii)) in Hk.
  rewrite rev_involutive, rev_app_distr in Hk. done.
Qed.

Lemma rtrim_idemp (l : list ascii) :
  Validator.rtrim (Validator.rtrim l) = Validator.rtrim l.
Proof.
  unfold Validator.rtrim. rewrite rev_involutive.
  f_equal. apply strip_idemp.
Qed.

Lemma trim_chars_idemp (l : list ascii) :
  Validator.rtrim (Validator.ltrim (Validator.rtrim (Validator.ltrim l))) =
  Validator.rtrim (Validator.ltrim l).
Proof.
  assert (Validator.ltrim (Validator.rtrim (Validator.ltrim l)) =
          Validator.rtrim (Validator.ltrim l)) as ->; [|apply rtrim_idemp].
  apply strip_fixed. apply not_true_is_false. intros Hs.
  apply (strips_prefix _ _ _ _ _ (rtrim_prefix (Validator.ltrim l))) in Hs.
  unfold Validator.ltrim in Hs. by rewrite strip_head in Hs.
Qed.

Lemma trim_idemp (s : string) : Validator.trim (Validator.trim s) = Validator.trim s.
Proof.
  unfold Validator.trim. rewrite list_ascii_of_string_of_list_ascii.
  by rewrite trim_chars_idemp.
Qed.

(** ** What a request to a ticket leaves in place *)

Lemma grows_refl d : grows d d.
Proof. unfold grows. auto. Qed.

Lemma grows_trans d1 d2 d3 : grows d1 d2 → grows d2 d3 → grows d1 d3.
Proof.
  intros (Hf & Hc & Hs) (Hf' & Hc' & Hs'). unfold grows.
  split_and!; [congruence | by etrans | auto].
Qed.

Lemma Ticket_store_grows now id orig d db :
  grows orig d → grows orig (Ticket_store now id orig d db).1.
Proof.
  intros Hg. apply (grows_trans _ d); [done|].
  destruct (Ticket_store_cases now id orig d db) as (_ & d1 & Hd1 & Hd').
  unfold grows, frozen, well_shaped.
  destruct Hd1 as [-> | [[-> _] | [-> _]]], Hd' as [-> | ->]; done.
Qed.

Lemma isLength_min n max s :
  Validator.isLength n max s = true → (n ≤ Validator.chars s)%nat.
Proof. unfold Validator.isLength. intros [H _]%andb_prop. by apply Nat.leb_le. Qed.

Lemma updated_grows u t body :
  update_validationResult body = [] →
  Ticket_validate t (updated u t (update_sanitize body)) = true →
  grows t (updated u t (update_sanitize body)).
Proof.
  intros Hvalid Hsave. set (b := update_sanitize body) in *.
  assert (frozen (updated u t b) = frozen t ∧
          Ticket.comments (updated u t b) = Ticket.comments t) as [Hf Hc].
  { unfold updated. through_assignments.
    destruct (isAgent u || isAdmin u || isAssigned u t); [|done].
    through_assignments. done. }
  unfold grows. split_and!; [done | by rewrite Hc |].
  apply update_validationResult_nil in Hvalid as (Hsub & Hdesc & Hst & Hpr & _).
  destruct (updated_field_cases u t b) as (Hst' & Hpr' & Hsub' & Hdesc').
  intros (S1 & S2 & S3 & S4 & S5 & S6 & S7). unfold well_shaped.
  split_and!.
  - destruct Hst' as [-> | Hb]; [done|]. by apply Hst.
  - destruct Hpr' as [-> | Hb]; [done|]. by apply Hpr.
  - destruct Hsub' as [-> | Hb]; [done|].
    destruct (sanitized_subject _ _ Hb) as (s0 & Hs0 & ->).
    by apply (isLength_min 5 (Some 200%nat)), Hsub.
  - unfold Ticket_validate in Hsave.
    apply andb_prop in Hsave as [[[[Hsave _]%andb_prop _]%andb_prop _]%andb_prop _].
    unfold path_valid in Hsave. apply orb_prop in Hsave as [Heq | Hv].
    + apply bool_decide_eq_true in Heq. by rewrite Heq.
    + unfold subject_valid in Hv. apply andb_prop in Hv as [_ Hv].
      by apply Nat.leb_le.
  - destruct Hdesc' as [-> | Hb]; [done|].
    destruct (sanitized_description _ _ Hb) as (s0 & Hs0 & ->).
    by apply (isLength_min 10 None), Hdesc.
  - destruct Hsub' as [-> | Hb]; [done|].
    destruct (sanitized_subject _ _ Hb) as (s0 & Hs0 & ->). apply trim_idemp.
  - destruct Hdesc' as [-> | Hb]; [done|].
    destruct (sanitized_description _ _ Hb) as (s0 & Hs0 & ->). apply trim_idemp.
Qed.

(** A request to a ticket either leaves the collection as it is or
    replaces the ticket by one that [grows] from it. *)
Lemma put_ticket_grows now db u id body :
  (put_ticket now db u id body).2 = db ∨
  ∃ t t', db !! id = Some t ∧ (put_ticket now db u id body).2 = <[id := t']> db ∧
          grows t t'.
Proof.
  unfold put_ticket, canAccessTicket, Ticket_findById.
  destruct (db !! id) as [ticket|] eqn:Hid; [|by left].
  destruct (isOwner u ticket || isAssigned u ticket || isAdmin u || isAgent u);
    [|by left].
  destruct (bool_decide (update_validationResult body = [])) eqn:Hvalid;
    [|by left].
  apply bool_decide_eq_true in Hvalid. cbn [negb].
  destruct (String.eqb (role_name (User.role u)) "user" && negb (isOwner u ticket));
    [by left|].
  cbv zeta.
  match goal with |- context [if ?b then (Message 500 _, db) else _] => destruct b end;
    [by left|].
  fold (updated u ticket (update_sanitize body)).
  destruct (Ticket_save now id ticket _ db) as [[d' db']|] eqn:Hs; [|by left].
  apply Ticket_save_inv in Hs as (-> & -> & Hsave).
  right. cbn [snd]. eexists _, _. split_and!; [done..|].
  by apply Ticket_store_grows, updated_grows.
Qed.

Lemma post_comment_grows now db u id body :
  (post_comment now db u id body).2 = db ∨
  ∃ t t', db !! id = Some t ∧ (post_comment now db u id body).2 = <[id := t']> db ∧
          grows t t'.
Proof.
  unfold post_comment, canAccessTicket, Ticket_findById.
  destruct (db !! id) as [ticket|] eqn:Hid; [|by left].
  destruct (isOwner u ticket || isAssigned u ticket || isAdmin u || isAgent u);
    [|by left].
  destruct (negb (bool_decide (comment_validationResult body = []))); [by left|].
  cbv zeta.
  destruct (default false (CommentBody.isInternal body) &&
            negb (JS.includes ["agent"; "admin"] (role_name (User.role u))));
    [by left|].
  destruct (Ticket_save now id ticket _ db) as [[d' db']|] eqn:Hs; [|by left].
  apply Ticket_save_inv in Hs as (-> & -> & Hsave).
  right. cbn [snd]. eexists _, _. split_and!; [done..|].
  apply Ticket_store_grows. unfold grows, frozen, well_shaped. simpl.
  split_and!; [done | by apply prefix_app_r | done].
Qed.

Lemma post_vote_grows now db u id voteType :
  (post_vote now db u id voteType).2 = db ∨
  ∃ t t', db !! id = Some t ∧ (post_vote now db u id voteType).2 = <[id := t']> db ∧
          grows t t'.
Proof.
  unfold post_vote, Ticket_findById.
  destruct (db !! id) as [ticket|] eqn:Hid; [|by left].
  cbv zeta.
  match goal with
  | |- context [match ?v with Some _ => _ | None => _ end] => destruct v as [t1|] eqn:Hv
  end; [|by left].
  destruct (Ticket_save now id ticket _ db) as [[d' db']|] eqn:Hs; [|by left].
  apply Ticket_save_inv in Hs as (-> & -> & Hsave).
  right. cbn [snd]. eexists _, _. split_and!; [done..|].
  apply Ticket_store_grows.
  assert (frozen t1 = frozen ticket ∧ Ticket.comments t1 = Ticket.comments ticket ∧
          Ticket.status t1 = Ticket.status ticket ∧
          Ticket.priority t1 = Ticket.priority ticket ∧
          Ticket.subject t1 = Ticket.subject ticket ∧
          Ticket.description t1 = Ticket.description ticket)
    as (Hf & Hc & H1 & H2 & H3 & H4).
  { repeat case_match; simplify_eq; done. }
  unfold grows, well_shaped. rewrite Hf, Hc, H1, H2, H3, H4. done.
Qed.

Lemma ticket_step_grows db id r :
  ticket_step db id r = db ∨
  ∃ t t', db !! id = Some t ∧ ticket_step db id r = <[id := t']> db ∧ grows t t'.
Proof.
  destruct r; simpl; auto using put_ticket_grows, post_comment_grows, post_vote_grows.
Qed.

Lemma ticket_run_grows rs : ∀ db id t,
  db !! id = Some t → ∃ t', ticket_run db rs !! id = Some t' ∧ grows t t'.
Proof.
  induction rs as [|[i r] rs IH]; intros db id t Hl; simpl.
  - eauto using grows_refl.
  - assert (∃ t1, ticket_step db i r !! id = Some t1 ∧ grows t t1) as (t1 & Hl1 & Hg1).
    { destruct (ticket_step_grows db i r) as [-> | (t0 & t0' & Hi & -> & Hg)];
        [eauto using grows_refl|].
      destruct (decide (i = id)) as [->|Hne].
      - rewrite lookup_insert_eq. simplify_eq. eauto.
      - rewrite lookup_insert_ne by done. eauto using grows_refl. }
    destruct (IH _ _ _ Hl1) as (t' & Hl' & Hg').
    eauto using grows_trans.
Qed.

(** X1. Through every sequence of updates, comments and votes, a ticket
    stays in the collection with the creator, the creation date, the
    attachments, the tags, the urgent flag and the due date it had, and
    its comments are the ones it had, in the same order, followed by
    the comments added since: no request edits or removes a comment. *)
Theorem requests_keep_fields_and_comments db id t rs :
  db !! id = Some t →
  ∃ t', ticket_run db rs !! id = Some t' ∧
        Ticket.createdBy t' = Ticket.createdBy t ∧
        Ticket.createdAt t' = Ticket.createdAt t ∧
        Ticket.attachments t' = Ticket.attachments t ∧
        Ticket.tags t' = Ticket.tags t ∧
        Ticket.isUrgent t' = Ticket.isUrgent t ∧
        Ticket.dueDate t' = Ticket.dueDate t ∧
        Ticket.comments t `prefix_of` Ticket.comments t'.
Proof.
  intros Hl. destruct (ticket_run_grows rs db id t Hl) as (t' & Hl' & Hf & Hc & _).
  exists t'. unfold frozen in Hf. injection Hf as -> -> -> -> -> ->. done.
Qed.

Lemma requests_keep_fields_and_comments_witness :
  Sample.db1_resolved !! Sample.t1 = Some Sample.ticket1_resolved ∧
  ∃ t', ticket_run Sample.db1_resolved Sample.cycle !! Sample.t1 = Some t' ∧
        Ticket.createdBy t' = Ticket.createdBy Sample.ticket1_resolved ∧
        Ticket.createdAt t' = Ticket.createdAt Sample.ticket1_resolved ∧
        Ticket.attachments t' = Ticket.attachments Sample.ticket1_resolved ∧
        Ticket.tags t' = Ticket.tags Sample.ticket1_resolved ∧
        Ticket.isUrgent t' = Ticket.isUrgent Sample.ticket1_resolved ∧
        Ticket.dueDate t' = Ticket.dueDate Sample.ticket1_resolved ∧
        Ticket.comments Sample.ticket1_resolved `prefix_of` Ticket.comments t'.
Proof.
  assert (Sample.db1_resolved !! Sample.t1 = Some Sample.ticket1_resolved) as Hl
    by (vm_compute; reflexivity).
  split; [exact Hl|].
  exact (requests_keep_fields_and_comments Sample.db1_resolved Sample.t1
           Sample.ticket1_resolved Sample.cycle Hl).
Defined.

(** ** Creating a ticket *)

Lemma create_validationResult_nil b :
  create_validationResult b = [] ↔
  Validator.isLength 5 (Some 200%nat)
    (Validator.trim (Validator.required (CreateBody.subject b))) = true ∧
  Validator.isLength 10 None
    (Validator.trim (Validator.required (CreateBody.description b))) = true ∧
  Validator.isMongoId (Validator.required (CreateBody.category b)) = true ∧
  (∀ s, CreateBody.priority b = Some s → Validator.isIn Ticket.priority_enum s = true).
Proof.
  unfold create_validationResult.
  rewrite !app_nil, !check_nil, optional_check_nil. tauto.
Qed.

(** The create route either stores, under an identifier that was free,
    the ticket [Ticket.create] builds for a valid body and an active
    category, or leaves the collection as it is. *)
Lemma post_ticket_result now newId cats db u body :
  (∃ t c, post_ticket now newId cats db u body = (Json 201 (Some t), <[newId := t]> db) ∧
          db !! newId = None ∧
          create_validationResult body = [] ∧
          cats !! Ticket.category t = Some c ∧ Category.isActive c = true ∧
          t = Ticket_new now
                (Validator.trim (Validator.required (CreateBody.subject body)))
                (Validator.trim (Validator.required (CreateBody.description body)))
                (lower_case (Validator.required (CreateBody.category body)))
                (if JS.truthy (CreateBody.priority body)
                 then default "" (CreateBody.priority body) else "medium")
                (User._id u) (Ticket.tags t) (Ticket.attachments t) ∧
          ObjectId_cast (Validator.required (CreateBody.category body)) =
            Some (Ticket.category t) ∧
          well_shaped t) ∨
  (is_success (post_ticket now newId cats db u body).1 = false ∧
   (post_ticket now newId cats db u body).2 = db).
Proof.
  unfold post_ticket.
  destruct (bool_decide (create_validationResult body = [])) eqn:Hvalid;
    [|by right].
  apply bool_decide_eq_true in Hvalid. cbn [negb]. cbv zeta.
  pose proof Hvalid as (Hs & Hd & Hid & Hp)%create_validationResult_nil.
  destruct (ObjectId_cast (Validator.required (CreateBody.category body)))
    as [oid|] eqn:Hcast; [|by right].
  pose proof (isMongoId_cast _ _ Hid Hcast) as ->.
  destruct (cats !! lower_case (Validator.required (CreateBody.category body)))
    as [c|] eqn:Hc; [|by right].
  destruct (Category.isActive c) eqn:Hact; [|by right]. cbn [negb].
  match goal with |- context [Ticket_valid ?d] => destruct (Ticket_valid d) eqn:Hsave end;
    [|by right].
  cbn [negb orb].
  destruct (bool_decide (is_Some (db !! newId))) eqn:Hfree; [by right|].
  apply bool_decide_eq_false in Hfree. rewrite <- eq_None_not_Some in Hfree.
  left. unfold Ticket_findById. rewrite lookup_insert_eq.
  eexists _, c. split_and!; try done.
  unfold well_shaped. simpl. split_and!; try done; try apply trim_idemp.
  - destruct (CreateBody.priority body) as [p|] eqn:Hpb; [|done].
    simpl. destruct (String.eqb p ""); [done|]. simpl. by apply Hp.
  - by apply (isLength_min 5 (Some 200%nat)).
  - unfold Ticket_valid, subject_valid in Hsave. simpl in Hsave.
    apply andb_prop in Hsave as [[[[[_ Hsave]%andb_prop _]%andb_prop _]%andb_prop
                                    _]%andb_prop _].
    by apply Nat.leb_le.
  - by apply (isLength_min 10 None).
Qed.

(** X2. When POST /api/tickets answers 201, the ticket it returns is
    stored under an identifier that was free; its creator is the
    requester, its status is [open], it has no assignee, no comment, no
    vote and no stamp, and its category is an active category, the
    ObjectId that the category of the body is cast to. Its priority is
    one of the four, its subject has at least 5 characters (as
    [isLength] counts them: the code points, variation selectors left
    out) and at most 200 code units, its description has at least 10
    characters, and neither has white space around it. In every other
    case the reply is no success and the collection is left as it
    was. *)
Theorem post_ticket_stores_a_fresh_open_ticket now newId cats db u body :
  (∃ t c, post_ticket now newId cats db u body = (Json 201 (Some t), <[newId := t]> db) ∧
          db !! newId = None ∧
          cats !! Ticket.category t = Some c ∧ Category.isActive c = true ∧
          ObjectId_cast (Validator.required (CreateBody.category body)) =
            Some (Ticket.category t) ∧
          Ticket.createdBy t = User._id u ∧ Ticket.createdAt t = now ∧
          Ticket.status t = "open" ∧ Ticket.assignedTo t = None ∧
          Ticket.comments t = [] ∧ Ticket.upvotes t = [] ∧ Ticket.downvotes t = [] ∧
          Ticket.resolvedAt t = None ∧ Ticket.closedAt t = None ∧
          Ticket.priority t ∈ Ticket.priority_enum ∧
          (5 ≤ Validator.chars (Ticket.subject t))%nat ∧
          (JS.string_length (Ticket.subject t) ≤ 200)%nat ∧
          (10 ≤ Validator.chars (Ticket.description t))%nat ∧
          Validator.trim (Ticket.subject t) = Ticket.subject t ∧
          Validator.trim (Ticket.description t) = Ticket.description t) ∨
  (is_success (post_ticket now newId cats db u body).1 = false ∧
   (post_ticket now newId cats db u body).2 = db).
Proof.
  destruct (post_ticket_result now newId cats db u body)
    as [(t & c & Heq & Hfree & Hvalid & Hcat & Hact & Ht & Hcast & Hshape) | ?];
    [left | by right].
  destruct Hshape as (_ & Hpr & S3 & S4 & S5 & S6 & S7).
  exists t, c. split_and!; try done; try (rewrite Ht; done).
  - apply existsb_exists in Hpr as (p & Hin & ->%String.eqb_eq).
    by apply list_elem_of_In.
Qed.

(** X3. A ticket that has just been created is read back by its
    creator: GET /api/tickets/:id on the new identifier returns the
    ticket the create route returned. *)
Theorem created_ticket_is_read_back now newId cats db u body t db' :
  post_ticket now newId cats db u body = (Json 201 (Some t), db') →
  get_ticket db' u newId = (Json 200 t, db').
Proof.
  intros Hpost.
  destruct (post_ticket_result now newId cats db u body)
    as [(t0 & c & Heq & _ & _ & _ & _ & Ht & _) | [Hfail _]].
  - rewrite Heq in Hpost. injection Hpost as <- <-.
    assert (Ticket.createdBy t0 = User._id u) as Hown by (by rewrite Ht).
    unfold get_ticket, canAccessTicket, Ticket_findById. rewrite lookup_insert_eq.
    apply isOwner_spec in Hown. by rewrite Hown.
  - by rewrite Hpost in Hfail.
Qed.

Lemma created_ticket_is_read_back_witness :
  post_ticket 100 Sample.t1 Sample.cats ∅ Sample.alice Sample.printer =
    (Json 201 (Some Sample.ticket1), Sample.db1) ∧
  get_ticket Sample.db1 Sample.alice Sample.t1 = (Json 200 Sample.ticket1, Sample.db1).
Proof.
  assert (post_ticket 100 Sample.t1 Sample.cats ∅ Sample.alice Sample.printer =
            (Json 201 (Some Sample.ticket1), Sample.db1)) as Hpost
    by (vm_compute; reflexivity).
  split; [exact Hpost|].
  exact (created_ticket_is_read_back 100 Sample.t1 Sample.cats ∅ Sample.alice
           Sample.printer Sample.ticket1 Sample.db1 Hpost).
Defined.

(** ** The shape of the stored tickets *)

Lemma step_well_shaped cats db r : all_well_shaped db → all_well_shaped (step cats db r).
Proof.
  intros Hwf. destruct r as [now newId u body | id r | u id]; simpl.
  - destruct (post_ticket_result now newId cats db u body)
      as [(t & c & -> & _ & _ & _ & _ & _ & _ & Hshape) | [_ ->]]; [|done].
    by apply map_Forall_insert_2.
  - destruct (ticket_step_grows db id r) as [-> | (t & t' & Hl & -> & _ & _ & Hs)];
      [done|].
    apply map_Forall_insert_2; [|done]. apply Hs. by apply (Hwf id).
  - unfold delete_ticket, Ticket_findById.
    destruct (authorize ["admin"] u) as [[code message]|]; [done|].
    destruct (db !! id); [|done]. by apply map_Forall_delete.
Qed.

Lemma run_well_shaped cats rs : ∀ db, all_well_shaped db → all_well_shaped (run cats db rs).
Proof.
  induction rs as [|r rs IH]; intros db Hwf; simpl; [done|].
  apply IH. by apply step_well_shaped.
Qed.

(** X4. In every collection the service reaches from the empty one,
    each ticket has a status among [open], [in-progress], [resolved],
    [closed], a priority among [low], [medium], [high], [urgent], a
    subject of at least 5 characters (as [isLength] counts them: the
    code points, variation selectors left out) and at most 200 code
    units (the [v.length] of the schema's [maxlength]), and a
    description of at least 10 characters, both stored without white
    space around them. *)
Theorem stored_tickets_are_well_shaped cats db id t :
  reachable cats db → db !! id = Some t →
  Ticket.status t ∈ Ticket.status_enum ∧
  Ticket.priority t ∈ Ticket.priority_enum ∧
  (5 ≤ Validator.chars (Ticket.subject t))%nat ∧
  (JS.string_length (Ticket.subject t) ≤ 200)%nat ∧
  (10 ≤ Validator.chars (Ticket.description t))%nat ∧
  Validator.trim (Ticket.subject t) = Ticket.subject t ∧
  Validator.trim (Ticket.description t) = Ticket.description t.
Proof.
  intros [rs ->] Hl.
  assert (all_well_shaped (run cats ∅ rs)) as Hwf
    by (apply run_well_shaped, map_Forall_empty).
  destruct (Hwf id t Hl) as (H1 & H2 & H3 & H4 & H5 & H6 & H7).
  unfold Validator.isIn in H1, H2.
  apply existsb_exists in H1 as (s1 & Hin1 & ->%String.eqb_eq).
  apply existsb_exists in H2 as (s2 & Hin2 & ->%String.eqb_eq).
  split_and!; try done; by apply list_elem_of_In.
Qed.

Lemma stored_tickets_are_well_shaped_witness :
  reachable Sample.cats Sample.db1_resolved ∧
  Sample.db1_resolved !! Sample.t1 = Some Sample.ticket1_resolved ∧
  Ticket.status Sample.ticket1_resolved ∈ Ticket.status_enum ∧
  Ticket.priority Sample.ticket1_resolved ∈ Ticket.priority_enum ∧
  (5 ≤ Validator.chars (Ticket.subject Sample.ticket1_resolved))%nat ∧
  (JS.string_length (Ticket.subject Sample.ticket1_resolved) ≤ 200)%nat ∧
  (10 ≤ Validator.chars (Ticket.description Sample.ticket1_resolved))%nat ∧
  Validator.trim (Ticket.subject Sample.ticket1_resolved) =
    Ticket.subject Sample.ticket1_resolved ∧
  Validator.trim (Ticket.description Sample.ticket1_resolved) =
    Ticket.description Sample.ticket1_resolved.
Proof.
  assert (reachable Sample.cats Sample.db1_resolved) as Hreach
    by (eexists; reflexivity).
  assert (Sample.db1_resolved !! Sample.t1 = Some Sample.ticket1_resolved) as Hl
    by (vm_compute; reflexivity).
  split; [exact Hreach|]. split; [exact Hl|].
  exact (stored_tickets_are_well_shaped Sample.cats Sample.db1_resolved Sample.t1
           Sample.ticket1_resolved Hreach Hl).
Defined.

(** ** Requests the ticket routes refuse *)

(** X5. For an identifier in the form of an ObjectId (twenty-four
    hexadecimal digits in lower case, which the cast of [findById]
    leaves as they are) that names no ticket, the get, update, comment
    and vote routes answer 404 whatever the requester and the body
    (the body is not even validated), and so does the delete route for
    an admin; the collection is left as it was. *)
Theorem missing_ticket_is_not_found now db u id ubody cbody voteType :
  is_ObjectId id →
  db !! id = None →
  get_ticket db u id = (Message 404 "Ticket not found", db) ∧
  put_ticket now db u id ubody = (Message 404 "Ticket not found", db) ∧
  post_comment now db u id cbody = (Message 404 "Ticket not found", db) ∧
  post_vote now db u id voteType = (Message 404 "Ticket not found", db) ∧
  (User.role u = RoleAdmin →
   delete_ticket db u id = (Message 404 "Ticket not found", db)).
Proof.
  intros _ Hl.
  unfold get_ticket, put_ticket, post_comment, post_vote, delete_ticket,
    canAccessTicket, authorize, Ticket_findById.
  rewrite Hl. split_and!; try done. by intros ->.
Qed.

Lemma missing_ticket_is_not_found_witness :
  is_ObjectId Sample.t2 ∧
  Sample.db1 !! Sample.t2 = None ∧
  get_ticket Sample.db1 Sample.alice Sample.t2 =
    (Message 404 "Ticket not found", Sample.db1) ∧
  put_ticket 110 Sample.db1 Sample.alice Sample.t2 Sample.owner_edit =
    (Message 404 "Ticket not found", Sample.db1) ∧
  post_comment 110 Sample.db1 Sample.alice Sample.t2 Desk.thanks =
    (Message 404 "Ticket not found", Sample.db1) ∧
  post_vote 110 Sample.db1 Sample.alice Sample.t2 (Some "upvote") =
    (Message 404 "Ticket not found", Sample.db1) ∧
  (User.role Sample.alice = RoleAdmin →
   delete_ticket Sample.db1 Sample.alice Sample.t2 =
     (Message 404 "Ticket not found", Sample.db1)).
Proof.
  assert (is_ObjectId Sample.t2) as Hid by (vm_compute; reflexivity).
  assert (Sample.db1 !! Sample.t2 = None) as Hl by (vm_compute; reflexivity).
  split; [exact Hid|]. split; [exact Hl|].
  exact (missing_ticket_is_not_found 110 Sample.db1 Sample.alice Sample.t2
           Sample.owner_edit Desk.thanks (Some "upvote") Hid Hl).
Defined.

(** X6. A requester who is neither the creator nor the assignee of a
    ticket, nor an agent, nor an admin, is refused the update and the
    comment with 403, whatever the body, and the collection is left as
    it was; the vote route does not ask for read access, and the same
    requester's vote, up or down, is accepted. *)
Theorem stranger_may_only_vote now db u id t ubody cbody up :
  db !! id = Some t → ¬ can_read u t →
  put_ticket now db u id ubody =
    (Message 403 "Not authorized to access this ticket", db) ∧
  post_comment now db u id cbody =
    (Message 403 "Not authorized to access this ticket", db) ∧
  is_success (post_vote now db u id (Some (vote_name up))).1 = true.
Proof.
  intros Hl Hno. rewrite <- can_read_spec in Hno. apply not_true_is_false in Hno.
  unfold put_ticket, post_comment, canAccessTicket, Ticket_findById.
  rewrite Hl, Hno. split_and!; [done..|].
  unfold post_vote, Ticket_findById. rewrite Hl. cbv zeta.
  destruct up; simpl vote_name; simpl bool_decide; cbv beta iota;
    repeat match goal with |- context [if ?b then _ else _] => destruct b end;
    rewrite Ticket_save_valid by (by apply Ticket_validate_same); done.
Qed.

Lemma stranger_may_only_vote_witness :
  Sample.db1 !! Sample.t1 = Some Sample.ticket1 ∧
  ¬ can_read Sample.dave Sample.ticket1 ∧
  put_ticket 110 Sample.db1 Sample.dave Sample.t1 Sample.owner_edit =
    (Message 403 "Not authorized to access this ticket", Sample.db1) ∧
  post_comment 110 Sample.db1 Sample.dave Sample.t1 Desk.thanks =
    (Message 403 "Not authorized to access this ticket", Sample.db1) ∧
  is_success (post_vote 110 Sample.db1 Sample.dave Sample.t1 (Some (vote_name true))).1
    = true.
Proof.
  assert (Sample.db1 !! Sample.t1 = Some Sample.ticket1) as Hl
    by (vm_compute; reflexivity).
  assert (¬ can_read Sample.dave Sample.ticket1) as Hno
    by (intros [H|[H|[H|H]]]; discriminate H).
  split; [exact Hl|]. split; [exact Hno|].
  exact (stranger_may_only_vote 110 Sample.db1 Sample.dave Sample.t1 Sample.ticket1
           Sample.owner_edit Desk.thanks true Hl Hno).
Defined.



(** ** Deleting a ticket *)

(** X8. DELETE /api/tickets/:id is for admins: any other requester is
    answered 403 and the collection is left as it was. For an admin and
    a ticket that exists, the ticket is removed, every other ticket is
    left as it was, and the ticket can no longer be read, by anyone. *)
Theorem delete_ticket_removes_one_ticket db u id t :
  db !! id = Some t →
  (User.role u ≠ RoleAdmin →
   is_authorization_error (delete_ticket db u id).1 = true ∧
   (delete_ticket db u id).2 = db) ∧
  (User.role u = RoleAdmin →
   delete_ticket db u id = (Json 200 (), delete id db) ∧
   (∀ id', id' ≠ id → (delete_ticket db u id).2 !! id' = db !! id') ∧
   ∀ v, get_ticket (delete_ticket db u id).2 v id =
          (Message 404 "Ticket not found", delete id db)).
Proof.
  intros Hl. unfold delete_ticket, authorize, Ticket_findById. split.
  - intros Hrole. destruct (User.role u); done.
  - intros ->. simpl. rewrite Hl. split_and!; [done| |].
    + intros id' Hne. simpl. by rewrite lookup_delete_ne.
    + intros v. simpl. unfold get_ticket, canAccessTicket, Ticket_findById.
      by rewrite lookup_delete_eq.
Qed.

Lemma delete_ticket_removes_one_ticket_witness :
  Sample.db1 !! Sample.t1 = Some Sample.ticket1 ∧
  (User.role Sample.carol ≠ RoleAdmin →
   is_authorization_error (delete_ticket Sample.db1 Sample.carol Sample.t1).1 = true ∧
   (delete_ticket Sample.db1 Sample.carol Sample.t1).2 = Sample.db1) ∧
  (User.role Sample.carol = RoleAdmin →
   delete_ticket Sample.db1 Sample.carol Sample.t1 =
     (Json 200 (), delete Sample.t1 Sample.db1) ∧
   (∀ id', id' ≠ Sample.t1 →
           (delete_ticket Sample.db1 Sample.carol Sample.t1).2 !! id' = Sample.db1 !! id') ∧
   ∀ v, get_ticket (delete_ticket Sample.db1 Sample.carol Sample.t1).2 v Sample.t1 =
          (Message 404 "Ticket not found", delete Sample.t1 Sample.db1)).
Proof.
  assert (Sample.db1 !! Sample.t1 = Some Sample.ticket1) as Hl
    by (vm_compute; reflexivity).
  split; [exact Hl|].
  exact (delete_ticket_removes_one_ticket Sample.db1 Sample.carol Sample.t1
           Sample.ticket1 Hl).
Defined.

(** ** What a vote changes *)

Lemma toggle_other uid (l : list ObjectId) x :
  x ≠ uid → x ∈ toggle uid l ↔ x ∈ l.
Proof.
  intros Hne. unfold toggle.
  destruct (findIndex_user uid l) as [[-> Hn] | (l1 & l2 & -> & Hn1 & -> & ->)].
  - simpl. unfold JS.push. rewrite elem_of_app, list_elem_of_singleton. tauto.
  - destruct (Z.ltb_spec (-1) (Z.of_nat (length l1))) as [_|?]; [|lia].
    rewrite !elem_of_app, elem_of_cons. tauto.
Qed.

Lemma toggle_self uid (l : list ObjectId) :
  NoDup l → uid ∈ toggle uid l ↔ uid ∉ l.
Proof.
  intros Hnd. unfold toggle.
  destruct (findIndex_user uid l) as [[-> Hn] | (l1 & l2 & -> & Hn1 & -> & ->)].
  - simpl. unfold JS.push. rewrite elem_of_app, list_elem_of_singleton. tauto.
  - destruct (Z.ltb_spec (-1) (Z.of_nat (length l1))) as [_|?]; [|lia].
    apply NoDup_app in Hnd as (_ & _ & [Hn2 _]%NoDup_cons).
    rewrite !elem_of_app, elem_of_cons. tauto.
Qed.

(** The array of the other direction after a vote. *)
Lemma unvote_other uid (l : list ObjectId) x :
  let j := JS.findIndex (λ i, String.eqb i uid) l in
  x ≠ uid → x ∈ (if -1 <? j then JS.splice1 j l else l) ↔ x ∈ l.
Proof.
  intros j Hne. subst j.
  destruct (findIndex_user uid l) as [[-> Hn] | (l1 & l2 & -> & Hn1 & -> & ->)];
    [done|].
  destruct (Z.ltb_spec (-1) (Z.of_nat (length l1))) as [_|?]; [|lia].
  rewrite !elem_of_app, elem_of_cons. tauto.
Qed.

Lemma unvote_self uid (l : list ObjectId) :
  let j := JS.findIndex (λ i, String.eqb i uid) l in
  NoDup l → uid ∉ (if -1 <? j then JS.splice1 j l else l).
Proof.
  intros j Hnd. subst j.
  destruct (findIndex_user uid l) as [[-> Hn] | (l1 & l2 & -> & Hn1 & -> & ->)];
    [done|].
  destruct (Z.ltb_spec (-1) (Z.of_nat (length l1))) as [_|?]; [|lia].
  apply NoDup_app in Hnd as (_ & _ & [Hn2 _]%NoDup_cons).
  rewrite elem_of_app. tauto.
Qed.

Lemma findIndex_present uid (l : list ObjectId) :
  (-1 <? JS.findIndex (λ i, String.eqb i uid) l) = bool_decide (uid ∈ l).
Proof.
  destruct (findIndex_user uid l) as [[-> Hn] | (l1 & l2 & -> & Hn1 & -> & _)].
  - by rewrite bool_decide_eq_false_2.
  - rewrite bool_decide_eq_true_2.
    + apply Z.ltb_lt. lia.
    + apply elem_of_app. right. by left.
Qed.

(** X9. In a collection the service can reach, a vote of a user on a
    ticket changes nothing for the other users: each of them is in the
    upvotes, and in the downvotes, exactly when it was before. The
    voter ends in the array of the vote exactly when the voter was not
    there before (a second vote withdraws the first), and in no case in
    the array of the other direction. *)
Theorem vote_moves_only_the_voter cats now db u id t up :
  reachable cats db → db !! id = Some t →
  ∃ t', (post_vote now db u id (Some (vote_name up))).2 !! id = Some t' ∧
        (∀ x dir, x ≠ User._id u → x ∈ voters dir t' ↔ x ∈ voters dir t) ∧
        (User._id u ∈ voters up t' ↔ User._id u ∉ voters up t) ∧
        User._id u ∉ voters (negb up) t'.
Proof.
  intros [rs ->] Hl.
  assert (votes_wf t) as (Hu & Hd & Hdis).
  { assert (all_votes_wf (run cats ∅ rs)) as Hwf
      by (apply run_votes_wf, map_Forall_empty).
    by apply (Hwf id). }
  assert (NoDup (voters up t) ∧ NoDup (voters (negb up) t) ∧
          (User._id u ∈ voters up t → User._id u ∉ voters (negb up) t))
    as (Hmine & Hother & Hexcl).
  { destruct up; simpl; split_and!; try done; [apply Hdis|].
    intros H1 H2. by apply (Hdis _ H2). }
  destruct (post_vote_arrays now _ u id t up Hl) as (d' & -> & Hm & Ho).
  exists d'. rewrite lookup_insert_eq. split_and!; [done | | |].
  - intros x dir Hne.
    destruct (decide (dir = up)) as [->|Hdir].
    + rewrite Hm. by apply toggle_other.
    + assert (dir = negb up) as -> by (by destruct dir, up).
      rewrite Ho.
      destruct (-1 <? JS.findIndex _ (voters up t)); [done|].
      by apply unvote_other.
  - rewrite Hm. by apply toggle_self.
  - rewrite Ho. rewrite (findIndex_present _ (voters up t)).
    case_bool_decide as Hin; [by apply Hexcl|].
    by apply unvote_self.
Qed.

Lemma vote_moves_only_the_voter_witness :
  reachable Sample.cats Sample.db1_voted ∧
  Sample.db1_voted !! Sample.t1 = Some Sample.ticket1_voted ∧
  ∃ t', (post_vote 130 Sample.db1_voted Sample.bob Sample.t1
           (Some (vote_name true))).2 !! Sample.t1 = Some t' ∧
        (∀ x dir, x ≠ User._id Sample.bob →
                  x ∈ voters dir t' ↔ x ∈ voters dir Sample.ticket1_voted) ∧
        (User._id Sample.bob ∈ voters true t' ↔
         User._id Sample.bob ∉ voters true Sample.ticket1_voted) ∧
        User._id Sample.bob ∉ voters (negb true) t'.
Proof.
  assert (reachable Sample.cats Sample.db1_voted) as Hreach by (eexists; reflexivity).
  assert (Sample.db1_voted !! Sample.t1 = Some Sample.ticket1_voted) as Hl
    by (vm_compute; reflexivity).
  split; [exact Hreach|]. split; [exact Hl|].
  exact (vote_moves_only_the_voter Sample.cats 130 Sample.db1_voted Sample.bob Sample.t1
           Sample.ticket1_voted true Hreach Hl).
Defined.

(** The whole reply of the vote route for a direction. *)
Lemma post_vote_reply now db u id t up :
  db !! id = Some t →
  ∃ d', post_vote now db u id (Some (vote_name up)) =
          (Json 200 (VoteReply.mk (Z.of_nat (length (Ticket.upvotes d')))
                                  (Z.of_nat (length (Ticket.downvotes d')))
                                  (Ticket.voteCount d')),
           <[id := d']> db) ∧
        (post_vote now db u id (Some (vote_name up))).2 = <[id := d']> db.
Proof.
  intros Hl. unfold post_vote, Ticket_findById. rewrite Hl. cbv zeta.
  destruct up; simpl vote_name; simpl bool_decide; cbv beta iota;
    repeat match goal with
           | |- context [if -1 <? ?i then _ else _] => destruct (-1 <? i)
           end;
    rewrite Ticket_save_valid by (by apply Ticket_validate_same);
    rewrite Ticket_store_eq; eexists; split; reflexivity.
Qed.

Lemma toggle_length uid (l : list ObjectId) :
  Z.of_nat (length (toggle uid l)) =
  Z.of_nat (length l) + (if bool_decide (uid ∈ l) then -1 else 1).
Proof.
  unfold toggle. rewrite findIndex_present.
  destruct (findIndex_user uid l) as [[Hi Hn] | (l1 & l2 & -> & Hn1 & Hi & ->)].
  - rewrite bool_decide_eq_false_2 by done. unfold JS.push.
    rewrite length_app. simpl. lia.
  - rewrite bool_decide_eq_true_2 by (apply elem_of_app; right; by left).
    rewrite !length_app. simpl. lia.
Qed.

Lemma unvote_length uid (l : list ObjectId) :
  let j := JS.findIndex (λ i, String.eqb i uid) l in
  Z.of_nat (length (if -1 <? j then JS.splice1 j l else l)) =
  Z.of_nat (length l) + (if bool_decide (uid ∈ l) then -1 else 0).
Proof.
  intros j. subst j. rewrite findIndex_present.
  destruct (findIndex_user uid l) as [[Hi Hn] | (l1 & l2 & -> & Hn1 & Hi & ->)].
  - rewrite bool_decide_eq_false_2 by done. lia.
  - rewrite bool_decide_eq_true_2 by (apply elem_of_app; right; by left).
    rewrite !length_app. simpl. lia.
Qed.

(** X10. The reply of an accepted vote gives the sizes of the two
    arrays of the stored ticket and their difference, the score. A vote
    lowers the score of its direction by one when it withdraws an
    earlier vote, raises it by two when the voter held the opposite
    vote, and by one otherwise (the score counts upvotes minus
    downvotes, so a down vote moves it the other way). *)
Theorem vote_changes_the_score now db u id t up :
  db !! id = Some t →
  ∃ t', post_vote now db u id (Some (vote_name up)) =
          (Json 200 (VoteReply.mk (Z.of_nat (length (Ticket.upvotes t')))
                                  (Z.of_nat (length (Ticket.downvotes t')))
                                  (Ticket.voteCount t')),
           <[id := t']> db) ∧
        Ticket.voteCount t' =
          Ticket.voteCount t +
          score_change up (bool_decide (User._id u ∈ voters up t))
                          (bool_decide (User._id u ∈ voters (negb up) t)).
Proof.
  intros Hl.
  destruct (post_vote_reply now db u id t up Hl) as (d' & Heq & Hdb).
  destruct (post_vote_arrays now db u id t up Hl) as (d'' & Hdb' & Hm & Ho).
  assert (d'' = d') as ->.
  { rewrite Hdb in Hdb'. apply (f_equal (λ m, m !! id)) in Hdb'.
    rewrite !lookup_insert_eq in Hdb'. congruence. }
  exists d'. split; [done|].
  pose proof (toggle_length (User._id u) (voters up t)) as Hlen.
  pose proof (unvote_length (User._id u) (voters (negb up) t)) as Hlen'.
  simpl in Hlen'. rewrite <- Hm in Hlen.
  rewrite findIndex_present in Ho.
  unfold Ticket.voteCount, score_change.
  destruct up; cbn [voters negb] in *; rewrite Hlen, Ho;
    destruct (bool_decide (User._id u ∈ Ticket.upvotes t)) eqn:E1;
    destruct (bool_decide (User._id u ∈ Ticket.downvotes t)) eqn:E2;
    try rewrite Hlen'; try rewrite E1; try rewrite E2; lia.
Qed.

Lemma vote_changes_the_score_witness :
  Sample.db1_voted !! Sample.t1 = Some Sample.ticket1_voted ∧
  ∃ t', post_vote 130 Sample.db1_voted Sample.bob Sample.t1 (Some (vote_name true)) =
          (Json 200 (VoteReply.mk (Z.of_nat (length (Ticket.upvotes t')))
                                  (Z.of_nat (length (Ticket.downvotes t')))
                                  (Ticket.voteCount t')),
           <[Sample.t1 := t']> Sample.db1_voted) ∧
        Ticket.voteCount t' =
          Ticket.voteCount Sample.ticket1_voted +
          score_change true
            (bool_decide (User._id Sample.bob ∈ voters true Sample.ticket1_voted))
            (bool_decide (User._id Sample.bob ∈ voters (negb true) Sample.ticket1_voted)).
Proof.
  assert (Sample.db1_voted !! Sample.t1 = Some Sample.ticket1_voted) as Hl
    by (vm_compute; reflexivity).
  split; [exact Hl|].
  exact (vote_changes_the_score 130 Sample.db1_voted Sample.bob Sample.t1
           Sample.ticket1_voted true Hl).
Defined.

(** ** The page of the list route *)

Lemma ticket_field_scalar path doc :
  scalar_path path = true → is_Some (ticket_field path doc).
Proof.
  unfold scalar_path, ticket_field. intros Hpath%negb_true_iff.
  repeat (destruct (String.eqb path _); [by eexists|]).
  rewrite Hpath. by eexists.
Qed.

Lemma sort_docs_scalar path dir docs :
  scalar_path path = true →
  sort_docs path dir docs = Some (merge_sort (sort_le path dir) docs).
Proof.
  intros Hpath. unfold sort_docs.
  assert (forallb (λ doc, bool_decide (is_Some (ticket_field path doc))) docs = true) as ->;
    [|done].
  apply forallb_forall. intros doc _.
  by apply bool_decide_eq_true_2, ticket_field_scalar.
Qed.

Lemma list_query_or_regex u q :
  Filter.or_regex (list_query u q) =
  if JS.truthy (ListQuery.search q) then ListQuery.search q else None.
Proof.
  unfold list_query, filter_if_truthy.
  destruct (JS.truthy (ListQuery.search q)) eqn:Hs.
  - destruct (ListQuery.search q); done.
  - repeat (case_match; simpl); done.
Qed.

Lemma compile_covered u q query :
  covered q → Filter.cast (list_query u q) = Some query →
  is_Some (Filter.compile query).
Proof.
  intros [Hsearch _] Hq.
  apply Filter_cast_fields in Hq as (_ & _ & _ & _ & _ & Hre).
  unfold Filter.compile. rewrite Hre, list_query_or_regex.
  destruct (ListQuery.search q) as [s|] eqn:Hs; simpl; [|by eexists].
  destruct (String.eqb_spec s "") as [->|Hne]; simpl; [by eexists|].
  destruct (Hsearch s eq_refl Hne) as [re ->]. by eexists.
Qed.

(** X11. The list route only reads. A request the embedding covers (a
    search word, if any, that is a pattern of literal characters, [.],
    a leading [^] and a trailing [$]; a sort path that is not an array
    path, a dotted path, the empty path or a path that starts with
    [$]) is answered 500, and then a condition of the query cannot be
    cast to an ObjectId or the skip is negative, or with a page. The
    page holds stored tickets, none of them twice, no more of them than
    the query selects in all ([total]), and no more than the limit asks
    for (a limit of 0 means no limit; the default is 10); and the page
    number and the limit of the request have a product
    [(page - 1) * limit] that is not negative. *)
Theorem page_holds_stored_tickets_within_limit db u q :
  covered q →
  ∃ resp, get_tickets db u q = Some (resp, db) ∧
    ((resp = Message 500 "Server error" ∧
      (Filter.cast (list_query u q) = None ∨
       (default 1 (ListQuery.page q) - 1) * default 10 (ListQuery.limit q) < 0)) ∨
     ∃ r, resp = Json 200 r ∧
          NoDup (ListReply.tickets r) ∧
          (∀ doc, doc ∈ ListReply.tickets r → db !! doc.1 = Some doc.2) ∧
          Z.of_nat (length (ListReply.tickets r)) ≤ ListReply.total r ∧
          (default 10 (ListQuery.limit q) ≠ 0 →
           Z.of_nat (length (ListReply.tickets r)) ≤
             Z.abs (default 10 (ListQuery.limit q))) ∧
          0 ≤ (default 1 (ListQuery.page q) - 1) * default 10 (ListQuery.limit q)).
Proof.
  intros Hcov.
  assert (∃ resp, get_tickets db u q = Some (resp, db) ∧
                  ((resp = Message 500 "Server error" ∧
                    (Filter.cast (list_query u q) = None ∨
                     (default 1 (ListQuery.page q) - 1) *
                       default 10 (ListQuery.limit q) < 0)) ∨
                   ∃ r, resp = Json 200 r))
    as (resp & Hget & Hresp).
  { unfold get_tickets.
    destruct (Filter.cast (list_query u q)) as [query|] eqn:Hq; [|by eauto 6].
    destruct (compile_covered u q query Hcov Hq) as [selects ->]. simpl.
    rewrite sort_docs_scalar by apply Hcov. simpl.
    destruct (Z.ltb_spec ((default 1 (ListQuery.page q) - 1) *
                          default 10 (ListQuery.limit q)) 0); eauto 6. }
  exists resp. split; [done|].
  destruct Hresp as [[-> Hwhy]|[r ->]]; [by left|right].
  exists r. split; [done|].
  destruct (get_tickets_page db u q 200 r db Hget)
    as (query & selects & sorted & _ & _ & Hperm & _ & Hskip & -> & ->).
  assert (NoDup sorted) as Hnd.
  { rewrite Hperm. apply NoDup_filter, NoDup_map_to_list. }
  cbv zeta.
  set (k := Z.to_nat ((default 1 (ListQuery.page q) - 1) * default 10 (ListQuery.limit q))).
  set (n := Z.to_nat (Z.abs (default 10 (ListQuery.limit q)))).
  assert ((if default 10 (ListQuery.limit q) =? 0 then drop k sorted
           else take n (drop k sorted)) `sublist_of` sorted) as Hsub.
  { destruct (_ =? 0); [apply sublist_drop|].
    etrans; [apply sublist_take | apply sublist_drop]. }
  split_and!; [ | | | | done].
  - by eapply sublist_NoDup.
  - intros [i d] Hin. simpl.
    eapply sublist_subseteq in Hin; [|done]. rewrite Hperm in Hin.
    apply list_elem_of_filter in Hin as [_ Hin]. by apply elem_of_map_to_list.
  - apply sublist_length in Hsub. lia.
  - intros Hlim. destruct (Z.eqb_spec (default 10 (ListQuery.limit q)) 0); [done|].
    rewrite length_take. lia.
Qed.

Lemma page_holds_stored_tickets_within_limit_witness :
  covered Desk.search_scanner ∧
  ∃ resp, get_tickets Sample.db2 Sample.carol Desk.search_scanner =
            Some (resp, Sample.db2) ∧
    ((resp = Message 500 "Server error" ∧
      (Filter.cast (list_query Sample.carol Desk.search_scanner) = None ∨
       (default 1 (ListQuery.page Desk.search_scanner) - 1) *
         default 10 (ListQuery.limit Desk.search_scanner) < 0)) ∨
     ∃ r, resp = Json 200 r ∧
          NoDup (ListReply.tickets r) ∧
          (∀ doc, doc ∈ ListReply.tickets r → Sample.db2 !! doc.1 = Some doc.2) ∧
          Z.of_nat (length (ListReply.tickets r)) ≤ ListReply.total r ∧
          (default 10 (ListQuery.limit Desk.search_scanner) ≠ 0 →
           Z.of_nat (length (ListReply.tickets r)) ≤
             Z.abs (default 10 (ListQuery.limit Desk.search_scanner))) ∧
          0 ≤ (default 1 (ListQuery.page Desk.search_scanner) - 1) *
              default 10 (ListQuery.limit Desk.search_scanner)).
Proof.
  assert (covered Desk.search_scanner) as Hcov.
  { split; [|reflexivity]. intros s [= <-] _. vm_compute. eauto. }
  split; [exact Hcov|].
  exact (page_holds_stored_tickets_within_limit Sample.db2 Sample.carol
           Desk.search_scanner Hcov).
Defined.

(** ** The order of the page *)








(** ** The [assignedTo] parameter of the list route *)

Lemma filter_if_truthy_assignedTo v set query :
  (∀ s q, Filter.assignedTo (set s q) = Filter.assignedTo q) →
  Filter.assignedTo (filter_if_truthy v set query) = Filter.assignedTo query.
Proof. intros Hset. unfold filter_if_truthy. destruct (JS.truthy v); auto. Qed.

Lemma compile_assignedTo query selects d uid :
  Filter.compile query = Some selects → Filter.assignedTo query = Some uid →
  selects d = true → Ticket.assignedTo d = Some uid.
Proof.
  unfold Filter.compile. intros Hc Hq.
  destruct (match Filter.or_regex query with
            | Some p => Some <$> Regex.parse p
            | None => Some None
            end) as [re|]; [|done].
  simpl in Hc. injection Hc as <-. rewrite Hq. simpl.
  rewrite !andb_true_iff. intros [[[[[_ Has] _] _] _] _].
  by apply bool_decide_eq_true in Has.
Qed.

(** X13. An agent, whose identifier is an ObjectId (twenty-four
    hexadecimal digits in lower case), asks for the list with
    [assignedTo=me], in a request the embedding covers (a search word,
    if any, that is a pattern of literal characters, [.], a leading [^]
    and a trailing [$]; a sort path that is not an array path, a dotted
    path, the empty path or a path that starts with [$]). When the
    request is answered with a page, every ticket of the page is a
    stored ticket assigned to that agent, whatever the other parameters
    of the request. *)
Theorem agent_list_assigned_to_me db u q code r db' doc :
  User.role u = RoleAgent → is_ObjectId (User._id u) →
  ListQuery.assignedTo q = Some "me" →
  covered q →
  get_tickets db u q = Some (Json code r, db') →
  doc ∈ ListReply.tickets r →
  db !! doc.1 = Some doc.2 ∧ Ticket.assignedTo doc.2 = Some (User._id u).
Proof.
  intros Hrole Hid Hme _ Hget Hin.
  destruct (page_membership db u q code r db' doc Hget Hin)
    as (query & selects & Hq & Hc & Hsel & Hl).
  split; [done|].
  eapply compile_assignedTo; [done | | done].
  apply Filter_cast_fields in Hq as (_ & Has & _).
  assert (Filter.assignedTo (list_query u q) = Some (User._id u)) as Hmine.
  { unfold list_query. rewrite Hrole, Hme. simpl.
    by rewrite !filter_if_truthy_assignedTo. }
  destruct (cast_cond_Some _ _ _ Has Hmine) as (oid & Hcast & ->).
  rewrite Hid in Hcast. by injection Hcast as <-.
Qed.

Lemma agent_list_assigned_to_me_witness :
  User.role Sample.bob = RoleAgent ∧
  is_ObjectId (User._id Sample.bob) ∧
  ListQuery.assignedTo Desk.assigned_to_me = Some "me" ∧
  covered Desk.assigned_to_me ∧
  get_tickets Sample.db1_bob Sample.bob Desk.assigned_to_me =
    Some (Json 200 Desk.page_of_bob, Sample.db1_bob) ∧
  (Sample.t1, Sample.ticket1_bob) ∈ ListReply.tickets Desk.page_of_bob ∧
  Sample.db1_bob !! Sample.t1 = Some Sample.ticket1_bob ∧
  Ticket.assignedTo Sample.ticket1_bob = Some (User._id Sample.bob).
Proof.
  assert (User.role Sample.bob = RoleAgent) as Hrole by reflexivity.
  assert (is_ObjectId (User._id Sample.bob)) as Hid by (vm_compute; reflexivity).
  assert (ListQuery.assignedTo Desk.assigned_to_me = Some "me") as Hme by reflexivity.
  assert (covered Desk.assigned_to_me) as Hcov
    by (split; [intros s Hs; discriminate Hs | reflexivity]).
  assert (get_tickets Sample.db1_bob Sample.bob Desk.assigned_to_me =
            Some (Json 200 Desk.page_of_bob, Sample.db1_bob)) as Hget
    by (vm_compute; reflexivity).
  assert ((Sample.t1, Sample.ticket1_bob) ∈ ListReply.tickets Desk.page_of_bob) as Hin
    by (simpl; left).
  split; [exact Hrole|]. split; [exact Hid|]. split; [exact Hme|].
  split; [exact Hcov|]. split; [exact Hget|]. split; [exact Hin|].
  exact (agent_list_assigned_to_me Sample.db1_bob Sample.bob Desk.assigned_to_me 200
           Desk.page_of_bob Sample.db1_bob (Sample.t1, Sample.ticket1_bob)
           Hrole Hid Hme Hcov Hget Hin).
Defined.

(** X14. The [assignedTo] parameter counts only as the word [me] sent
    by an agent: from a plain user or an admin, or with any other value
    (the id of a colleague, say), the request is answered as if the
    parameter were absent. *)
Theorem assignedTo_only_counts_as_me_from_an_agent db u q :
  User.role u ≠ RoleAgent ∨ ListQuery.assignedTo q ≠ Some "me" →
  get_tickets db u q = get_tickets db u (with_assignedTo None q).
Proof.
  intros Hcase.
  assert (list_query u q = list_query u (with_assignedTo None q)) as Hq.
  { unfold list_query. simpl.
    destruct (User.role u) eqn:Hrole; simpl; try done.
    destruct Hcase as [?|Hne]; [done|].
    by rewrite bool_decide_eq_false_2. }
  unfold get_tickets. by rewrite <- Hq.
Qed.

Lemma assignedTo_only_counts_as_me_from_an_agent_witness :
  (User.role Sample.alice ≠ RoleAgent ∨
   ListQuery.assignedTo Desk.assigned_to_me ≠ Some "me") ∧
  get_tickets Sample.db2 Sample.alice Desk.assigned_to_me =
    get_tickets Sample.db2 Sample.alice (with_assignedTo None Desk.assigned_to_me).
Proof.
  assert (User.role Sample.alice ≠ RoleAgent ∨
          ListQuery.assignedTo Desk.assigned_to_me ≠ Some "me") as Hcase
    by (left; discriminate).
  split; [exact Hcase|].
  exact (assignedTo_only_counts_as_me_from_an_agent Sample.db2 Sample.alice
           Desk.assigned_to_me Hcase).
Defined.

(** ** Searching for a plain word *)

Lemma parse_plain (word : string) :
  Forall (λ c, Regex.is_meta c = false) (list_ascii_of_string word) →
  word ≠ "" →
  Regex.parse word = Some (Regex.mk false (Regex.Lit <$> list_ascii_of_string word) false).
Proof.
  intros Hplain Hne. unfold Regex.parse.
  destruct (list_ascii_of_string word) as [|c l] eqn:Hl.
  { destruct word; done. }
  assert (c ≠ "^"%char) as Hc.
  { intros ->. by apply Forall_cons_1 in Hplain as [? _]. }
  assert (match c :: l with
          | "^"%char :: r => (true, r)
          | _ => (false, c :: l)
          end = (false, c :: l)) as ->.
  { destruct c as [[] [] [] [] [] [] [] []]; done. }
  assert (match rev (c :: l) with
          | "$"%char :: r => (true, rev r)
          | _ => (false, c :: l)
          end = (false, c :: l)) as ->.
  { destruct (rev (c :: l)) as [|x r] eqn:Hrev; [done|].
    assert (x ∈ c :: l) as Hx.
    { rewrite <- (rev_involutive (c :: l)), Hrev.
      apply list_elem_of_In, in_rev. rewrite rev_involutive. by left. }
    rewrite Forall_forall in Hplain. specialize (Hplain x Hx).
    destruct x as [[] [] [] [] [] [] [] []]; done. }
  by rewrite parse_atoms_plain.
Qed.

Lemma search_plain (cs s : list ascii) :
  Regex.search true (Regex.mk false (Regex.Lit <$> cs) false) s = true ↔
  ∃ before mid after, s = before ++ mid ++ after ∧
                      Regex.fold_case <$> mid = Regex.fold_case <$> cs.
Proof.
  induction s as [|x s IH].
  - simpl. unfold Regex.match_at. simpl. rewrite match_here_plain. simpl.
    rewrite orb_false_r. split.
    + case_bool_decide as H; [|done]. intros _.
      exists [], [], []. split; [done|]. by rewrite take_nil in H.
    + intros (b & m & a & Heq & Hm).
      symmetry in Heq. apply app_eq_nil in Heq as [-> [-> ->]%app_eq_nil].
      rewrite take_nil. by rewrite bool_decide_eq_true_2.
  - cbn [Regex.search]. rewrite orb_true_iff, IH.
    unfold Regex.match_at. cbn [Regex.atoms Regex.eol Regex.at_end].
    rewrite match_here_plain. split.
    + intros [H | (b & m & a & -> & Hm)].
      * case_bool_decide as Hpre; [|done].
        exists [], (take (length cs) (x :: s)), (drop (length cs) (x :: s)).
        split; [by rewrite take_drop | done].
      * exists (x :: b), m, a. done.
    + intros (b & m & a & Heq & Hm).
      destruct b as [|y b].
      * left. simpl in Heq. rewrite Heq.
        assert (length m = length cs) as Hlen.
        { apply (f_equal length) in Hm. by rewrite !length_fmap in Hm. }
        rewrite <- Hlen, take_app_length. by rewrite bool_decide_eq_true_2.
      * right. injection Heq as -> ->. eauto.
Qed.

(** A plain word tests whether it occurs, up to case. *)
Lemma test_plain (word s : string) :
  Regex.test true (Regex.mk false (Regex.Lit <$> list_ascii_of_string word) false) s
    = true ↔
  contains_ignoring_case s word.
Proof. unfold Regex.test. simpl. apply search_plain. Qed.

(** X15. The search word of the list route is a word of ASCII
    characters with no regular expression metacharacter (none of
    [\ ^ $ . | ? * + ( ) [ ] { }]), and the sort path is not an array
    path, a dotted path, the empty path or a path that starts with
    [$]. When the request is answered with a page, every ticket of the
    page whose subject and description are ASCII text has the word in
    its subject or in its description, up to the case of the letters
    [a] to [z]. *)
Theorem search_word_occurs_in_the_page db u q word code r db' doc :
  ListQuery.search q = Some word → word ≠ "" →
  Forall (λ c, Regex.is_meta c = false) (list_ascii_of_string word) →
  is_ascii word = true →
  scalar_path (default "createdAt" (ListQuery.sortBy q)) = true →
  get_tickets db u q = Some (Json code r, db') →
  doc ∈ ListReply.tickets r →
  is_ascii (Ticket.subject doc.2) = true →
  is_ascii (Ticket.description doc.2) = true →
  contains_ignoring_case (Ticket.subject doc.2) word ∨
  contains_ignoring_case (Ticket.description doc.2) word.
Proof.
  intros Hsearch Hne Hplain _ _ Hget Hin _ _.
  destruct (page_membership db u q code r db' doc Hget Hin)
    as (query & selects & Hq & Hc & Hsel & _).
  assert (Filter.or_regex query = Some word) as Hre.
  { apply Filter_cast_fields in Hq as (_ & _ & _ & _ & _ & ->).
    rewrite list_query_or_regex, Hsearch. simpl. by destruct word. }
  unfold Filter.compile in Hc. rewrite Hre, parse_plain in Hc by done.
  simpl in Hc. injection Hc as <-.
  rewrite !andb_true_iff, orb_true_iff, !test_plain in Hsel. tauto.
Qed.

Lemma search_word_occurs_in_the_page_witness :
  ListQuery.search Desk.search_scanner = Some "SCANNER" ∧
  "SCANNER" ≠ "" ∧
  Forall (λ c, Regex.is_meta c = false) (list_ascii_of_string "SCANNER") ∧
  is_ascii "SCANNER" = true ∧
  scalar_path (default "createdAt" (ListQuery.sortBy Desk.search_scanner)) = true ∧
  get_tickets Sample.db2 Sample.carol Desk.search_scanner =
    Some (Json 200 Desk.page_of_scanner, Sample.db2) ∧
  (Sample.t2, Sample.ticket2) ∈ ListReply.tickets Desk.page_of_scanner ∧
  is_ascii (Ticket.subject Sample.ticket2) = true ∧
  is_ascii (Ticket.description Sample.ticket2) = true ∧
  (contains_ignoring_case (Ticket.subject Sample.ticket2) "SCANNER" ∨
   contains_ignoring_case (Ticket.description Sample.ticket2) "SCANNER").
Proof.
  assert (ListQuery.search Desk.search_scanner = Some "SCANNER") as Hsearch
    by reflexivity.
  assert ("SCANNER" ≠ "") as Hne by discriminate.
  assert (Forall (λ c, Regex.is_meta c = false) (list_ascii_of_string "SCANNER"))
    as Hplain by (repeat constructor).
  assert (get_tickets Sample.db2 Sample.carol Desk.search_scanner =
            Some (Json 200 Desk.page_of_scanner, Sample.db2)) as Hget
    by (vm_compute; reflexivity).
  assert ((Sample.t2, Sample.ticket2) ∈ ListReply.tickets Desk.page_of_scanner) as Hin
    by (simpl; left).
  assert (is_ascii "SCANNER" = true) as Hword by reflexivity.
  assert (scalar_path (default "createdAt" (ListQuery.sortBy Desk.search_scanner)) = true)
    as Hpath by reflexivity.
  assert (is_ascii (Ticket.subject Sample.ticket2) = true) as Hsub by reflexivity.
  assert (is_ascii (Ticket.description Sample.ticket2) = true) as Hdesc by reflexivity.
  split; [exact Hsearch|]. split; [exact Hne|]. split; [exact Hplain|].
  split; [exact Hword|]. split; [exact Hpath|].
  split; [exact Hget|]. split; [exact Hin|]. split; [exact Hsub|]. split; [exact Hdesc|].
  exact (search_word_occurs_in_the_page Sample.db2 Sample.carol Desk.search_scanner
           "SCANNER" 200 Desk.page_of_scanner Sample.db2 (Sample.t2, Sample.ticket2)
           Hsearch Hne Hplain Hword Hpath Hget Hin Hsub Hdesc).
Defined.

(** ** The category routes *)

Lemma authorize_admin u : User.role u = RoleAdmin → authorize ["admin"] u = None.
Proof. unfold authorize. by intros ->. Qed.

Lemma authorize_other u :
  User.role u ≠ RoleAdmin →
  authorize ["admin"] u =
    Some (403, "User role " +:+ role_name (User.role u) +:+
               " is not authorized to access this route").
Proof. unfold authorize. by destruct (User.role u). Qed.

(** X16. Creating, updating and deleting a category is for admins: any
    other requester is answered 403, whatever the body, and the
    categories are left as they were. *)
Theorem only_an_admin_changes_categories now newId cats db u id cbody ubody :
  User.role u ≠ RoleAdmin →
  let refused := "User role " +:+ role_name (User.role u) +:+
                 " is not authorized to access this route" in
  post_category now newId cats u cbody = Some (Message 403 refused, cats) ∧
  put_category now cats u id ubody = Some (Message 403 refused, cats) ∧
  delete_category cats db u id = (Message 403 refused, cats).
Proof.
  intros Hrole refused.
  unfold post_category, put_category, delete_category.
  by rewrite (authorize_other u Hrole).
Qed.

Lemma only_an_admin_changes_categories_witness :
  User.role Sample.alice ≠ RoleAdmin ∧
  post_category 400 Sample.next_category Sample.cats Sample.alice Desk.hardware =
    Some (Message 403 "User role user is not authorized to access this route",
          Sample.cats) ∧
  put_category 400 Sample.cats Sample.alice Sample.bugs Desk.switch_off =
    Some (Message 403 "User role user is not authorized to access this route",
          Sample.cats) ∧
  delete_category Sample.cats Sample.db1 Sample.alice Sample.bugs =
    (Message 403 "User role user is not authorized to access this route", Sample.cats).
Proof.
  assert (User.role Sample.alice ≠ RoleAdmin) as Hrole by discriminate.
  split; [exact Hrole|].
  exact (only_an_admin_changes_categories 400 Sample.next_category Sample.cats Sample.db1
           Sample.alice Sample.bugs Desk.hardware Desk.switch_off Hrole).
Defined.

(** The names the embedding covers, character by character. *)
Lemma parse_atom_is_Some c :
  is_Some (Regex.parse_atom c) ↔ c = "."%char ∨ Regex.is_meta c = false.
Proof.
  unfold Regex.parse_atom.
  destruct (Ascii.eqb_spec c ".") as [->|Hne]; [by split; eauto|].
  destruct (Regex.is_meta c); split; try by eauto.
  all: intros Hc; by destruct Hc.
Qed.

Lemma covered_name_spec (name : string) :
  covered_name name ↔
  Forall (λ c, c = "."%char ∨ Regex.is_meta c = false) (list_ascii_of_string name).
Proof.
  unfold covered_name, Regex.parse.
  rewrite !list_ascii_of_string_app. simpl list_ascii_of_string at 1 3.
  cbn [app]. rewrite rev_unit, rev_involutive.
  rewrite <- (Forall_iff (is_Some ∘ Regex.parse_atom)) by (intros c; apply parse_atom_is_Some).
  rewrite <- mapM_is_Some.
  destruct (mapM Regex.parse_atom (list_ascii_of_string name)); simpl; split;
    intros Hs; try (by destruct Hs); by eexists.
Qed.

(** X17. POST /api/categories, for a name the embedding covers (each
    character of the trimmed name is [.] or no regular expression
    metacharacter), is answered; and when the answer is 201, the
    category it carries is stored under the new identifier, which was
    free, and the other categories are left as they were. That category
    is active, was created by the requester, an admin, at the time of
    the request, has a name of 2 to 50 characters (as [isLength] counts
    them: the code points, variation selectors left out) without white
    space around it and a colour that is [#] and six hexadecimal
    digits, the default [#3B82F6] when the request has none. *)
Theorem created_category_is_active_and_coloured now newId cats u body :
  covered_name (Validator.trim (Validator.required (CategoryBody.name body))) →
  ∃ reply, post_category now newId cats u body = Some reply ∧
    ∀ c, reply.1 = Json 201 c →
      reply.2 = <[newId := c]> cats ∧ cats !! newId = None ∧
      User.role u = RoleAdmin ∧
      Category.createdBy c = User._id u ∧ Category.createdAt c = now ∧
      Category.isActive c = true ∧
      (2 ≤ Validator.chars (Category.name c) ≤ 50)%nat ∧
      Validator.trim (Category.name c) = Category.name c ∧
      is_hex_color (Category.color c) = true ∧
      (CategoryBody.color body = None → Category.color c = "#3B82F6").
Proof.
  intros [re Hre]. unfold post_category, authorize.
  destruct (User.role u) eqn:Hrole; simpl;
    try (eexists; split; [reflexivity|]; by intros).
  case_bool_decide as Hvalid; simpl;
    [|eexists; split; [reflexivity|]; by intros].
  rewrite Hre. simpl.
  destruct (Category_findOne_name _ _ _);
    [eexists; split; [reflexivity|]; by intros|].
  case_bool_decide as Hused;
    [eexists; split; [reflexivity|]; by intros|].
  eexists. split; [reflexivity|]. simpl. intros c [= <-]. simpl.
  unfold category_validationResult in Hvalid.
  apply app_eq_nil in Hvalid as [Hname [_ Hcolor]%app_eq_nil].
  apply check_nil in Hname.
  unfold Validator.isLength in Hname. apply andb_true_iff in Hname as [H1 H2].
  apply Nat.leb_le in H1, H2.
  split_and!; try done.
  - by apply eq_None_not_Some.
  - apply trim_idemp.
  - destruct (CategoryBody.color body) as [color|] eqn:Hc; [|done].
    simpl in Hcolor. apply check_nil in Hcolor.
    unfold JS.truthy. simpl. destruct (String.eqb_spec color ""); [by subst|done].
  - by intros ->.
Qed.

Lemma created_category_is_active_and_coloured_witness :
  covered_name (Validator.trim (Validator.required (CategoryBody.name Desk.hardware))) ∧
  ∃ reply,
    post_category 400 Sample.next_category Sample.cats Sample.carol Desk.hardware =
      Some reply ∧
    ∀ c, reply.1 = Json 201 c →
      reply.2 = <[Sample.next_category := c]> Sample.cats ∧
      Sample.cats !! Sample.next_category = None ∧
      User.role Sample.carol = RoleAdmin ∧
      Category.createdBy c = User._id Sample.carol ∧ Category.createdAt c = 400 ∧
      Category.isActive c = true ∧
      (2 ≤ Validator.chars (Category.name c) ≤ 50)%nat ∧
      Validator.trim (Category.name c) = Category.name c ∧
      is_hex_color (Category.color c) = true ∧
      (CategoryBody.color Desk.hardware = None → Category.color c = "#3B82F6").
Proof.
  assert (covered_name
            (Validator.trim (Validator.required (CategoryBody.name Desk.hardware))))
    as Hname by (vm_compute; eauto).
  split; [exact Hname|].
  exact (created_category_is_active_and_coloured 400 Sample.next_category Sample.cats
           Sample.carol Desk.hardware Hname).
Defined.

(** X18. An update of a category that is stored, with a new name, if
    the request has one, that the embedding covers (each character of
    the trimmed name is [.] or no regular expression metacharacter), is
    answered; and when the answer is 200, the update comes from an
    admin, replaces that category only, and keeps its creator and its
    creation date; a colour that was [#] and six hexadecimal digits is
    one afterwards; the active flag is the one of the request, and a
    request without a flag, or without a name, leaves the stored
    one. *)
Theorem category_update_keeps_origin now cats u id body c :
  cats !! id = Some c →
  (∀ s, CategoryUpdate.name body = Some s → covered_name (Validator.trim s)) →
  ∃ reply, put_category now cats u id body = Some reply ∧
    ∀ c', reply.1 = Json 200 c' →
      reply.2 = <[id := c']> cats ∧
      User.role u = RoleAdmin ∧
      Category.createdBy c' = Category.createdBy c ∧
      Category.createdAt c' = Category.createdAt c ∧
      (is_hex_color (Category.color c) = true → is_hex_color (Category.color c') = true) ∧
      (∀ a, CategoryUpdate.isActive body = Some a → Category.isActive c' = a) ∧
      (CategoryUpdate.isActive body = None → Category.isActive c' = Category.isActive c) ∧
      (CategoryUpdate.name body = None → Category.name c' = Category.name c).
Proof.
  intros Hl Hname. unfold put_category, authorize.
  destruct (User.role u) eqn:Hrole; simpl;
    try (eexists; split; [reflexivity|]; by intros).
  case_bool_decide as Hvalid; simpl;
    [|eexists; split; [reflexivity|]; by intros].
  rewrite Hl.
  assert (∃ found,
    (if JS.truthy (Validator.trim <$> CategoryUpdate.name body) &&
        negb (String.eqb (default "" (Validator.trim <$> CategoryUpdate.name body))
                         (Category.name c))
     then re ← Regex.parse ("^" +:+ default "" (Validator.trim <$> CategoryUpdate.name body)
                                +:+ "$");
          Some (Category_findOne_other true re id cats)
     else Some None) = Some found) as [found ->].
  { destruct (_ && _); [|by eauto].
    destruct (CategoryUpdate.name body) as [s|] eqn:Hs.
    - destruct (Hname s eq_refl) as [re Hre]. simpl. rewrite Hre. simpl. eauto.
    - simpl. by eauto. }
  simpl. destruct found; [eexists; split; [reflexivity|]; by intros|].
  unfold Category_save.
  eexists. split; [reflexivity|]. simpl. intros c' [= <-].
  unfold category_update_validationResult in Hvalid.
  apply app_eq_nil in Hvalid as [_ [_ Hcolor]%app_eq_nil].
  split_and!; try done.
  - by case_decide.
  - by case_decide.
  - intros Hold. case_decide; simpl.
    all: destruct (CategoryUpdate.color body) as [color|] eqn:Hc; [|done].
    all: simpl in Hcolor; apply check_nil in Hcolor.
    all: unfold JS.truthy; simpl; by destruct (String.eqb color "").
  - intros a Ha. rewrite Ha. by case_decide.
  - intros Ha. rewrite Ha. by case_decide.
  - intros Hn. rewrite Hn. by case_decide.
Qed.

Lemma category_update_keeps_origin_witness :
  Sample.cats !! Sample.bugs = Some Desk.category_bugs ∧
  (∀ s, CategoryUpdate.name Desk.switch_off = Some s → covered_name (Validator.trim s)) ∧
  ∃ reply, put_category 500 Sample.cats Sample.carol Sample.bugs Desk.switch_off =
             Some reply ∧
    ∀ c', reply.1 = Json 200 c' →
      reply.2 = <[Sample.bugs := c']> Sample.cats ∧
      User.role Sample.carol = RoleAdmin ∧
      Category.createdBy c' = Category.createdBy Desk.category_bugs ∧
      Category.createdAt c' = Category.createdAt Desk.category_bugs ∧
      (is_hex_color (Category.color Desk.category_bugs) = true →
       is_hex_color (Category.color c') = true) ∧
      (∀ a, CategoryUpdate.isActive Desk.switch_off = Some a → Category.isActive c' = a) ∧
      (CategoryUpdate.isActive Desk.switch_off = None →
       Category.isActive c' = Category.isActive Desk.category_bugs) ∧
      (CategoryUpdate.name Desk.switch_off = None →
       Category.name c' = Category.name Desk.category_bugs).
Proof.
  assert (Sample.cats !! Sample.bugs = Some Desk.category_bugs) as Hl
    by (vm_compute; reflexivity).
  assert (∀ s, CategoryUpdate.name Desk.switch_off = Some s →
               covered_name (Validator.trim s)) as Hname
    by (intros s Hs; discriminate Hs).
  split; [exact Hl|]. split; [exact Hname|].
  exact (category_update_keeps_origin 500 Sample.cats Sample.carol Sample.bugs
           Desk.switch_off Desk.category_bugs Hl Hname).
Defined.

(** X19. An update of a category, with a new name, if the request has
    one, that the embedding covers (each character of the trimmed name
    is [.] or no regular expression metacharacter), is accepted and
    switches the category off. From then on POST /api/tickets refuses
    every ticket filed under it, that is, with a [category] that is
    cast to the identifier of that category, whoever asks and whatever
    the rest of the body, and stores nothing; the answer is the 400 of
    an invalid category when the body passes the validators. *)
Theorem deactivated_category_takes_no_ticket
    now cats u id body c' cats' now' newId db v tbody raw :
  (∀ s, CategoryUpdate.name body = Some s → covered_name (Validator.trim s)) →
  put_category now cats u id body = Some (Json 200 c', cats') →
  CategoryUpdate.isActive body = Some false →
  CreateBody.category tbody = Some raw → ObjectId_cast raw = Some id →
  is_success (post_ticket now' newId cats' db v tbody).1 = false ∧
  (post_ticket now' newId cats' db v tbody).2 = db ∧
  (create_validationResult tbody = [] →
   post_ticket now' newId cats' db v tbody = (Message 400 "Invalid category", db)).
Proof.
  intros _ Hput Hoff Hcat Hcast.
  assert (∃ c, cats !! id = Some c) as [c Hl].
  { unfold put_category in Hput. destruct (authorize _ _) as [[]|]; [done|].
    destruct (negb _); [done|]. destruct (cats !! id); [eauto|done]. }
  assert (cats' !! id = Some c' ∧ Category.isActive c' = false) as [Hl' Hinactive].
  { revert Hput. unfold put_category, authorize.
    destruct (User.role u) eqn:Hrole; simpl; [done..|].
    case_bool_decide as Hvalid; simpl; [|done].
    rewrite Hl.
    match goal with |- context [mbind _ ?m] => destruct m as [[?|]|] end; simpl; [done| |done].
    unfold Category_save. rewrite Hoff.
    intros [= <- <-]. rewrite lookup_insert_eq. split; [done|]. by case_decide. }
  unfold post_ticket.
  case_bool_decide as Hvalid; simpl.
  - unfold Validator.required. rewrite Hcat. simpl. rewrite Hcast, Hl', Hinactive. done.
  - split_and!; [done..|]. intros; done.
Qed.

Lemma deactivated_category_takes_no_ticket_witness :
  (∀ s, CategoryUpdate.name Desk.switch_off = Some s → covered_name (Validator.trim s)) ∧
  put_category 500 Sample.cats Sample.carol Sample.bugs Desk.switch_off =
    Some (Json 200 Desk.bugs_off, Desk.cats_off) ∧
  CategoryUpdate.isActive Desk.switch_off = Some false ∧
  CreateBody.category Sample.printer = Some Sample.bugs ∧
  ObjectId_cast Sample.bugs = Some Sample.bugs ∧
  is_success (post_ticket 510 Sample.t1 Desk.cats_off ∅ Sample.alice Sample.printer).1
    = false ∧
  (post_ticket 510 Sample.t1 Desk.cats_off ∅ Sample.alice Sample.printer).2 = ∅ ∧
  (create_validationResult Sample.printer = [] →
   post_ticket 510 Sample.t1 Desk.cats_off ∅ Sample.alice Sample.printer =
     (Message 400 "Invalid category", ∅)).
Proof.
  assert (∀ s, CategoryUpdate.name Desk.switch_off = Some s →
               covered_name (Validator.trim s)) as Hname
    by (intros s Hs; discriminate Hs).
  assert (put_category 500 Sample.cats Sample.carol Sample.bugs Desk.switch_off =
            Some (Json 200 Desk.bugs_off, Desk.cats_off)) as Hput
    by (vm_compute; reflexivity).
  assert (CategoryUpdate.isActive Desk.switch_off = Some false) as Hoff by reflexivity.
  assert (CreateBody.category Sample.printer = Some Sample.bugs) as Hcat by reflexivity.
  assert (ObjectId_cast Sample.bugs = Some Sample.bugs) as Hcast
    by (vm_compute; reflexivity).
  split; [exact Hname|]. split; [exact Hput|]. split; [exact Hoff|].
  split; [exact Hcat|]. split; [exact Hcast|].
  exact (deactivated_category_takes_no_ticket 500 Sample.cats Sample.carol Sample.bugs
           Desk.switch_off Desk.bugs_off Desk.cats_off 510 Sample.t1 ∅ Sample.alice
           Sample.printer Sample.bugs Hname Hput Hoff Hcat Hcast).
Defined.

Lemma Ticket_findOne_category_None db id :
  Ticket_findOne_category db id = None ↔
  ∀ tid t, db !! tid = Some t → Ticket.category t ≠ id.
Proof.
  unfold Ticket_findOne_category. split.
  - intros Hfind tid t Hl Heq.
    apply elem_of_map_to_list, list_elem_of_In in Hl.
    pose proof (find_none _ _ Hfind _ Hl) as Hno. simpl in Hno.
    apply String.eqb_neq in Hno. done.
  - intros Hall. destruct (List.find _ _) as [[tid t]|] eqn:Hfind; [|done].
    apply find_some in Hfind as [Hin Heq]. apply list_elem_of_In, elem_of_map_to_list in Hin.
    simpl in Heq. apply String.eqb_eq in Heq. by destruct (Hall tid t Hin).
Qed.

(** X20. An admin deletes a category exactly when no stored ticket is
    filed under it: then the category, and only it, is removed. While a
    ticket refers to it the request is answered 400 and the categories
    are left as they were, so a stored ticket never loses its category
    to this route. *)
Theorem category_is_deleted_iff_unused cats db u id c :
  User.role u = RoleAdmin → cats !! id = Some c →
  ((∀ tid t, db !! tid = Some t → Ticket.category t ≠ id) →
   delete_category cats db u id = (Json 200 (), delete id cats)) ∧
  ((∃ tid t, db !! tid = Some t ∧ Ticket.category t = id) →
   delete_category cats db u id =
     (Message 400
        "Cannot delete category that is being used by tickets. Deactivate it instead.",
      cats)) ∧
  ∀ tid t, db !! tid = Some t →
           is_Some (cats !! Ticket.category t) →
           is_Some ((delete_category cats db u id).2 !! Ticket.category t).
Proof.
  intros Hrole Hl. unfold delete_category. rewrite (authorize_admin u Hrole), Hl.
  destruct (Ticket_findOne_category db id) as [doc|] eqn:Hfind.
  - split_and!; [|done|done].
    intros Hall. apply Ticket_findOne_category_None in Hall. congruence.
  - pose proof (proj1 (Ticket_findOne_category_None db id) Hfind) as Hall.
    split_and!; [done| |].
    + intros (tid & t & Ht & Heq). by destruct (Hall tid t Ht).
    + intros tid t Ht Hsome. simpl. rewrite lookup_delete_ne; [done|].
      intros Heq. by destruct (Hall tid t Ht).
Qed.

Lemma category_is_deleted_iff_unused_witness :
  User.role Sample.carol = RoleAdmin ∧
  Sample.cats !! Sample.bugs = Some Desk.category_bugs ∧
  ((∀ tid t, Sample.db1 !! tid = Some t → Ticket.category t ≠ Sample.bugs) →
   delete_category Sample.cats Sample.db1 Sample.carol Sample.bugs =
     (Json 200 (), delete Sample.bugs Sample.cats)) ∧
  ((∃ tid t, Sample.db1 !! tid = Some t ∧ Ticket.category t = Sample.bugs) →
   delete_category Sample.cats Sample.db1 Sample.carol Sample.bugs =
     (Message 400
        "Cannot delete category that is being used by tickets. Deactivate it instead.",
      Sample.cats)) ∧
  ∀ tid t, Sample.db1 !! tid = Some t →
           is_Some (Sample.cats !! Ticket.category t) →
           is_Some ((delete_category Sample.cats Sample.db1 Sample.carol Sample.bugs).2
                      !! Ticket.category t).
Proof.
  assert (User.role Sample.carol = RoleAdmin) as Hrole by reflexivity.
  assert (Sample.cats !! Sample.bugs = Some Desk.category_bugs) as Hl
    by (vm_compute; reflexivity).
  split; [exact Hrole|]. split; [exact Hl|].
  exact (category_is_deleted_iff_unused Sample.cats Sample.db1 Sample.carol Sample.bugs
           Desk.category_bugs Hrole Hl).
Defined.

Lemma name_le_total : Total name_le.
Proof. intros a b. apply String.leb_total. Qed.

(** X21. GET /api/categories lists each stored category once when the
    request has no [active] parameter, and otherwise exactly those
    whose flag equals [active === 'true'] (any other value, [false] or
    not, asks for the inactive ones); the list is in the order of the
    names. *)
Theorem categories_are_listed_by_name cats active :
  ∃ l, get_categories cats active = Json 200 l ∧
       Sorted (λ a b, String.leb (Category.name a.2) (Category.name b.2) = true) l ∧
       NoDup l ∧
       ∀ id c, (id, c) ∈ l ↔
               cats !! id = Some c ∧
               ∀ a, active = Some a → Category.isActive c = String.eqb a "true".
Proof.
  eexists. split; [reflexivity|]. split_and!.
  - apply (@Sorted_merge_sort _ name_le _ name_le_total).
  - rewrite merge_sort_Permutation. apply NoDup_filter, NoDup_map_to_list.
  - intros id c. rewrite merge_sort_Permutation, list_elem_of_filter, elem_of_map_to_list.
    unfold category_selected. simpl. destruct active as [a|].
    + rewrite bool_decide_spec. split.
      * intros [Ha Hl]. split; [done|]. by intros ? [= <-].
      * intros [Hl Ha]. split; [by apply Ha|done].
    + split; [intros [_ Hl]; split; [done|]; by intros|]. by intros [Hl _].
Qed.

(** ** Two user routes *)

Lemma Ticket_findOne_createdBy_None db id :
  Ticket_findOne_createdBy db id = None ↔
  ∀ tid t, db !! tid = Some t → Ticket.createdBy t ≠ id.
Proof.
  unfold Ticket_findOne_createdBy. split.
  - intros Hfind tid t Hl Heq.
    apply elem_of_map_to_list, list_elem_of_In in Hl.
    pose proof (find_none _ _ Hfind _ Hl) as Hno. simpl in Hno.
    apply String.eqb_neq in Hno. done.
  - intros Hall. destruct (List.find _ _) as [[tid t]|] eqn:Hfind; [|done].
    apply find_some in Hfind as [Hin Heq]. apply list_elem_of_In, elem_of_map_to_list in Hin.
    simpl in Heq. apply String.eqb_eq in Heq. by destruct (Hall tid t Hin).
Qed.

(** X22. When DELETE /api/users/:id answers 200, the requester is an
    admin, the identifier is not the requester's own as it was sent, the
    account it names existed and created none of the stored tickets,
    and that account, and no other, is removed: the creator of a stored
    ticket is never deleted by this route. *)
Theorem deleted_account_created_no_ticket users db u id users' :
  delete_user users db u id = Some (Json 200 (), users') →
  User.role u = RoleAdmin ∧ id ≠ User._id u ∧
  ∃ oid, ObjectId_cast id = Some oid ∧ is_Some (users !! oid) ∧
         users' = delete oid users ∧
         (∀ tid t, db !! tid = Some t → Ticket.createdBy t ≠ oid) ∧
         ∀ tid t, db !! tid = Some t →
                  users' !! Ticket.createdBy t = users !! Ticket.createdBy t.
Proof.
  unfold delete_user, authorize.
  destruct (User.role u) eqn:Hrole; simpl; [done..|].
  destruct (ObjectId_cast id) as [oid|]; simpl; [|done].
  destruct (users !! oid) as [user|] eqn:Hl; [|done].
  destruct (String.eqb_spec id (User._id u)) as [|Hne]; [done|].
  destruct (Ticket_findOne_createdBy db oid) as [doc|] eqn:Hfind; [done|].
  intros [= <-].
  pose proof (proj1 (Ticket_findOne_createdBy_None db oid) Hfind) as Hall.
  split_and!; [done..|]. exists oid. split_and!; [done..|].
  intros tid t Ht. apply lookup_delete_ne. intros Heq. by destruct (Hall tid t Ht).
Qed.

Lemma deleted_account_created_no_ticket_witness :
  delete_user Desk.accounts Sample.db1 Sample.carol (User._id Sample.dave) =
    Some (Json 200 (), delete (User._id Sample.dave) Desk.accounts) ∧
  User.role Sample.carol = RoleAdmin ∧
  User._id Sample.dave ≠ User._id Sample.carol ∧
  ∃ oid, ObjectId_cast (User._id Sample.dave) = Some oid ∧
         is_Some (Desk.accounts !! oid) ∧
         delete (User._id Sample.dave) Desk.accounts = delete oid Desk.accounts ∧
         (∀ tid t, Sample.db1 !! tid = Some t → Ticket.createdBy t ≠ oid) ∧
         ∀ tid t, Sample.db1 !! tid = Some t →
                  delete (User._id Sample.dave) Desk.accounts !! Ticket.createdBy t =
                    Desk.accounts !! Ticket.createdBy t.
Proof.
  assert (delete_user Desk.accounts Sample.db1 Sample.carol (User._id Sample.dave) =
            Some (Json 200 (), delete (User._id Sample.dave) Desk.accounts)) as Hdel
    by (vm_compute; reflexivity).
  split; [exact Hdel|].
  exact (deleted_account_created_no_ticket Desk.accounts Sample.db1 Sample.carol
           (User._id Sample.dave) _ Hdel).
Defined.

(** X23. GET /api/users/:id shows an account exactly when the
    identifier names a stored account and the requester is an admin or
    sent the own identifier; the reply is then that account. *)
Theorem profile_is_shown_to_its_owner_and_to_admins users u id user :
  get_user users u id = Some (Json 200 user) ↔
  (∃ oid, ObjectId_cast id = Some oid ∧ users !! oid = Some user) ∧
  (User.role u = RoleAdmin ∨ User._id u = id).
Proof.
  unfold get_user. split.
  - destruct (ObjectId_cast id) as [oid|]; simpl; [|done].
    destruct (users !! oid) as [a|] eqn:Hl; [|done].
    destruct (negb _ && negb _) eqn:Hb; [done|].
    intros [= <-]. split; [by eauto|].
    apply andb_false_iff in Hb as [Hb|Hb]; apply negb_false_iff in Hb.
    + left. by destruct (User.role u).
    + right. by apply String.eqb_eq.
  - intros [(oid & -> & Hl) Hok]. simpl. rewrite Hl.
    destruct Hok as [->| ->]; [done|].
    by rewrite String.eqb_refl, andb_false_r.
Qed.
